(** * AR placement controller of depthai-arviewer

    Shallow embedding of [src/components/ModelViewer.tsx],
    [src/components/ArHud.tsx], the models ([Models.tsx]), the handlers of
    [src/components/Controls.tsx] and the state of the [App] component,
    followed by their properties.

    Conventions of the embedding.
    - Numbers of the scene (coordinates, frame delta) are exact rationals
      [Q]; JavaScript doubles agree with them on the dyadic values used in
      the concrete examples.
    - Times are milliseconds in [N]; every event carries the time at which
      the event loop dispatches it.  A [setTimeout] callback whose delay has
      elapsed runs before the event dispatched at that time.
    - three.js objects live in a store addressed by locations, so that
      sharing a [Vector3] and cloning it are different things.
    - A React callback reads the state of the render it was created in and
      queues its updates; the model applies them and commits (refs, effects)
      before the next event is dispatched. *)

From Stdlib Require Import QArith Qfield Lqa Ascii DecimalString DecimalN.
From stdpp Require Import gmap strings list.

Local Open Scope string_scope.
Local Open Scope list_scope.

(** ** three.js values used by the controller *)

Module Three.

Record Vector3 := mkVector3 { vx : Q; vy : Q; vz : Q }.

(** [Matrix4.elements], column-major, sixteen entries. *)
Definition Matrix4 := list Q.

Definition el (m : Matrix4) (i : nat) : Q := nth i m 0%Q.

Definition identity4 : Matrix4 :=
  [1; 0; 0; 0;  0; 1; 0; 0;  0; 0; 1; 0;  0; 0; 0; 1]%Q.

(** [new Matrix4().fromArray(a)]: the first sixteen entries of [a]. *)
Definition fromArray (a : list Q) : Matrix4 := take 16 a.

(** [Vector3.applyMatrix4]. *)
Definition applyMatrix4 (v : Vector3) (m : Matrix4) : Vector3 :=
  let x := vx v in let y := vy v in let z := vz v in
  let w := (1 / (el m 3 * x + el m 7 * y + el m 11 * z + el m 15))%Q in
  {| vx := (el m 0 * x + el m 4 * y + el m 8 * z + el m 12) * w;
     vy := (el m 1 * x + el m 5 * y + el m 9 * z + el m 13) * w;
     vz := (el m 2 * x + el m 6 * y + el m 10 * z + el m 14) * w |}%Q.

(** [Vector3.lerp(v, alpha)]: [this.x += (v.x - this.x) * alpha], etc. *)
Definition lerp (this v : Vector3) (alpha : Q) : Vector3 :=
  {| vx := vx this + (vx v - vx this) * alpha;
     vy := vy this + (vy v - vy this) * alpha;
     vz := vz this + (vz v - vz this) * alpha |}%Q.

(** Orientations.  Their numeric value needs square roots and inverse
    trigonometric functions ([Matrix4.decompose], [Object3D.lookAt]), so an
    orientation is kept as the expression that produced it.  three.js keeps
    [Object3D.rotation] and [Object3D.quaternion] in step through their
    change callbacks; one orientation is stored per object. *)
Inductive Orientation :=
| Identity
| OfMatrix (m : Matrix4)              (* rotation part of [decompose] *)
| LookAt (eye target : Vector3).      (* [Object3D.lookAt(target)] *)

(** Translation part of [Matrix4.decompose]. *)
Definition decomposePosition (m : Matrix4) : Vector3 :=
  {| vx := el m 12; vy := el m 13; vz := el m 14 |}.

#[global] Instance Vector3_inhabited : Inhabited Vector3 :=
  populate (mkVector3 0 0 0).
#[global] Instance Orientation_inhabited : Inhabited Orientation :=
  populate Identity.

End Three.
Export Three.

(** ** The object store *)

Definition loc := nat.

Record Heap := mkHeap {
  vectors : gmap loc Vector3;        (* every live [THREE.Vector3] *)
  eulers  : gmap loc Orientation     (* every live [THREE.Euler] *)
}.

(** [new THREE.Vector3(...)] / [v.clone()] *)
Definition allocVector (v : Vector3) (h : Heap) : loc * Heap :=
  let l := fresh (dom (vectors h)) in
  (l, {| vectors := <[l := v]> (vectors h); eulers := eulers h |}).

Definition allocEuler (o : Orientation) (h : Heap) : loc * Heap :=
  let l := fresh (dom (eulers h)) in
  (l, {| vectors := vectors h; eulers := <[l := o]> (eulers h) |}).

Definition readVector (h : Heap) (l : loc) : Vector3 := vectors h !!! l.
Definition readEuler (h : Heap) (l : loc) : Orientation := eulers h !!! l.

Definition writeVector (l : loc) (v : Vector3) (h : Heap) : Heap :=
  {| vectors := <[l := v]> (vectors h); eulers := eulers h |}.
Definition writeEuler (l : loc) (o : Orientation) (h : Heap) : Heap :=
  {| vectors := vectors h; eulers := <[l := o]> (eulers h) |}.

(** A [THREE.Object3D] as far as the controller touches it. *)
Record Object3D := mkObject3D { position : loc; rotation : loc }.

(** [new THREE.Group()]: position at the origin, identity orientation. *)
Definition newGroup (h : Heap) : Object3D * Heap :=
  let '(p, h1) := allocVector (mkVector3 0 0 0) h in
  let '(r, h2) := allocEuler Identity h1 in
  ({| position := p; rotation := r |}, h2).

(** ** Inputs supplied by the platform *)

Definition Time := N.
Bind Scope N_scope with Time.
Definition Session := nat.            (* an [XRSession] *)
Definition HitTestSource := nat.      (* an [XRHitTestSource] *)

Inductive XRMode := ImmersiveAR | ImmersiveVR | Inline.

(** [pose.transform.matrix] *)
Record XRPose := mkXRPose { transform_matrix : list Q }.

(** An [XRFrame]: for a hit-test source, the list of its results; a result
    is given by what [hit.getPose(referenceSpace)] returns for it. *)
Record XRFrame := mkXRFrame {
  getHitTestResults : HitTestSource -> list (option XRPose)
}.

Record Camera := mkCamera { matrixWorld : Matrix4; cam_position : Vector3 }.

(** Arguments of one call of the [useFrame] callback, with the value of
    [gl.xr.getReferenceSpace()] at that call ([true]: not null). *)
Record Tick := mkTick {
  delta : Q;
  camera : Camera;
  frame : option XRFrame;
  referenceSpace : bool
}.

(** Outcome of [initHitTest]: the source, or the message of the error. *)
Inductive InitResult := Resolved (src : HitTestSource) | Rejected (message : string).

Inductive Button := ClearSceneButton | PlaceToggleButton.

Inductive Event :=
| XRStore (m : option XRMode) (s : option Session)   (* [useXR] state changes *)
| AppRender                                          (* [App] renders again *)
| InitSettled (run : nat) (r : InitResult)           (* [initHitTest] of run [run] ends *)
| Frame (t : Tick)                                   (* [useFrame] callback *)
| Select (random36 : string)                         (* session 'select'; [Math.random().toString(36)] *)
| HudPointerDown (b : Button)                        (* [onPointerDown] of a HUD button *)
| HudClick (b : Button).                             (* [onClick] of a HUD button *)

(** What the controller does to the outside. *)
Inductive Action :=
| Log (msg : string)                                 (* [onLog(msg)] *)
| RequestHitTestSource (s : Session) (run : nat)     (* [initHitTest()] *)
| CancelHitTestSource (src : HitTestSource).         (* [source.cancel()] *)

Definition logged (a : Action) : option string :=
  match a with Log m => Some m | _ => None end.

Definition logs (acts : list Action) : list string := omap logged acts.

(** ** [App]: the debug log sink *)

(** [setDebugLog(prev => [msg, ...prev].slice(0, 5))] *)
Definition addLog (msg : string) (prev : list string) : list string :=
  take 5 (msg :: prev).

(** ** [ModelViewer] *)

Record PlacedModel := mkPlaced {
  model_position : loc;
  model_rotation : loc;
  model_id : string
}.

Record Reticle := mkReticle { visible : bool; reticle_matrix : Matrix4 }.

Record Viewer := mkViewer {
  (* useXR *)
  mode : option XRMode;
  session : option Session;
  (* useState *)
  models : list PlacedModel;
  isPlacementMode : bool;
  isSurfaceDetected : bool;
  hasLoggedHit : bool;
  (* useRef *)
  reticleRef : option Reticle;
  previewRef : option Object3D;
  hitTestSource : option HitTestSource;
  isUiBlocked : bool;
  (* due times of the pending [setTimeout] callbacks of [setUiBlocked] *)
  timers : list Time;
  (* the current run of the hit-test effect: its number when it called
     [initHitTest] (and so returned a cleanup), and its local [source] *)
  effectRun : option nat;
  effectSource : option HitTestSource;
  inflight : list nat;                 (* runs whose [initHitTest] has not ended *)
  nextRun : nat;
  heap : Heap
}.

Definition isPresenting (v : Viewer) : bool :=
  match mode v with Some ImmersiveAR => true | _ => false end.

Definition set_xr (m : option XRMode) (s : option Session) (v : Viewer) : Viewer :=
  mkViewer m s (models v) (isPlacementMode v) (isSurfaceDetected v)
    (hasLoggedHit v) (reticleRef v) (previewRef v) (hitTestSource v)
    (isUiBlocked v) (timers v) (effectRun v) (effectSource v) (inflight v)
    (nextRun v) (heap v).

Definition setModels (f : list PlacedModel -> list PlacedModel) (v : Viewer) : Viewer :=
  mkViewer (mode v) (session v) (f (models v)) (isPlacementMode v)
    (isSurfaceDetected v) (hasLoggedHit v) (reticleRef v) (previewRef v)
    (hitTestSource v) (isUiBlocked v) (timers v) (effectRun v)
    (effectSource v) (inflight v) (nextRun v) (heap v).

Definition setIsPlacementMode (f : bool -> bool) (v : Viewer) : Viewer :=
  mkViewer (mode v) (session v) (models v) (f (isPlacementMode v))
    (isSurfaceDetected v) (hasLoggedHit v) (reticleRef v) (previewRef v)
    (hitTestSource v) (isUiBlocked v) (timers v) (effectRun v)
    (effectSource v) (inflight v) (nextRun v) (heap v).

Definition setIsSurfaceDetected (b : bool) (v : Viewer) : Viewer :=
  mkViewer (mode v) (session v) (models v) (isPlacementMode v) b
    (hasLoggedHit v) (reticleRef v) (previewRef v) (hitTestSource v)
    (isUiBlocked v) (timers v) (effectRun v) (effectSource v) (inflight v)
    (nextRun v) (heap v).

Definition setHasLoggedHit (b : bool) (v : Viewer) : Viewer :=
  mkViewer (mode v) (session v) (models v) (isPlacementMode v)
    (isSurfaceDetected v) b (reticleRef v) (previewRef v) (hitTestSource v)
    (isUiBlocked v) (timers v) (effectRun v) (effectSource v) (inflight v)
    (nextRun v) (heap v).

Definition set_reticleRef (r : option Reticle) (v : Viewer) : Viewer :=
  mkViewer (mode v) (session v) (models v) (isPlacementMode v)
    (isSurfaceDetected v) (hasLoggedHit v) r (previewRef v) (hitTestSource v)
    (isUiBlocked v) (timers v) (effectRun v) (effectSource v) (inflight v)
    (nextRun v) (heap v).

Definition set_previewRef (p : option Object3D) (v : Viewer) : Viewer :=
  mkViewer (mode v) (session v) (models v) (isPlacementMode v)
    (isSurfaceDetected v) (hasLoggedHit v) (reticleRef v) p (hitTestSource v)
    (isUiBlocked v) (timers v) (effectRun v) (effectSource v) (inflight v)
    (nextRun v) (heap v).

Definition set_hitTestSource (s : option HitTestSource) (v : Viewer) : Viewer :=
  mkViewer (mode v) (session v) (models v) (isPlacementMode v)
    (isSurfaceDetected v) (hasLoggedHit v) (reticleRef v) (previewRef v) s
    (isUiBlocked v) (timers v) (effectRun v) (effectSource v) (inflight v)
    (nextRun v) (heap v).

Definition set_gate (b : bool) (ts : list Time) (v : Viewer) : Viewer :=
  mkViewer (mode v) (session v) (models v) (isPlacementMode v)
    (isSurfaceDetected v) (hasLoggedHit v) (reticleRef v) (previewRef v)
    (hitTestSource v) b ts (effectRun v) (effectSource v) (inflight v)
    (nextRun v) (heap v).

Definition set_effect (run : option nat) (src : option HitTestSource)
    (fl : list nat) (next : nat) (v : Viewer) : Viewer :=
  mkViewer (mode v) (session v) (models v) (isPlacementMode v)
    (isSurfaceDetected v) (hasLoggedHit v) (reticleRef v) (previewRef v)
    (hitTestSource v) (isUiBlocked v) (timers v) run src fl next (heap v).

Definition set_heap (h : Heap) (v : Viewer) : Viewer :=
  mkViewer (mode v) (session v) (models v) (isPlacementMode v)
    (isSurfaceDetected v) (hasLoggedHit v) (reticleRef v) (previewRef v)
    (hitTestSource v) (isUiBlocked v) (timers v) (effectRun v)
    (effectSource v) (inflight v) (nextRun v) h.

(** *** The interaction gate (lines 33-42)

    [setUiBlocked(blocked)] writes the flag and, when blocking, schedules a
    callback 500 ms later that clears it.  Earlier callbacks stay scheduled. *)
Definition setUiBlocked (now : Time) (blocked : bool) (v : Viewer) : Viewer :=
  set_gate blocked
    (if blocked then timers v ++ [(now + 500)%N] else timers v) v.

(** The timer callbacks that are due when the event of time [now] is
    dispatched: each runs [isUiBlocked.current = false]. *)
Definition runTimers (now : Time) (v : Viewer) : Viewer :=
  if decide (Exists (λ due, (due ≤ now)%N) (timers v)) then
    set_gate false (filter (λ due, (now < due)%N) (timers v)) v
  else v.

(** *** The frame callback (lines 80-143) *)

(** Step 1 of the callback, "Perform Hit Test" (lines 94-108). *)
Definition poll (v : Viewer) (t : Tick) (f : XRFrame) : option XRPose :=
  match hitTestSource v with
  | Some src =>
      if referenceSpace t then
        match getHitTestResults f src with
        | hit :: _ => hit
        | [] => None
        end
      else None
  | None => None
  end.

Definition hideReticle (v : Viewer) : Viewer :=
  match reticleRef v with
  | Some r => set_reticleRef (Some (mkReticle false (reticle_matrix r))) v
  | None => v
  end.

Definition useFrame (t : Tick) (v0 : Viewer) : Viewer * list Action :=
  if negb (isPresenting v0) then (v0, []) else
  match frame t with
  | None => (v0, [])
  | Some f =>
    let v := hideReticle v0 in
    if negb (isPlacementMode v) then (v, []) else
    match poll v t f with
    | Some pose =>
        (* -- SURFACE DETECTED -- *)
        let hitMatrix := fromArray (transform_matrix pose) in
        let v1 := if negb (isSurfaceDetected v)
                  then setIsSurfaceDetected true v else v in
        let '(v2, out) :=
          if negb (hasLoggedHit v)
          then (setHasLoggedHit true v1, [Log "Surface detected!"])
          else (v1, []) in
        let v3 := match reticleRef v2 with
                  | Some _ => set_reticleRef (Some (mkReticle true hitMatrix)) v2
                  | None => v2
                  end in
        let v4 := match previewRef v3 with
                  | Some o =>
                      let p := decomposePosition hitMatrix in
                      let q := OfMatrix hitMatrix in
                      set_heap (writeEuler (rotation o) q
                                 (writeVector (position o) p (heap v3))) v3
                  | None => v3
                  end in
        (v4, out)
    | None =>
        (* -- NO SURFACE -- *)
        let v1 := if isSurfaceDetected v
                  then setIsSurfaceDetected false v else v in
        let v2 := match previewRef v1 with
                  | Some o =>
                      let targetPos :=
                        applyMatrix4 (mkVector3 0 0 (-3 # 2))
                                     (matrixWorld (camera t)) in
                      let p := lerp (readVector (heap v1) (position o))
                                    targetPos (delta t * 5) in
                      set_heap (writeEuler (rotation o)
                                  (LookAt p (cam_position (camera t)))
                                 (writeVector (position o) p (heap v1))) v1
                  | None => v1
                  end in
        (v2, [])
    end
  end.

(** *** Placement (lines 145-170) *)

(** [`model-${Date.now()}-${Math.random().toString(36).substr(2, 9)}`] *)
Definition modelId (now : Time) (random36 : string) : string :=
  "model-" +:+ NilEmpty.string_of_uint (N.to_uint now) +:+ "-"
           +:+ String.substring 2 9 random36.

Definition placeModel (now : Time) (random36 : string) (v : Viewer)
    : Viewer * list Action :=
  if negb (isPresenting v) then (v, []) else
  if negb (isPlacementMode v) then (v, []) else
  if isUiBlocked v then (v, []) else
  match isSurfaceDetected v, previewRef v with
  | true, Some o =>
      let '(pos, h1) := allocVector (readVector (heap v) (position o)) (heap v) in
      let '(rot, h2) := allocEuler (readEuler h1 (rotation o)) h1 in
      let id := modelId now random36 in
      (setModels (λ prev, prev ++ [mkPlaced pos rot id]) (set_heap h2 v),
       [Log "Model placed"])
  | true, None => (v, [])
  | false, _ => (v, [Log "Find a surface first"])
  end.

Definition clearScene (v : Viewer) : Viewer * list Action :=
  (setModels (λ _, []) v, [Log "Scene cleared"]).

(** *** The HUD buttons ([ArHud.tsx]) *)

(** The [onClick] props given to the two [HudButton]s (lines 136-150). *)
Definition onClick (b : Button) (v : Viewer) : Viewer * list Action :=
  match b with
  | ClearSceneButton =>
      let '(v1, out) := clearScene v in (v1, out ++ [Log "Scene Cleared"])
  | PlaceToggleButton =>
      (setIsPlacementMode negb v,
       [Log (if isPlacementMode v then "Placement Disabled"
             else "Placement Enabled")])
  end.

(** [HudButton.handleInteraction] (lines 30-35); the button's own [clicked]
    highlight is not part of the controller. *)
Definition handleInteraction (now : Time) (b : Button) (v : Viewer)
    : Viewer * list Action :=
  onClick b (setUiBlocked now true v).

(** [HudButton.handlePointerDown] (lines 37-40) *)
Definition handlePointerDown (now : Time) (v : Viewer) : Viewer :=
  setUiBlocked now true v.

(** *** Commit: refs and effects *)

(** The reticle group is rendered while presenting, the preview group while
    presenting in placement mode (lines 180-220); a group that appears is a
    new object, a group that disappears leaves its ref null. *)
Definition mountRefs (v : Viewer) : Viewer :=
  let v1 :=
    if isPresenting v then
      match reticleRef v with
      | Some _ => v
      | None => set_reticleRef (Some (mkReticle false identity4)) v
      end
    else set_reticleRef None v in
  if isPresenting v1 && isPlacementMode v1 then
    match previewRef v1 with
    | Some _ => v1
    | None => let '(o, h) := newGroup (heap v1) in
              set_previewRef (Some o) (set_heap h v1)
    end
  else set_previewRef None v1.

(** The reset effect, dependencies [[isPresenting]] (lines 44-49). *)
Definition resetEffect (before : Viewer) (v : Viewer) : Viewer :=
  if bool_decide (isPresenting before = isPresenting v) then v
  else if isPresenting v
       then setIsSurfaceDetected false (setHasLoggedHit false v)
       else v.

(** The hit-test effect, dependencies [[session, isPresenting, onLog]]
    (lines 51-78): when one of them changed, the cleanup of the previous
    run, then the body. *)
Definition hitTestEffect (before : Viewer) (onLogChanged : bool) (v : Viewer)
    : Viewer * list Action :=
  if bool_decide (session before = session v)
     && bool_decide (isPresenting before = isPresenting v)
     && negb onLogChanged
  then (v, [])
  else
    let '(v1, out) :=
      match effectRun v with
      | Some _ =>
          (set_hitTestSource None v,
           match effectSource v with
           | Some src => [CancelHitTestSource src]
           | None => []
           end)
      | None => (v, [])
      end in
    match session v1, isPresenting v1 with
    | Some s, true =>
        let run := nextRun v1 in
        (set_effect (Some run) None (inflight v1 ++ [run]) (S run) v1,
         out ++ [RequestHitTestSource s run])
    | _, _ =>
        (set_effect None None (inflight v1) (nextRun v1)
           (set_hitTestSource None v1), out)
    end.

(** The end of [initHitTest] of run [run] (lines 59-68).  A resolved source
    is stored in the run's [source] and in [hitTestSource.current], whether
    or not the run is still the current one. *)
Definition initSettled (run : nat) (r : InitResult) (v : Viewer)
    : Viewer * list Action :=
  if bool_decide (run ∈ inflight v) then
    let fl := filter (λ k, k ≠ run) (inflight v) in
    match r with
    | Resolved src =>
        let own := if bool_decide (effectRun v = Some run)
                   then Some src else effectSource v in
        (set_hitTestSource (Some src)
           (set_effect (effectRun v) own fl (nextRun v) v), [])
    | Rejected message =>
        (set_effect (effectRun v) (effectSource v) fl (nextRun v) v,
         [Log ("Hit Test Error: " +:+ message)])
    end
  else (v, []).

(** ** The whole application: [App] around [ModelViewer] *)

Record System := mkSystem {
  debugLog : list string;              (* [App]'s [useState<string[]>] *)
  viewer : Viewer
}.

(** The callback that the platform dispatches for an event.  The 'select'
    listener exists while there is a session (lines 172-178), the HUD while
    presenting (lines 180-196). *)
Definition handle (now : Time) (e : Event) (v : Viewer) : Viewer * list Action :=
  match e with
  | XRStore m s => (set_xr m s v, [])
  | AppRender => (v, [])
  | InitSettled run r => initSettled run r v
  | Frame t => useFrame t v
  | Select random36 =>
      match session v with
      | Some _ => placeModel now random36 v
      | None => (v, [])
      end
  | HudPointerDown _ =>
      if isPresenting v then (handlePointerDown now v, []) else (v, [])
  | HudClick b =>
      if isPresenting v then handleInteraction now b v else (v, [])
  end.

(** [App] renders again when its state changes, which every [addLog] call
    causes; [addLog] is a new function in every render of [App]
    (part_002, lines 29-31 and 110), so [ModelViewer] then sees a new
    [onLog]. *)
Definition onLogChanges (e : Event) (out : list Action) : bool :=
  match e with
  | AppRender => true
  | _ => bool_decide (logs out ≠ [])
  end.

(** After the callback React renders and commits: the refs are attached or
    detached, then the effects whose dependencies changed since [before]
    run, in the order in which the component declares them. *)
Definition commit (before : Viewer) (onLogChanged : bool) (v : Viewer)
    : Viewer * list Action :=
  hitTestEffect before onLogChanged (resetEffect before (mountRefs v)).

(** One event dispatched at time [now]: the timers that are due, the
    callback, the commit. *)
Definition step_viewer (now : Time) (e : Event) (v : Viewer)
    : Viewer * list Action :=
  let v0 := runTimers now v in
  let '(v1, out) := handle now e v0 in
  let '(v2, out') := commit v0 (onLogChanges e out) v1 in
  (v2, out ++ out').

(** The same with [App]'s history: [onLog] is [addLog], so the messages
    that the controller logs are added to the history.  [App]'s own calls of
    [addLog] (part_002, lines 65 and 86) are in [App.step] below; they are
    not events of the controller. *)
Definition step (te : Time * Event) (s : System) : System * list Action :=
  let '(v, out) := step_viewer (fst te) (snd te) (viewer s) in
  ({| debugLog := foldl (λ l m, addLog m l) (debugLog s) (logs out);
      viewer := v |}, out).

Fixpoint run (tes : list (Time * Event)) (s : System) : System * list Action :=
  match tes with
  | [] => (s, [])
  | te :: rest =>
      let '(s1, out) := step te s in
      let '(s2, out') := run rest s1 in
      (s2, out ++ out')
  end.

(** [ModelViewer] as first mounted, outside of a session. *)
Definition initialViewer : Viewer :=
  {| mode := None; session := None;
     models := []; isPlacementMode := true;
     isSurfaceDetected := false; hasLoggedHit := false;
     reticleRef := None; previewRef := None;
     hitTestSource := None; isUiBlocked := false; timers := [];
     effectRun := None; effectSource := None; inflight := []; nextRun := 0;
     heap := mkHeap ∅ ∅ |}.

Definition initial : System := {| debugLog := []; viewer := initialViewer |}.

(** The states of the running application. *)
Definition reachable (s : System) : Prop :=
  ∃ tes, fst (run tes initial) = s.

(** ** Vocabulary of the properties *)

(** Fields that no effect writes. *)
Definition same_ui (v v' : Viewer) : Prop :=
  mode v' = mode v ∧ session v' = session v ∧ models v' = models v
  ∧ isPlacementMode v' = isPlacementMode v
  ∧ isUiBlocked v' = isUiBlocked v ∧ timers v' = timers v
  ∧ previewRef v' = previewRef v ∧ heap v' = heap v.

(** The preview group exists exactly while presenting in placement mode. *)
Definition preview_mounted (v : Viewer) : Prop :=
  is_Some (previewRef v) ↔ isPresenting v && isPlacementMode v = true.

(** The events that call [setUiBlocked(true)]. *)
Definition is_block (e : Event) : bool :=
  match e with HudPointerDown _ | HudClick _ => true | _ => false end.

(** Event times do not decrease, from [lo] up to [hi]. *)
Fixpoint chronological (lo : Time) (tes : list (Time * Event)) (hi : Time) : bool :=
  match tes with
  | [] => bool_decide (lo ≤ hi)%N
  | te :: rest => bool_decide (lo ≤ fst te)%N && chronological (fst te) rest hi
  end.

(** The gate after one block at [t], seen at time [now]. *)
Definition gate_at (t now : Time) (v : Viewer) : Prop :=
  if bool_decide (now < t + 500)%N
  then isUiBlocked v = true ∧ timers v = [(t + 500)%N]
  else isUiBlocked v = false ∧ timers v = [].

(** Frame ticks as events. *)
Definition frames (ticks : list (Time * Tick)) : list (Time * Event) :=
  map (λ nt, (fst nt, Frame (snd nt))) ticks.

(** How many times "Surface detected!" is logged. *)
Definition surfaceDetectedCount (out : list Action) : nat :=
  length (filter (λ m, m = "Surface detected!") (logs out)).

(** The event is a frame tick whose hit-test poll returns a pose. *)
Definition pollsPose (v : Viewer) (e : Event) : bool :=
  match e with
  | Frame t =>
      isPresenting v && isPlacementMode v
      && match frame t with
         | Some f => bool_decide (is_Some (poll v t f))
         | None => false
         end
  | _ => false
  end.

(** For every event of a run: whether it polled a pose, and how many times
    it logged "Surface detected!". *)
Fixpoint detections (tes : list (Time * Event)) (s : System) : list (bool * nat) :=
  match tes with
  | [] => []
  | te :: rest =>
      (pollsPose (viewer s) (snd te), surfaceDetectedCount (snd (step te s)))
      :: detections rest (fst (step te s))
  end.

(** One at the first [true], zero everywhere else. *)
Fixpoint first_only (l : list bool) : list nat :=
  match l with
  | [] => []
  | true :: rest => 1 :: map (λ _, 0) rest
  | false :: rest => 0 :: first_only rest
  end.

(** The events that can change [isPresenting], and so run the reset. *)
Definition is_xr_change (e : Event) : bool :=
  match e with XRStore _ _ => true | _ => false end.

(** The cells [lp] (a vector) and [lr] (an orientation) exist and are not
    the ones of the preview group. *)
Definition apart (lp lr : loc) (v : Viewer) : Prop :=
  lp ∈ dom (vectors (heap v)) ∧ lr ∈ dom (eulers (heap v))
  ∧ ∀ o, previewRef v = Some o → position o ≠ lp ∧ rotation o ≠ lr.

(** Going from [v] to [v'] keeps such cells apart and leaves their
    contents as they were. *)
Definition kept (v v' : Viewer) : Prop :=
  ∀ lp lr, apart lp lr v →
    apart lp lr v'
    ∧ readVector (heap v') lp = readVector (heap v) lp
    ∧ readEuler (heap v') lr = readEuler (heap v) lr.

(** The cells of the preview group exist. *)
Definition preview_ok (v : Viewer) : Prop :=
  ∀ o, previewRef v = Some o →
    position o ∈ dom (vectors (heap v)) ∧ rotation o ∈ dom (eulers (heap v)).

(** What a callback or the commit can do to the store and to the preview
    ref: nothing, drop the preview group, overwrite the preview's own cells,
    allocate a clone, or allocate a new preview group. *)
Inductive store_change (v v' : Viewer) : Prop :=
| sc_same :
    heap v' = heap v → previewRef v' = previewRef v → store_change v v'
| sc_unmount :
    heap v' = heap v → previewRef v' = None → store_change v v'
| sc_write (o : Object3D) (p : Vector3) (q : Orientation) :
    previewRef v = Some o → previewRef v' = Some o →
    heap v' = writeEuler (rotation o) q (writeVector (position o) p (heap v)) →
    store_change v v'
| sc_alloc (x : Vector3) (y : Orientation) :
    previewRef v' = previewRef v →
    heap v' = snd (allocEuler y (snd (allocVector x (heap v)))) →
    store_change v v'
| sc_mount :
    previewRef v' = Some (fst (newGroup (heap v))) →
    heap v' = snd (newGroup (heap v)) →
    store_change v v'.

(** Every registry entry has cells of its own. *)
Definition registry_apart (v : Viewer) : Prop :=
  ∀ m, m ∈ models v → apart (model_position m) (model_rotation m) v.

(** No character of the string is a dash. *)
Fixpoint no_dash (s : string) : Prop :=
  match s with
  | EmptyString => True
  | String c s' => c ≠ "-"%char ∧ no_dash s'
  end.

(** Where the preview group is, if it exists. *)
Definition previewPosition (s : System) : option Vector3 :=
  readVector (heap (viewer s)) ∘ position <$> previewRef (viewer s).

(** The point 1.5 in front of the camera (line 138). *)
Definition followTarget (cam : Camera) : Vector3 :=
  applyMatrix4 (mkVector3 0 0 (-3 # 2)) (matrixWorld cam).

(** [p'] is as far from [target] as [p], times [k], on every axis. *)
Definition scaled (p' p target : Vector3) (k : Q) : Prop :=
  (vx p' - vx target == (vx p - vx target) * k
   ∧ vy p' - vy target == (vy p - vy target) * k
   ∧ vz p' - vz target == (vz p - vz target) * k)%Q.

(** What is left of the distance after ticks with the given deltas. *)
Definition remaining (deltas : list Q) : Q :=
  foldr (λ d k, (1 - d * 5) * k)%Q 1%Q deltas.

(** A tick polls no pose in state [v], with the camera at [cam]. *)
Definition follows (v : Viewer) (cam : Camera) (t : Tick) : Prop :=
  camera t = cam ∧ ∃ f, frame t = Some f ∧ poll v t f = None.

(** ** Concrete sessions used in the examples

    Session 7 enters AR at 0 ms; hit poses are translations; the camera
    stays at the origin, looking down the negative z axis. *)

Definition hitAt (x y z : Q) : XRPose :=
  mkXRPose [1; 0; 0; 0;  0; 1; 0; 0;  0; 0; 1; 0;  x; y; z; 1]%Q.

Definition cam0 : Camera := mkCamera identity4 (mkVector3 0 0 0).

Definition tickHit (p : XRPose) : Tick :=
  mkTick (1 # 60) cam0 (Some (mkXRFrame (λ _, [Some p]))) true.

Definition tickNoHit (d : Q) : Tick :=
  mkTick d cam0 (Some (mkXRFrame (λ _, []))) true.

Definition enterAR : list (Time * Event) :=
  [(0%N, XRStore (Some ImmersiveAR) (Some 7)); (5%N, InitSettled 0 (Resolved 1))].

Definition sessionWithSurface : System :=
  fst (run (enterAR ++ [(10%N, Frame (tickHit (hitAt 1 2 3)))]) initial).

Definition clearTap : list (Time * Event) :=
  [(1010%N, InitSettled 1 (Resolved 2));
   (1020%N, Frame (tickHit (hitAt 1 2 3)))].

Definition pressThenClick : list (Time * Event) :=
  [(20%N, InitSettled 1 (Resolved 2));
   (30%N, Frame (tickHit (hitAt 1 2 3)));
   (1000%N, HudPointerDown ClearSceneButton);
   (1100%N, HudClick ClearSceneButton);
   (1110%N, InitSettled 2 (Resolved 3));
   (1120%N, Frame (tickHit (hitAt 1 2 3)))].

Definition trackingSession : System := fst (run enterAR initial).

Definition lostThenFound : list (Time * Tick) :=
  [(10%N, tickNoHit (1 # 60)); (26%N, tickHit (hitAt 1 2 3));
   (42%N, tickNoHit (1 # 60))].

Definition oneSession : list (Time * Event) :=
  [(5%N, InitSettled 0 (Resolved 1));
   (10%N, Frame (tickHit (hitAt 1 2 3)));
   (20%N, InitSettled 1 (Resolved 2));
   (30%N, Frame (tickNoHit (1 # 60)));
   (40%N, Frame (tickHit (hitAt 1 2 3)));
   (700%N, Select "0.4fzyo82mvyr")].

Definition afterTap : list (Time * Event) :=
  [(710%N, InitSettled 2 (Resolved 3));
   (720%N, Frame (tickHit (hitAt 4 5 6)));
   (736%N, Frame (tickNoHit (1 # 8)));
   (800%N, HudClick PlaceToggleButton);
   (1400%N, HudClick PlaceToggleButton);
   (1410%N, Frame (tickNoHit (1 # 8)))].

Definition readyToPlace : System :=
  fst (run [(20%N, InitSettled 1 (Resolved 2));
            (30%N, Frame (tickHit (hitAt 1 2 3)))] sessionWithSurface).

Definition twoTaps : list (Time * Event) :=
  [(110%N, InitSettled 3 (Resolved 4));
   (120%N, Frame (tickHit (hitAt 1 2 3)));
   (700%N, Select "0.4fzyo82mvyr");
   (700%N, Select "0.4fzyo82mvq1")].

Definition oneLongTick : list (Time * Tick) := [(126%N, tickNoHit (1 # 8))].
Definition twoShortTicks : list (Time * Tick) :=
  [(63%N, tickNoHit (1 # 16)); (126%N, tickNoHit (1 # 16))].

Definition failedStart : list (Time * Event) :=
  [(0%N, XRStore (Some ImmersiveAR) (Some 7));
   (5%N, InitSettled 0 (Rejected "hit-test not supported"));
   (9%N, InitSettled 1 (Resolved 1));
   (16%N, Frame (tickHit (hitAt 1 2 3)))].

(** ** Vocabulary of the further properties *)

(** The click on the Clear Scene button. *)
Definition is_clear (e : Event) : bool :=
  match e with HudClick ClearSceneButton => true | _ => false end.

Definition is_select (e : Event) : bool :=
  match e with Select _ => true | _ => false end.

(** A closed gate has a timer that will open it. *)
Definition gate_can_open (v : Viewer) : Prop :=
  isUiBlocked v = true → timers v ≠ [].

(** The reticle group exists exactly while presenting. *)
Definition reticle_mounted (v : Viewer) : Prop :=
  is_Some (reticleRef v) ↔ isPresenting v = true.

(** The hit-test effect has a run with a cleanup exactly while a session is
    presented, and only such a run owns a source. *)
Definition effect_live (v : Viewer) : Prop :=
  (is_Some (effectRun v) ↔ is_Some (session v) ∧ isPresenting v = true)
  ∧ (effectRun v = None → effectSource v = None).

(** One model placed, hit testing running again. *)
Definition placedOnce : System :=
  fst (run [(700%N, Select "0.4fzyo82mvyr");
            (710%N, InitSettled 2 (Resolved 3))] readyToPlace).

(** No event of the list resolves a request with the source [src]. *)
Definition never_resolves (src : HitTestSource) (tes : list (Time * Event)) : Prop :=
  Forall (λ te, ∀ k, snd te ≠ InitSettled k (Resolved src)) tes.

(** The event is the end of a request that hands out a source. *)
Definition is_resolution (e : Event) : bool :=
  match e with InitSettled _ (Resolved _) => true | _ => false end.

(** Frames with hits and a failing request, none that resolves. *)
Definition framesWhileWaiting : list (Time * Event) :=
  [(716%N, Frame (tickHit (hitAt 1 2 3)));
   (720%N, InitSettled 2 (Rejected "busy"));
   (732%N, Frame (tickHit (hitAt 1 2 3)))].

(** One request outlived by the next: session 7 starts, [App] renders again
    before the first request has settled. *)
Definition overtaken : System :=
  fst (run [(0%N, XRStore (Some ImmersiveAR) (Some 7)); (3%N, AppRender)] initial).

Definition afterOvertaken : list (Time * Event) :=
  [(8%N, InitSettled 1 (Resolved 6));
   (16%N, Frame (tickHit (hitAt 1 2 3)));
   (20%N, InitSettled 2 (Resolved 8));
   (900%N, XRStore None None)].

(** One model placed, then placement mode switched off in the HUD. *)
Definition placementOff : System :=
  fst (step (800%N, HudClick PlaceToggleButton) placedOnce).

(** Squared distance between two points. *)
Definition dist2 (a b : Vector3) : Q :=
  ((vx a - vx b) * (vx a - vx b) + (vy a - vy b) * (vy a - vy b)
   + (vz a - vz b) * (vz a - vz b))%Q.

(** ** [types.ts]: the scene settings *)

Record SceneSettings := mkSettings {
  ambientIntensity : Q;
  directionalIntensity : Q;
  scale : Q;
  rotationSpeed : Q;
  autoRotate : bool
}.

(** ** [Models.tsx] (part_000) *)

Module Models.

(** [url.replace(/^\/+/, '')]: the slashes at the start are removed. *)
Fixpoint stripLeadingSlashes (url : string) : string :=
  match url with
  | String "/" rest => stripLeadingSlashes rest
  | _ => url
  end.

(** [url.startsWith('http') || url.startsWith('blob:') || url.startsWith('data:')] *)
Definition isAbsolute (url : string) : bool :=
  String.prefix "http" url || String.prefix "blob:" url
  || String.prefix "data:" url.

(** [resolvedUrl] of [LoadedModel] (lines 12-15); [BASE_URL] is
    [import.meta.env.BASE_URL]. *)
Definition resolvedUrl (BASE_URL url : string) : string :=
  if isAbsolute url then url
  else BASE_URL +:+ stripLeadingSlashes url.

(** The frame callback of [LoadedModel] and of [PlaceholderModel] (lines
    20-24 and 45-49); [ref] is [rotation.y] of the object the ref points
    to, if it is mounted. *)
Definition rotateFrame (settings : SceneSettings) (delta : Q) (ref : option Q)
    : option Q :=
  match ref with
  | Some y => if autoRotate settings
              then Some (y + delta * rotationSpeed settings)%Q
              else Some y
  | None => None
  end.

(** The [actions] object of [useAnimations]: its keys in order, each with
    its action or null.  [actions[name]]: the value of the first entry with
    that key. *)
Fixpoint action {A : Type} (actions : list (string * option A)) (name : string)
    : option A :=
  match actions with
  | [] => None
  | (key, a) :: rest => if String.eqb key name then a else action rest name
  end.

(** The effect of [PlaceholderModel] (lines 38-43): the name it picks and
    the action on which it calls [reset().fadeIn(0.5).play()], if any. *)
Definition startAnimation {A : Type} (actions : list (string * option A))
    : option (string * A) :=
  let actionName :=
    match action actions "Survey" with
    | Some _ => Some "Survey"
    | None => fst <$> head actions
    end in
  match actionName with
  | Some name =>
      if String.eqb name "" then None
      else match action actions name with
           | Some a => Some (name, a)
           | None => None
           end
  | None => None
  end.

(** The frames of a stretch of time, one after the other. *)
Definition rotateFrames (settings : SceneSettings) (deltas : list Q)
    (ref : option Q) : option Q :=
  foldl (λ r delta, rotateFrame settings delta r) ref deltas.

(** What [ModelViewer] gives to [useGLTF] (ModelViewer.tsx line 183,
    Models.tsx lines 7, 17 and 33): the resolved URL of [LoadedModel] when
    [url] is set, [DUCK_URL] of [PlaceholderModel] otherwise. *)
Definition gltfUrl (BASE_URL : string) (url : option string) : string :=
  match url with
  | Some u => if String.eqb u "" then BASE_URL +:+ "assets/Duck.glb"
              else resolvedUrl BASE_URL u
  | None => BASE_URL +:+ "assets/Duck.glb"
  end.

End Models.

(** ** [Controls.tsx] *)

Module Controls.

(** The three calls of [updateSetting] (lines 118, 134, 143). *)
Inductive Update :=
| SetScale (value : Q)
| SetDirectionalIntensity (value : Q)
| ToggleAutoRotate.

(** [updateSetting(key, value)]: [{ ...settings, [key]: value }] (lines
    30-32), as given to [onSettingsChange]. *)
Definition updateSetting (u : Update) (settings : SceneSettings) : SceneSettings :=
  match u with
  | SetScale value =>
      mkSettings (ambientIntensity settings) (directionalIntensity settings)
        value (rotationSpeed settings) (autoRotate settings)
  | SetDirectionalIntensity value =>
      mkSettings (ambientIntensity settings) value (scale settings)
        (rotationSpeed settings) (autoRotate settings)
  | ToggleAutoRotate =>
      mkSettings (ambientIntensity settings) (directionalIntensity settings)
        (scale settings) (rotationSpeed settings) (negb (autoRotate settings))
  end.

(** [handleFileChange] (lines 24-28): the file given to [onFileUpload], if
    any; [files] is [e.target.files]. *)
Definition handleFileChange {File : Type} (files : option (list File)) : option File :=
  match files with
  | Some (file :: _) => Some file
  | _ => None
  end.

End Controls.

(** ** [App] (part_002) *)

Module App.

Definition File := nat.

Record State := mkState {
  modelUrl : option string;
  isAR : bool;
  arSupported : bool;
  debugLog : list string;
  settings : SceneSettings
}.

(** What [App] asks of the browser. *)
Inductive Request :=
| Alert (msg : string)
| EnterAR (mode : XRMode) (requiredFeatures : list string) (overlayIsBody : bool)
| CreateObjectURL (file : File)
| RevokeObjectURL (url : string).

Inductive Event :=
| SupportChecked (xr : option (option bool))   (* no [navigator.xr]; rejected; resolved *)
| StoreChanged (session : option Session)      (* the store subscription *)
| EnterPressed (overlayRoot : bool)            (* [handleEnterAR] up to its [await] *)
| EnterFailed (message : string)               (* the [catch] of [handleEnterAR] *)
| FileChanged (files : option (list File)) (url : string)
                  (* [url]: what [URL.createObjectURL] returns *)
| SettingChanged (u : Controls.Update).

Definition set_debugLog (f : list string → list string) (st : State) : State :=
  mkState (modelUrl st) (isAR st) (arSupported st) (f (debugLog st)) (settings st).

Definition set_settings (f : SceneSettings → SceneSettings) (st : State) : State :=
  mkState (modelUrl st) (isAR st) (arSupported st) (debugLog st) (f (settings st)).

(** The state of the first render (lines 15-26). *)
Definition initial : State :=
  {| modelUrl := None; isAR := false; arSupported := false; debugLog := [];
     settings := mkSettings (4 # 5) (3 # 2) (1 # 2) (1 # 2) true |}.

(** The support check on mount (lines 34-46). *)
Definition checkSupport (xr : option (option bool)) (st : State) : State :=
  mkState (modelUrl st) (isAR st)
    (match xr with Some (Some supported) => supported | _ => false end)
    (debugLog st) (settings st).

(** [handleEnterAR] up to [await store.enterAR(...)] (lines 58-82). *)
Definition handleEnterAR (overlayRoot : bool) (st : State) : State * list Request :=
  if negb (arSupported st) then
    (st, [Alert "AR not supported on this device."])
  else
    let st1 := set_debugLog (addLog "Initializing AR...") st in
    let st2 := set_settings
      (λ prev, mkSettings (ambientIntensity prev) (directionalIntensity prev)
                 (1 # 2) (rotationSpeed prev) false) st1 in
    (st2, [EnterAR ImmersiveAR ["hit-test"; "dom-overlay"] (negb overlayRoot)]).

(** The [catch] block of [handleEnterAR] (lines 84-88). *)
Definition enterFailed (message : string) (st : State) : State * list Request :=
  (set_debugLog (addLog ("Start Error: " +:+ message)) st,
   [Alert "Could not start AR session. See logs."]).

(** [handleFileUpload] (lines 91-97). *)
Definition handleFileUpload (file : File) (url : string) (st : State)
    : State * list Request :=
  (mkState (Some url) (isAR st) (arSupported st) (debugLog st) (settings st),
   match modelUrl st with
   | Some old => if String.eqb old "" then [] else [RevokeObjectURL old]
   | None => []
   end ++ [CreateObjectURL file]).

(** One event: its callback runs on the state that the event before it
    left, rendered. *)
Definition step (e : Event) (st : State) : State * list Request :=
  match e with
  | SupportChecked xr => (checkSupport xr st, [])
  | StoreChanged session =>
      (mkState (modelUrl st) (bool_decide (is_Some session)) (arSupported st)
         (debugLog st) (settings st), [])
  | EnterPressed overlayRoot => handleEnterAR overlayRoot st
  | EnterFailed message => enterFailed message st
  | FileChanged files url =>
      match Controls.handleFileChange files with
      | Some file => handleFileUpload file url st
      | None => (st, [])
      end
  | SettingChanged u => (set_settings (Controls.updateSetting u) st, [])
  end.

Fixpoint run (es : list Event) (st : State) : State * list Request :=
  match es with
  | [] => (st, [])
  | e :: rest =>
      let '(st1, out) := step e st in
      let '(st2, out') := run rest st1 in
      (st2, out ++ out')
  end.

(** The URLs given to [URL.revokeObjectURL]. *)
Definition revoked (out : list Request) : list string :=
  omap (λ r, match r with RevokeObjectURL url => Some url | _ => None end) out.

(** The URLs that the uploads of a list of events received. *)
Definition uploaded (es : list Event) : list string :=
  omap (λ e, match e with
             | FileChanged (Some (_ :: _)) url => Some url
             | _ => None
             end) es.

Definition is_supported (e : Event) : bool :=
  match e with SupportChecked (Some (Some true)) => true | _ => false end.

Definition is_enterAR (r : Request) : bool :=
  match r with EnterAR _ _ _ => true | _ => false end.

Definition is_toggle (e : Event) : bool :=
  match e with SettingChanged Controls.ToggleAutoRotate => true | _ => false end.

End App.

(** ** Vocabulary of the properties of the models and of [App] *)

(** [n] slashes. *)
Fixpoint slashes (n : nat) : string :=
  match n with
  | O => ""
  | S n' => String "/" (slashes n')
  end.

(** The time that a list of frames takes. *)
Definition elapsed (deltas : list Q) : Q :=
  foldr Qplus 0%Q deltas.

(** A state variable that holds a URL, as a list. *)
Definition held (url : option string) : list string :=
  match url with
  | Some u => [u]
  | None => []
  end.

(** * Properties *)

Example newGroup_empty :
  fst (newGroup (mkHeap ∅ ∅)) = {| position := 0; rotation := 0 |}.
Proof. vm_compute. reflexivity. Qed.

(** ** Running the application *)

Lemma run_app (a b : list (Time * Event)) (s : System) :
  run (a ++ b) s =
  let '(s1, o1) := run a s in
  let '(s2, o2) := run b s1 in (s2, o1 ++ o2).
Proof.
  revert s. induction a as [|te a IH]; intros s; simpl.
  - by destruct (run b s).
  - destruct (step te s) as [s1 o1]. rewrite IH.
    destruct (run a s1) as [s2 o2], (run b s2) as [s3 o3].
    by rewrite (assoc_L (++)).
Qed.

Lemma run_invariant (P : System → Prop) :
  (∀ te s, P s → P (fst (step te s))) →
  ∀ tes s, P s → P (fst (run tes s)).
Proof.
  intros Hstep tes. induction tes as [|te tes IH]; intros s Hs; simpl; [done|].
  specialize (Hstep te s Hs). destruct (step te s) as [s1 o1].
  specialize (IH s1 Hstep). by destruct (run tes s1).
Qed.

Lemma reachable_initial : reachable initial.
Proof. by exists []. Qed.

Lemma reachable_step (te : Time * Event) (s : System) :
  reachable s → reachable (fst (step te s)).
Proof.
  intros [tes <-]. exists (tes ++ [te]). rewrite run_app.
  destruct (run tes initial) as [s1 o1]. simpl.
  by destruct (step te s1).
Qed.

Lemma reachable_run (tes : list (Time * Event)) (s : System) :
  reachable s → reachable (fst (run tes s)).
Proof. apply run_invariant. intros te s'. apply reachable_step. Qed.

Lemma reachable_ind (P : System → Prop) :
  P initial →
  (∀ te s, P s → P (fst (step te s))) →
  ∀ s, reachable s → P s.
Proof. intros H0 Hstep s [tes <-]. by apply run_invariant. Qed.

(** ** The log sink *)

Lemma addLog_take (msg : string) (l : list string) :
  addLog msg (take 5 l) = take 5 (msg :: l).
Proof. unfold addLog. simpl. f_equal. by rewrite take_take. Qed.

Lemma foldl_addLog (msgs l : list string) :
  foldl (λ l m, addLog m l) (take 5 l) msgs = take 5 (reverse msgs ++ l).
Proof.
  revert l. induction msgs as [|m msgs IH]; intros l; simpl; [done|].
  rewrite addLog_take, IH, reverse_cons. by rewrite <- (assoc_L (++)).
Qed.

(** C10. After any sequence of [addLog] calls, starting from the empty
    history, the history is the five most recent messages, newest first (all
    of them while fewer than five were logged). *)
Theorem addLog_keeps_last_five (msgs : list string) :
  foldl (λ l m, addLog m l) [] msgs = take 5 (reverse msgs).
Proof.
  change (@nil string) with (take 5 (@nil string)).
  rewrite foldl_addLog. by rewrite (right_id_L [] (++)).
Qed.

Example addLog_six :
  foldl (λ l m, addLog m l) [] ["a"; "b"; "c"; "d"; "e"; "f"]
  = ["f"; "e"; "d"; "c"; "b"].
Proof. reflexivity. Qed.

(** Over a run of the controller the history takes the messages that the
    controller logged. *)
Lemma debugLog_run (tes : list (Time * Event)) (s : System) :
  debugLog (fst (run tes s))
  = foldl (λ l m, addLog m l) (debugLog s) (logs (snd (run tes s))).
Proof.
  revert s. induction tes as [|te tes IH]; intros s; simpl; [done|].
  destruct (step te s) as [s1 o1] eqn:E1.
  specialize (IH s1). destruct (run tes s1) as [s2 o2]. simpl in *.
  rewrite IH. unfold logs. rewrite omap_app, foldl_app. f_equal.
  unfold step in E1. destruct (step_viewer _ _ _) as [v o].
  by inversion E1.
Qed.

(** ** What the commit phase touches *)

Lemma same_ui_refl (v : Viewer) : same_ui v v.
Proof. by repeat split. Qed.

Lemma same_ui_trans (v1 v2 v3 : Viewer) :
  same_ui v1 v2 → same_ui v2 v3 → same_ui v1 v3.
Proof. unfold same_ui. intros ? ?. destruct_and!. repeat split; congruence. Qed.

Lemma resetEffect_same_ui (before v : Viewer) : same_ui v (resetEffect before v).
Proof.
  unfold resetEffect. case_bool_decide; [apply same_ui_refl|].
  destruct (isPresenting v); by repeat split.
Qed.

Lemma hitTestEffect_same_ui (before : Viewer) (b : bool) (v : Viewer) :
  same_ui v (fst (hitTestEffect before b v)).
Proof.
  unfold hitTestEffect.
  destruct (_ && _ && _); [apply same_ui_refl|].
  destruct (effectRun v); simpl;
    (destruct (session v) eqn:Hs; simpl; [|by repeat split]);
    unfold isPresenting; simpl;
    destruct (mode v) as [[| |]|]; simpl; by repeat split.
Qed.

Lemma hitTestEffect_surface (before : Viewer) (b : bool) (v : Viewer) :
  let v' := fst (hitTestEffect before b v) in
  isSurfaceDetected v' = isSurfaceDetected v
  ∧ hasLoggedHit v' = hasLoggedHit v.
Proof.
  unfold hitTestEffect.
  destruct (_ && _ && _); [done|].
  destruct (effectRun v); simpl;
    (destruct (session v) eqn:Hs; simpl; [|done]);
    unfold isPresenting; simpl;
    by destruct (mode v) as [[| |]|].
Qed.

Lemma hitTestEffect_logs (before : Viewer) (b : bool) (v : Viewer) :
  logs (snd (hitTestEffect before b v)) = [].
Proof.
  unfold hitTestEffect.
  destruct (_ && _ && _); [done|].
  destruct (effectRun v) as [run|]; simpl;
    [destruct (effectSource v) as [src|]; simpl|];
    (destruct (session v) eqn:Hs; simpl; [|done]);
    unfold isPresenting; simpl;
    by destruct (mode v) as [[| |]|].
Qed.

Lemma mountRefs_fields (v : Viewer) :
  let v' := mountRefs v in
  mode v' = mode v ∧ session v' = session v ∧ models v' = models v
  ∧ isPlacementMode v' = isPlacementMode v
  ∧ isUiBlocked v' = isUiBlocked v ∧ timers v' = timers v
  ∧ isSurfaceDetected v' = isSurfaceDetected v
  ∧ hasLoggedHit v' = hasLoggedHit v
  ∧ hitTestSource v' = hitTestSource v.
Proof.
  destruct v as [m s ms pm sd lh rr pr hs ub ts er es fl nr h].
  unfold mountRefs, newGroup, allocVector, allocEuler, isPresenting; simpl.
  destruct m as [[| |]|], rr, pm, pr; simpl; by repeat split.
Qed.

Lemma mountRefs_previewRef_eq (v : Viewer) :
  previewRef (mountRefs v)
  = if isPresenting v && isPlacementMode v
    then Some (default (fst (newGroup (heap v))) (previewRef v))
    else None.
Proof.
  destruct v as [m s ms pm sd lh rr pr hs ub ts er es fl nr h].
  unfold mountRefs, isPresenting; simpl.
  destruct m as [[| |]|], rr, pm, pr; reflexivity.
Qed.

Lemma mountRefs_previewRef (v : Viewer) :
  is_Some (previewRef (mountRefs v))
  ↔ isPresenting v && isPlacementMode v = true.
Proof.
  rewrite mountRefs_previewRef_eq.
  destruct (isPresenting v && isPlacementMode v).
  - split; [done|]. intros _. by eexists.
  - split; [intros [? ?]|]; done.
Qed.

Lemma commit_fields (before : Viewer) (b : bool) (v : Viewer) :
  let v' := fst (commit before b v) in
  mode v' = mode v ∧ session v' = session v ∧ models v' = models v
  ∧ isPlacementMode v' = isPlacementMode v
  ∧ isUiBlocked v' = isUiBlocked v ∧ timers v' = timers v
  ∧ previewRef v' = previewRef (mountRefs v)
  ∧ heap v' = heap (mountRefs v).
Proof.
  unfold commit.
  pose proof (hitTestEffect_same_ui before b (resetEffect before (mountRefs v))) as H1.
  pose proof (resetEffect_same_ui before (mountRefs v)) as H2.
  pose proof (mountRefs_fields v) as H3.
  unfold same_ui in *. simpl in *. destruct_and!.
  repeat split; congruence.
Qed.

Lemma commit_logs (before : Viewer) (b : bool) (v : Viewer) :
  logs (snd (commit before b v)) = [].
Proof. apply hitTestEffect_logs. Qed.

Lemma step_viewer_preview_mounted (now : Time) (e : Event) (v : Viewer) :
  preview_mounted (fst (step_viewer now e v)).
Proof.
  unfold step_viewer.
  destruct (handle now e (runTimers now v)) as [v1 out].
  pose proof (commit_fields (runTimers now v) (onLogChanges e out) v1) as H.
  destruct (commit _ _ v1) as [v2 out']. simpl in *.
  destruct H as (Hm & _ & _ & Hpm & _ & _ & Hpr & _).
  unfold preview_mounted, isPresenting.
  rewrite Hm, Hpm, Hpr. apply mountRefs_previewRef.
Qed.

Lemma reachable_preview_mounted (s : System) :
  reachable s → preview_mounted (viewer s).
Proof.
  revert s. apply reachable_ind.
  - unfold preview_mounted. simpl. rewrite is_Some_alt. naive_solver.
  - intros [now e] s _. unfold step. simpl.
    pose proof (step_viewer_preview_mounted now e (viewer s)) as H.
    by destruct (step_viewer now e (viewer s)).
Qed.

(** ** What each callback leaves alone *)

Lemma useFrame_fields (t : Tick) (v : Viewer) :
  let v' := fst (useFrame t v) in
  mode v' = mode v ∧ session v' = session v ∧ models v' = models v
  ∧ isPlacementMode v' = isPlacementMode v
  ∧ isUiBlocked v' = isUiBlocked v ∧ timers v' = timers v
  ∧ previewRef v' = previewRef v ∧ hitTestSource v' = hitTestSource v.
Proof.
  destruct v as [m s ms pm sd lh rr pr hs ub ts er es fl nr h].
  unfold useFrame, isPresenting; simpl.
  destruct m as [[| |]|]; simpl; try done.
  destruct (frame t) as [f|]; simpl; [|done].
  destruct rr as [r|]; unfold hideReticle; simpl;
    (destruct pm; simpl; [|done]);
    (match goal with |- context [poll ?x t f] => destruct (poll x t f) end);
    simpl; destruct sd, lh, pr; simpl; done.
Qed.

Lemma placeModel_fields (now : Time) (random36 : string) (v : Viewer) :
  let v' := fst (placeModel now random36 v) in
  mode v' = mode v ∧ session v' = session v
  ∧ isPlacementMode v' = isPlacementMode v
  ∧ isSurfaceDetected v' = isSurfaceDetected v
  ∧ hasLoggedHit v' = hasLoggedHit v
  ∧ isUiBlocked v' = isUiBlocked v ∧ timers v' = timers v
  ∧ previewRef v' = previewRef v ∧ hitTestSource v' = hitTestSource v.
Proof.
  destruct v as [m s ms pm sd lh rr pr hs ub ts er es fl nr h].
  unfold placeModel, isPresenting; simpl.
  destruct m as [[| |]|], pm, ub, sd, pr; simpl; done.
Qed.

Lemma initSettled_fields (run : nat) (r : InitResult) (v : Viewer) :
  let v' := fst (initSettled run r v) in
  mode v' = mode v ∧ session v' = session v ∧ models v' = models v
  ∧ isPlacementMode v' = isPlacementMode v
  ∧ isSurfaceDetected v' = isSurfaceDetected v
  ∧ hasLoggedHit v' = hasLoggedHit v
  ∧ isUiBlocked v' = isUiBlocked v ∧ timers v' = timers v
  ∧ previewRef v' = previewRef v ∧ heap v' = heap v.
Proof.
  unfold initSettled. case_bool_decide; [|done]. by destruct r.
Qed.

Lemma runTimers_fields (now : Time) (v : Viewer) :
  let v' := runTimers now v in
  mode v' = mode v ∧ session v' = session v ∧ models v' = models v
  ∧ isPlacementMode v' = isPlacementMode v
  ∧ isSurfaceDetected v' = isSurfaceDetected v
  ∧ hasLoggedHit v' = hasLoggedHit v
  ∧ previewRef v' = previewRef v ∧ hitTestSource v' = hitTestSource v
  ∧ heap v' = heap v.
Proof. unfold runTimers. by case_decide. Qed.

(** ** Placement *)

Lemma readVector_alloc (v : Vector3) (h : Heap) :
  readVector (snd (allocVector v h)) (fst (allocVector v h)) = v.
Proof. unfold readVector, allocVector. simpl. apply lookup_total_insert_eq. Qed.

Lemma readEuler_alloc (o : Orientation) (h : Heap) :
  readEuler (snd (allocEuler o h)) (fst (allocEuler o h)) = o.
Proof. unfold readEuler, allocEuler. simpl. apply lookup_total_insert_eq. Qed.

(** The state of a placement that goes through: the registry with one more
    entry whose position and rotation are new objects holding the values of
    the preview's. *)
Lemma placeModel_places (now : Time) (random36 : string) (v : Viewer) (o : Object3D) :
  isPresenting v = true → isPlacementMode v = true → isUiBlocked v = false →
  isSurfaceDetected v = true → previewRef v = Some o →
  ∃ m v',
    placeModel now random36 v = (v', [Log "Model placed"])
    ∧ models v' = models v ++ [m]
    ∧ model_id m = modelId now random36
    ∧ model_position m = fresh (dom (vectors (heap v)))
    ∧ model_rotation m = fresh (dom (eulers (heap v)))
    ∧ heap v' = {| vectors := <[model_position m := readVector (heap v) (position o)]>
                                (vectors (heap v));
                   eulers := <[model_rotation m := readEuler (heap v) (rotation o)]>
                                (eulers (heap v)) |}
    ∧ previewRef v' = previewRef v.
Proof.
  intros Hp Hm Hb Hd Ho. unfold placeModel. rewrite Hp, Hm, Hb, Hd, Ho. simpl.
  eexists (mkPlaced _ _ _), _.
  split; [reflexivity|]. simpl. by repeat split.
Qed.

Lemma runTimers_preview_mounted (now : Time) (v : Viewer) :
  preview_mounted v → preview_mounted (runTimers now v).
Proof.
  pose proof (runTimers_fields now v) as (Hm & _ & _ & Hpm & _ & _ & Hpr & _).
  simpl in *. unfold preview_mounted, isPresenting. by rewrite Hm, Hpm, Hpr.
Qed.

(** C1. [placeModel] called for a tap at time [now] on a state of the
    running application (the timers due at [now] have run): unless the
    session is presented in AR, placement mode is on and the gate is open,
    nothing changes and nothing is logged.  Otherwise, with a surface
    detected, the registry gains exactly one entry, placed last, holding the
    preview's current position and rotation, and "Model placed" is logged;
    with no surface detected the state is unchanged and "Find a surface
    first" is logged. *)
Theorem placeModel_spec (s : System) (now : Time) (random36 : string) :
  reachable s →
  let v := runTimers now (viewer s) in
  let v' := fst (placeModel now random36 v) in
  let out := snd (placeModel now random36 v) in
  if isPresenting v && isPlacementMode v && negb (isUiBlocked v) then
    if isSurfaceDetected v then
      ∃ o m, previewRef v = Some o
        ∧ models v' = models v ++ [m]
        ∧ readVector (heap v') (model_position m)
          = readVector (heap v) (position o)
        ∧ readEuler (heap v') (model_rotation m)
          = readEuler (heap v) (rotation o)
        ∧ out = [Log "Model placed"]
    else v' = v ∧ out = [Log "Find a surface first"]
  else v' = v ∧ out = [].
Proof.
  intros Hr v.
  pose proof (runTimers_preview_mounted now _
                (reachable_preview_mounted s Hr)) as Hpm.
  fold v in Hpm. unfold preview_mounted in Hpm.
  destruct (isPresenting v) eqn:Hp; simpl;
    [|unfold placeModel; by rewrite Hp].
  destruct (isPlacementMode v) eqn:Hm; simpl;
    [|unfold placeModel; by rewrite Hp, Hm].
  destruct (isUiBlocked v) eqn:Hb; simpl;
    [unfold placeModel; by rewrite Hp, Hm, Hb|].
  destruct (isSurfaceDetected v) eqn:Hd.
  - destruct Hpm as [_ [o Ho]]; [done|].
    destruct (placeModel_places now random36 v o Hp Hm Hb Hd Ho)
      as (m & v' & -> & Hms & _ & Hmp & Hmr & Hh & _).
    exists o, m. simpl. rewrite Hh. unfold readVector, readEuler. simpl.
    by rewrite !lookup_total_insert_eq.
  - unfold placeModel. by rewrite Hp, Hm, Hb, Hd.
Qed.

Lemma placeModel_spec_witness :
  let v := runTimers 700 (viewer readyToPlace) in
  let v' := fst (placeModel 700 "0.4fzyo82mvyr" v) in
  let out := snd (placeModel 700 "0.4fzyo82mvyr" v) in
  if isPresenting v && isPlacementMode v && negb (isUiBlocked v) then
    if isSurfaceDetected v then
      ∃ o m, previewRef v = Some o
        ∧ models v' = models v ++ [m]
        ∧ readVector (heap v') (model_position m)
          = readVector (heap v) (position o)
        ∧ readEuler (heap v') (model_rotation m)
          = readEuler (heap v) (rotation o)
        ∧ out = [Log "Model placed"]
    else v' = v ∧ out = [Log "Find a surface first"]
  else v' = v ∧ out = [].
Proof.
  refine (placeModel_spec readyToPlace 700 "0.4fzyo82mvyr" _).
  unfold readyToPlace, sessionWithSurface.
  apply reachable_run, reachable_run, reachable_initial.
Defined.

Example placeModel_ready :
  let v := runTimers 700 (viewer readyToPlace) in
  (isPresenting v, isPlacementMode v, isUiBlocked v, isSurfaceDetected v)
  = (true, true, false, true)
  ∧ snd (placeModel 700 "0.4fzyo82mvyr" v) = [Log "Model placed"]
  ∧ model_id <$> models (fst (placeModel 700 "0.4fzyo82mvyr" v))
    = ["model-700-4fzyo82mv"].
Proof. vm_compute. by repeat split. Qed.

Lemma viewer_step (te : Time * Event) (s : System) :
  viewer (fst (step te s)) = fst (step_viewer (fst te) (snd te) (viewer s)).
Proof. unfold step. by destruct (step_viewer _ _ _). Qed.

Lemma snd_step (te : Time * Event) (s : System) :
  snd (step te s) = snd (step_viewer (fst te) (snd te) (viewer s)).
Proof. unfold step. by destruct (step_viewer _ _ _). Qed.

Lemma step_viewer_eq (now : Time) (e : Event) (v : Viewer) :
  step_viewer now e v =
  (fst (commit (runTimers now v)
          (onLogChanges e (snd (handle now e (runTimers now v))))
          (fst (handle now e (runTimers now v)))),
   snd (handle now e (runTimers now v))
   ++ snd (commit (runTimers now v)
             (onLogChanges e (snd (handle now e (runTimers now v))))
             (fst (handle now e (runTimers now v))))).
Proof.
  unfold step_viewer. destruct (handle _ _ _) as [v1 out]. simpl.
  by destruct (commit _ _ _).
Qed.

(** ** The interaction gate *)

Lemma runTimers_idle (now : Time) (v : Viewer) :
  timers v = [] → runTimers now v = v.
Proof.
  intros H. unfold runTimers. rewrite H.
  case_decide as HE; [|done]. by apply Exists_nil in HE.
Qed.

Lemma runTimers_gate_at (t lo now : Time) (v : Viewer) :
  gate_at t lo v → (lo ≤ now)%N → gate_at t now (runTimers now v).
Proof.
  unfold gate_at. intros H Hle. case_bool_decide as Hlo.
  - destruct H as [Hb Ht]. unfold runTimers. rewrite Ht.
    case_decide as HE.
    + apply Exists_cons in HE as [HE|HE]; [|by apply Exists_nil in HE].
      rewrite bool_decide_eq_false_2 by lia. simpl.
      rewrite filter_cons_False by lia. done.
    + rewrite bool_decide_eq_true_2; [done|].
      destruct (decide (now < t + 500)%N); [done|].
      exfalso. apply HE. left. lia.
  - destruct H as [Hb Ht]. rewrite runTimers_idle by done.
    by rewrite bool_decide_eq_false_2 by lia.
Qed.

Lemma handle_gate (now : Time) (e : Event) (v : Viewer) :
  is_block e = false →
  isUiBlocked (fst (handle now e v)) = isUiBlocked v
  ∧ timers (fst (handle now e v)) = timers v.
Proof.
  intros He. destruct e as [m s| |run r|t|r| |]; try discriminate He; simpl.
  - done.
  - done.
  - pose proof (initSettled_fields run r v) as H. simpl in H.
    destruct_and!. by split.
  - pose proof (useFrame_fields t v) as H. simpl in H.
    destruct_and!. by split.
  - destruct (session v); [|done].
    pose proof (placeModel_fields now r v) as H. simpl in H.
    destruct_and!. by split.
Qed.

Lemma step_viewer_gate (now : Time) (e : Event) (v : Viewer) :
  is_block e = false →
  isUiBlocked (fst (step_viewer now e v)) = isUiBlocked (runTimers now v)
  ∧ timers (fst (step_viewer now e v)) = timers (runTimers now v).
Proof.
  intros He. rewrite step_viewer_eq. simpl.
  pose proof (commit_fields (runTimers now v)
    (onLogChanges e (snd (handle now e (runTimers now v))))
    (fst (handle now e (runTimers now v)))) as H.
  pose proof (handle_gate now e (runTimers now v) He) as H'.
  simpl in H. destruct_and!. split; congruence.
Qed.

Lemma step_viewer_block (now : Time) (e : Event) (v : Viewer) :
  is_block e = true → isPresenting v = true →
  isUiBlocked (fst (step_viewer now e v)) = true
  ∧ timers (fst (step_viewer now e v))
    = timers (runTimers now v) ++ [(now + 500)%N].
Proof.
  intros He Hp. rewrite step_viewer_eq. simpl.
  pose proof (commit_fields (runTimers now v)
    (onLogChanges e (snd (handle now e (runTimers now v))))
    (fst (handle now e (runTimers now v)))) as H.
  simpl in H. destruct H as (_ & _ & _ & _ & -> & -> & _).
  assert (isPresenting (runTimers now v) = true) as Hp'.
  { pose proof (runTimers_fields now v) as Hf. simpl in Hf.
    unfold isPresenting in *. destruct Hf as [-> _]. done. }
  destruct e as [| | | | |b|b]; simpl in *; try done; rewrite Hp'.
  - done.
  - unfold handleInteraction. by destruct b.
Qed.

Lemma run_gate_at (t lo hi : Time) (tes : list (Time * Event)) (s : System) :
  gate_at t lo (viewer s) →
  Forall (λ te, is_block (snd te) = false) tes →
  chronological lo tes hi = true →
  gate_at t hi (runTimers hi (viewer (fst (run tes s)))).
Proof.
  revert lo s. induction tes as [|[now e] tes IH]; intros lo s Hg Hnb Hc; simpl in *.
  - apply bool_decide_eq_true in Hc. by apply (runTimers_gate_at t lo).
  - apply andb_true_iff in Hc as [Hlo Hc]. apply bool_decide_eq_true in Hlo.
    apply Forall_cons in Hnb as [Hnb1 Hnb]. simpl in *.
    pose proof (viewer_step (now, e) s) as Hv.
    destruct (step (now, e) s) as [s1 o1]. simpl in *.
    specialize (IH now s1). destruct (run tes s1) as [s2 o2]. simpl in *.
    apply IH; [|done|done].
    rewrite Hv. pose proof (step_viewer_gate now e (viewer s) Hnb1) as [Hb Ht].
    pose proof (runTimers_gate_at t lo now (viewer s) Hg Hlo) as Hg'.
    unfold gate_at in *. rewrite Hb, Ht. done.
Qed.

Lemma placeModel_blocked (now : Time) (random36 : string) (v : Viewer) :
  isUiBlocked v = true → placeModel now random36 v = (v, []).
Proof.
  intros Hb. unfold placeModel. rewrite Hb.
  by destruct (isPresenting v), (isPlacementMode v).
Qed.

(** C2. One block at time [t] (a HUD press or click while no earlier block
    is pending), followed by any events that are not HUD presses: the gate
    check made at time [t'] finds the gate closed exactly when [t' < t + 500];
    and a tap at such a [t'] changes nothing in the registry and logs
    nothing. *)
Theorem gate_single_block (s : System) (t t' : Time) (blk : Event)
    (tes : list (Time * Event)) (random36 : string) :
  is_block blk = true →
  isPresenting (viewer s) = true →
  timers (viewer s) = [] →
  Forall (λ te, is_block (snd te) = false) tes →
  chronological t tes t' = true →
  let s1 := fst (run ((t, blk) :: tes) s) in
  isUiBlocked (runTimers t' (viewer s1)) = bool_decide (t' < t + 500)%N
  ∧ ((t' < t + 500)%N →
     models (viewer (fst (step (t', Select random36) s1))) = models (viewer s1)
     ∧ logs (snd (step (t', Select random36) s1)) = []).
Proof.
  intros Hblk Hp Ht Hnb Hc s1.
  assert (gate_at t t' (runTimers t' (viewer s1))) as Hg.
  { subst s1. simpl.
    pose proof (viewer_step (t, blk) s) as Hv.
    destruct (step (t, blk) s) as [s0 o0]. simpl in Hv.
    pose proof (run_gate_at t t t' tes s0) as Hrun.
    destruct (run tes s0) as [s2 o2]. simpl in *. apply Hrun; [|done|done].
    rewrite Hv. destruct (step_viewer_block t blk (viewer s) Hblk Hp) as [Hb Hts].
    rewrite runTimers_idle in Hts by done. rewrite Ht in Hts.
    unfold gate_at. by rewrite bool_decide_eq_true_2 by lia. }
  unfold gate_at in Hg. split.
  - case_bool_decide; by destruct Hg.
  - intros Hlt. rewrite bool_decide_eq_true_2 in Hg by done.
    destruct Hg as [Hb _].
    rewrite viewer_step, snd_step, step_viewer_eq. cbn [fst snd].
    assert (handle t' (Select random36) (runTimers t' (viewer s1))
            = (runTimers t' (viewer s1), [])) as ->.
    { simpl. destruct (session _); [|done]. by apply placeModel_blocked. }
    simpl. rewrite commit_logs.
    pose proof (commit_fields (runTimers t' (viewer s1)) false
                  (runTimers t' (viewer s1))) as H.
    pose proof (runTimers_fields t' (viewer s1)) as H'.
    simpl in H, H'. destruct_and!. split; [congruence|done].
Qed.

Lemma gate_single_block_witness :
  let s1 := fst (run ((1000%N, HudClick ClearSceneButton) :: clearTap)
                   sessionWithSurface) in
  isUiBlocked (runTimers 1400%N (viewer s1)) = bool_decide (1400 < 1000 + 500)%N
  ∧ ((1400 < 1000 + 500)%N →
     models (viewer (fst (step (1400%N, Select "0.4fzyo82mvyr") s1)))
     = models (viewer s1)
     ∧ logs (snd (step (1400%N, Select "0.4fzyo82mvyr") s1)) = []).
Proof.
  refine (gate_single_block sessionWithSurface 1000%N 1400%N
            (HudClick ClearSceneButton) clearTap "0.4fzyo82mvyr" _ _ _ _ _).
  - reflexivity.
  - vm_compute. reflexivity.
  - vm_compute. reflexivity.
  - repeat constructor.
  - vm_compute. reflexivity.
Defined.

(** Two blocks whose windows overlap: the callback scheduled by the first
    one still runs at [t1 + 500] and opens the gate, although the second
    block asked for [t2 + 500]. *)
Lemma stale_timer_reopens (v : Viewer) (t1 t2 t' : Time) :
  timers v = [] → (t1 ≤ t2 < t1 + 500)%N → (t1 + 500 ≤ t')%N →
  isUiBlocked
    (runTimers t' (setUiBlocked t2 true
       (runTimers t2 (setUiBlocked t1 true (runTimers t1 v))))) = false.
Proof.
  intros Ht [H12 H21] Ht'. rewrite (runTimers_idle t1) by done.
  assert (runTimers t2 (setUiBlocked t1 true v) = setUiBlocked t1 true v) as ->.
  { unfold runTimers. simpl. rewrite Ht. simpl. case_decide as HE; [|done].
    apply Exists_cons in HE as [HE|HE]; [lia|by apply Exists_nil in HE]. }
  unfold runTimers. simpl. rewrite Ht. simpl.
  case_decide as HE; [done|]. exfalso. apply HE. left. lia.
Qed.

(** C3, as the code runs it.  A HUD button is pressed at 1000 ms and its click
    arrives at 1100 ms, so the last block is at 1100 ms.  At 1550 ms, before
    1100 + 500, the gate is open again and a tap places a model: the
    callback of the press at 1000 ms ran at 1500 ms. *)
Theorem second_block_does_not_extend :
  let s := fst (run pressThenClick sessionWithSurface) in
  (1550 < 1100 + 500)%N
  ∧ isUiBlocked (runTimers 1550%N (viewer s)) = false
  ∧ models (viewer s) = []
  ∧ logs (snd (step (1550%N, Select "0.4fzyo82mvyr") s)) = ["Model placed"]
  ∧ length (models (viewer (fst (step (1550%N, Select "0.4fzyo82mvyr") s)))) = 1.
Proof. vm_compute. by repeat split. Qed.

(** ** Surface tracking *)

Lemma poll_hitTestSource (v v' : Viewer) (t : Tick) (f : XRFrame) :
  hitTestSource v' = hitTestSource v → poll v' t f = poll v t f.
Proof. unfold poll. by intros ->. Qed.

Lemma hideReticle_fields (v : Viewer) :
  let v' := hideReticle v in
  mode v' = mode v ∧ isPlacementMode v' = isPlacementMode v
  ∧ isSurfaceDetected v' = isSurfaceDetected v
  ∧ hasLoggedHit v' = hasLoggedHit v
  ∧ hitTestSource v' = hitTestSource v.
Proof. unfold hideReticle. by destruct (reticleRef v). Qed.

(** The frame callback while AR and placement mode are on. *)
Lemma useFrame_tracking (t : Tick) (f : XRFrame) (v : Viewer) :
  isPresenting v = true → isPlacementMode v = true → frame t = Some f →
  isSurfaceDetected (fst (useFrame t v)) = bool_decide (is_Some (poll v t f))
  ∧ hasLoggedHit (fst (useFrame t v))
    = hasLoggedHit v || bool_decide (is_Some (poll v t f))
  ∧ logs (snd (useFrame t v))
    = if bool_decide (is_Some (poll v t f)) && negb (hasLoggedHit v)
      then ["Surface detected!"] else [].
Proof.
  intros Hp Hm Hf. unfold useFrame. rewrite Hp, Hf. simpl.
  pose proof (hideReticle_fields v) as (_ & Hm' & Hd' & Hl' & Hh'). simpl in *.
  rewrite Hm', Hm. simpl.
  rewrite (poll_hitTestSource v (hideReticle v) t f Hh').
  rewrite Hd', Hl'.
  destruct (poll v t f) as [pose|]; simpl.
  - destruct (isSurfaceDetected v) eqn:Hd, (hasLoggedHit v) eqn:Hl; simpl;
      destruct (reticleRef _), (previewRef _); simpl;
      rewrite ?Hd', ?Hl'; done.
  - rewrite orb_false_r.
    destruct (isSurfaceDetected v) eqn:Hd; simpl;
      destruct (previewRef _); simpl; rewrite ?Hd', ?Hl'; done.
Qed.

Lemma useFrame_idle (t : Tick) (v : Viewer) :
  isPresenting v && isPlacementMode v
    && bool_decide (is_Some (frame t)) = false →
  isSurfaceDetected (fst (useFrame t v)) = isSurfaceDetected v
  ∧ hasLoggedHit (fst (useFrame t v)) = hasLoggedHit v
  ∧ snd (useFrame t v) = [].
Proof.
  intros H. unfold useFrame.
  destruct (isPresenting v); simpl in *; [|done].
  destruct (frame t) as [f|]; simpl in *; [|done].
  pose proof (hideReticle_fields v) as (_ & Hm' & Hd' & Hl' & _). simpl in *.
  rewrite Hm'. destruct (isPlacementMode v); simpl in *.
  - done.
  - done.
Qed.

Lemma commit_surface (before : Viewer) (b : bool) (v : Viewer) :
  isPresenting before = isPresenting v →
  isSurfaceDetected (fst (commit before b v)) = isSurfaceDetected v
  ∧ hasLoggedHit (fst (commit before b v)) = hasLoggedHit v.
Proof.
  intros Hp. unfold commit.
  pose proof (hitTestEffect_surface before b (resetEffect before (mountRefs v)))
    as [-> ->]. simpl.
  pose proof (mountRefs_fields v) as (Hm & _ & _ & _ & _ & _ & Hd & Hl & _).
  simpl in *. unfold resetEffect.
  rewrite bool_decide_eq_true_2; [done|].
  unfold isPresenting in *. by rewrite Hm.
Qed.

Lemma step_viewer_frame (now : Time) (t : Tick) (v : Viewer) :
  let v' := fst (step_viewer now (Frame t) v) in
  mode v' = mode v ∧ isPlacementMode v' = isPlacementMode v.
Proof.
  rewrite step_viewer_eq. cbn [fst snd handle].
  pose proof (commit_fields (runTimers now v)
    (onLogChanges (Frame t) (snd (useFrame t (runTimers now v))))
    (fst (useFrame t (runTimers now v)))) as H.
  pose proof (useFrame_fields t (runTimers now v)) as H1.
  pose proof (runTimers_fields now v) as H2.
  simpl in *. destruct_and!. split; congruence.
Qed.

Lemma run_frames_mode (ticks : list (Time * Tick)) (s : System) :
  let v' := viewer (fst (run (frames ticks) s)) in
  mode v' = mode (viewer s) ∧ isPlacementMode v' = isPlacementMode (viewer s).
Proof.
  revert s. induction ticks as [|[now t] ticks IH]; intros s; simpl; [done|].
  pose proof (viewer_step (now, Frame t) s) as Hv.
  destruct (step (now, Frame t) s) as [s1 o1]. simpl in *.
  specialize (IH s1). destruct (run (frames ticks) s1) as [s2 o2]. simpl in *.
  pose proof (step_viewer_frame now t (viewer s)) as H. simpl in H.
  rewrite <- Hv in H. destruct_and!. split; congruence.
Qed.

(** C5. Frame ticks in AR with placement mode on, each with its XR frame:
    after every tick the surface-detected flag is true exactly when the
    poll of that tick returned a pose. *)
Theorem detected_iff_polled (s : System) (ticks : list (Time * Tick))
    (now : Time) (t : Tick) (f : XRFrame) :
  isPresenting (viewer s) = true →
  isPlacementMode (viewer s) = true →
  frame t = Some f →
  let s1 := fst (run (frames ticks) s) in
  let s2 := fst (step (now, Frame t) s1) in
  isSurfaceDetected (viewer s2) = true ↔ is_Some (poll (viewer s1) t f).
Proof.
  intros Hp Hm Hf s1 s2.
  pose proof (run_frames_mode ticks s) as [Hmode Hpm]. simpl in *.
  fold s1 in Hmode, Hpm.
  assert (isPresenting (viewer s1) = true) as Hp1
    by (unfold isPresenting in *; by rewrite Hmode).
  assert (isPlacementMode (viewer s1) = true) as Hm1 by congruence.
  subst s2. rewrite viewer_step, step_viewer_eq. cbn [fst snd handle].
  pose proof (runTimers_fields now (viewer s1))
    as (Hrm & _ & _ & Hrp & _ & _ & _ & Hrh & _). simpl in *.
  assert (isPresenting (runTimers now (viewer s1)) = true) as Hp2
    by (unfold isPresenting in *; by rewrite Hrm).
  assert (isPlacementMode (runTimers now (viewer s1)) = true) as Hm2 by congruence.
  pose proof (useFrame_tracking t f _ Hp2 Hm2 Hf) as (Hd & _ & _).
  pose proof (useFrame_fields t (runTimers now (viewer s1))) as (Hum & _).
  simpl in Hum.
  assert (isPresenting (runTimers now (viewer s1))
          = isPresenting (fst (useFrame t (runTimers now (viewer s1))))) as Hpe
    by (unfold isPresenting; by rewrite Hum).
  rewrite (proj1 (commit_surface _ _ _ Hpe)).
  rewrite Hd, (poll_hitTestSource (viewer s1) _ t f Hrh).
  apply bool_decide_eq_true.
Qed.

Lemma detected_iff_polled_witness :
  let s1 := fst (run (frames lostThenFound) trackingSession) in
  let s2 := fst (step (58%N, Frame (tickHit (hitAt 0 0 1))) s1) in
  isSurfaceDetected (viewer s2) = true
  ↔ is_Some (poll (viewer s1) (tickHit (hitAt 0 0 1))
               (mkXRFrame (λ _, [Some (hitAt 0 0 1)]))).
Proof.
  refine (detected_iff_polled trackingSession lostThenFound 58%N
            (tickHit (hitAt 0 0 1)) (mkXRFrame (λ _, [Some (hitAt 0 0 1)]))
            _ _ _).
  - vm_compute. reflexivity.
  - vm_compute. reflexivity.
  - reflexivity.
Defined.

(** *** The one-shot "Surface detected!" message *)

Lemma surfaceDetectedCount_app (a b : list Action) :
  surfaceDetectedCount (a ++ b) = surfaceDetectedCount a + surfaceDetectedCount b.
Proof.
  unfold surfaceDetectedCount, logs.
  by rewrite omap_app, filter_app, length_app.
Qed.

Lemma surfaceDetectedCount_no_logs (out : list Action) :
  logs out = [] → surfaceDetectedCount out = 0.
Proof. unfold surfaceDetectedCount. by intros ->. Qed.

Lemma handle_mode (now : Time) (e : Event) (v : Viewer) :
  is_xr_change e = false → mode (fst (handle now e v)) = mode v.
Proof.
  intros He. destruct e as [| |run r|t|r|b|b]; try discriminate He; simpl.
  - done.
  - by pose proof (initSettled_fields run r v) as [-> _].
  - by pose proof (useFrame_fields t v) as [-> _].
  - destruct (session v); [|done].
    by pose proof (placeModel_fields now r v) as [-> _].
  - by destruct (isPresenting v).
  - destruct (isPresenting v); [|done]. by destruct b.
Qed.

(** Callbacks other than the frame callback neither log the message nor
    touch the one-shot flag. *)
Lemma handle_no_detection (now : Time) (e : Event) (v : Viewer) :
  is_xr_change e = false → (∀ t, e ≠ Frame t) →
  hasLoggedHit (fst (handle now e v)) = hasLoggedHit v
  ∧ surfaceDetectedCount (snd (handle now e v)) = 0.
Proof.
  intros He Hf. destruct e as [| |run r|t|r|b|b]; try discriminate He; simpl.
  - done.
  - pose proof (initSettled_fields run r v) as H. simpl in H.
    destruct_and!. split; [done|].
    unfold initSettled. case_bool_decide; [|done]. by destruct r.
  - by destruct (Hf t).
  - destruct (session v); [|done].
    pose proof (placeModel_fields now r v) as H. simpl in H.
    destruct_and!. split; [done|].
    unfold placeModel.
    by destruct (isPresenting v), (isPlacementMode v), (isUiBlocked v),
      (isSurfaceDetected v), (previewRef v).
  - by destruct (isPresenting v).
  - destruct (isPresenting v); [|done].
    destruct b; simpl; [done|]. by destruct (isPlacementMode v).
Qed.

Lemma pollsPose_runTimers (now : Time) (v : Viewer) (e : Event) :
  pollsPose (runTimers now v) e = pollsPose v e.
Proof.
  pose proof (runTimers_fields now v) as (Hm & _ & _ & Hp & _ & _ & _ & Hh & _).
  simpl in *. destruct e; simpl; try done.
  unfold isPresenting. rewrite Hm, Hp.
  destruct (frame t) as [f|]; [|done].
  by rewrite (poll_hitTestSource v _ t f Hh).
Qed.

Lemma handle_detect (now : Time) (e : Event) (v : Viewer) :
  is_xr_change e = false →
  hasLoggedHit (fst (handle now e v)) = hasLoggedHit v || pollsPose v e
  ∧ surfaceDetectedCount (snd (handle now e v))
    = if pollsPose v e && negb (hasLoggedHit v) then 1 else 0.
Proof.
  intros He.
  assert ((∃ t, e = Frame t) ∨ ¬ (∃ t, e = Frame t)) as [[t ->]|Hn].
  { destruct e as [| | |t| | |]; [right|right|right|left|right|right|right];
      try (by intros [? ?]). by exists t. }
  - simpl.
    destruct (isPresenting v && isPlacementMode v
              && bool_decide (is_Some (frame t))) eqn:Hc.
    + apply andb_true_iff in Hc as [Hc Hf].
      apply andb_true_iff in Hc as [Hp Hm].
      apply bool_decide_eq_true in Hf as [f Hf].
      destruct (useFrame_tracking t f v Hp Hm Hf) as (_ & Hl & Ho).
      rewrite Hp, Hm, Hf. simpl. rewrite Hl. split; [done|].
      unfold surfaceDetectedCount. rewrite Ho.
      by destruct (bool_decide _), (hasLoggedHit v).
    + destruct (useFrame_idle t v Hc) as (_ & -> & ->).
      assert (isPresenting v && isPlacementMode v
              && match frame t with
                 | Some f => bool_decide (is_Some (poll v t f))
                 | None => false
                 end = false) as ->.
      { destruct (isPresenting v), (isPlacementMode v), (frame t); done. }
      by rewrite orb_false_r.
  - assert (pollsPose v e = false) as ->.
    { destruct e; try done. destruct Hn. by eexists. }
    rewrite orb_false_r. simpl.
    apply handle_no_detection; [done|]. intros t ->. apply Hn. by eexists.
Qed.

Lemma step_viewer_detect (now : Time) (e : Event) (v : Viewer) :
  is_xr_change e = false →
  hasLoggedHit (fst (step_viewer now e v)) = hasLoggedHit v || pollsPose v e
  ∧ surfaceDetectedCount (snd (step_viewer now e v))
    = if pollsPose v e && negb (hasLoggedHit v) then 1 else 0.
Proof.
  intros He. rewrite step_viewer_eq. cbn [fst snd].
  rewrite surfaceDetectedCount_app.
  rewrite (surfaceDetectedCount_no_logs (snd (commit _ _ _)))
    by apply commit_logs.
  pose proof (handle_mode now e (runTimers now v) He) as Hm.
  assert (isPresenting (runTimers now v)
          = isPresenting (fst (handle now e (runTimers now v)))) as Hp
    by (unfold isPresenting; by rewrite Hm).
  rewrite (proj2 (commit_surface _ _ _ Hp)).
  destruct (handle_detect now e (runTimers now v) He) as [-> ->].
  rewrite pollsPose_runTimers.
  pose proof (runTimers_fields now v) as (_ & _ & _ & _ & _ & -> & _).
  split; [done|lia].
Qed.

Lemma detections_after_first (tes : list (Time * Event)) (s : System) :
  Forall (λ te, is_xr_change (snd te) = false) tes →
  hasLoggedHit (viewer s) = true →
  map snd (detections tes s) = map (λ _, 0) (map fst (detections tes s)).
Proof.
  revert s. induction tes as [|[now e] tes IH]; intros s Hx Hl; simpl; [done|].
  apply Forall_cons in Hx as [He Hx]. simpl in He.
  destruct (step_viewer_detect now e (viewer s) He) as [Hl' Hc].
  rewrite snd_step. simpl. rewrite Hc, Hl, andb_false_r. f_equal.
  apply IH; [done|]. rewrite viewer_step. simpl. by rewrite Hl', Hl.
Qed.

Lemma detections_first_only (tes : list (Time * Event)) (s : System) :
  Forall (λ te, is_xr_change (snd te) = false) tes →
  hasLoggedHit (viewer s) = false →
  map snd (detections tes s) = first_only (map fst (detections tes s)).
Proof.
  revert s. induction tes as [|[now e] tes IH]; intros s Hx Hl; simpl; [done|].
  apply Forall_cons in Hx as [He Hx]. simpl in He.
  destruct (step_viewer_detect now e (viewer s) He) as [Hl' Hc].
  rewrite snd_step. simpl. rewrite Hc, Hl, andb_true_r.
  rewrite Hl in Hl'. simpl in Hl'.
  destruct (pollsPose (viewer s) e); f_equal.
  - apply detections_after_first; [done|]. by rewrite viewer_step.
  - apply IH; [done|]. by rewrite viewer_step.
Qed.

(** C4. An AR session starts (the viewer was not presenting, the XR store
    switches to immersive AR), and any events follow that do not change the
    XR store.  Event by event, "Surface detected!" is logged once by the
    first frame tick whose poll returns a pose, and by no other event. *)
Theorem surface_detected_logged_once (s0 : System) (t0 : Time)
    (sess : option Session) (tes : list (Time * Event)) :
  isPresenting (viewer s0) = false →
  Forall (λ te, is_xr_change (snd te) = false) tes →
  let s := fst (step (t0, XRStore (Some ImmersiveAR) sess) s0) in
  map snd (detections tes s) = first_only (map fst (detections tes s)).
Proof.
  intros Hp Hx s. apply detections_first_only; [done|].
  subst s. rewrite viewer_step, step_viewer_eq. cbn [fst snd handle].
  unfold commit.
  pose proof (hitTestEffect_surface (runTimers t0 (viewer s0))
    (onLogChanges (XRStore (Some ImmersiveAR) sess) [])
    (resetEffect (runTimers t0 (viewer s0))
       (mountRefs (set_xr (Some ImmersiveAR) sess (runTimers t0 (viewer s0))))))
    as [_ ->].
  unfold resetEffect.
  pose proof (mountRefs_fields
    (set_xr (Some ImmersiveAR) sess (runTimers t0 (viewer s0)))) as [Hm _].
  pose proof (runTimers_fields t0 (viewer s0)) as [Hm0 _]. simpl in Hm, Hm0.
  assert (isPresenting (runTimers t0 (viewer s0)) = false) as ->
    by (unfold isPresenting in *; by rewrite Hm0).
  assert (isPresenting (mountRefs
    (set_xr (Some ImmersiveAR) sess (runTimers t0 (viewer s0)))) = true) as ->
    by (unfold isPresenting; by rewrite Hm).
  done.
Qed.

Example oneSession_detections :
  detections oneSession
    (fst (step (0%N, XRStore (Some ImmersiveAR) (Some 7)) initial))
  = [(false, 0); (true, 1); (false, 0); (false, 0); (true, 0); (false, 0)].
Proof. vm_compute. reflexivity. Qed.

Lemma surface_detected_logged_once_witness :
  let s := fst (step (0%N, XRStore (Some ImmersiveAR) (Some 7)) initial) in
  map snd (detections oneSession s)
  = first_only (map fst (detections oneSession s)).
Proof.
  refine (surface_detected_logged_once initial 0%N (Some 7) oneSession _ _).
  - reflexivity.
  - repeat constructor.
Defined.

(** ** Registry entries are copies *)

Lemma kept_refl (v : Viewer) : kept v v.
Proof. by intros lp lr H. Qed.

Lemma kept_trans (v1 v2 v3 : Viewer) : kept v1 v2 → kept v2 v3 → kept v1 v3.
Proof.
  intros H12 H23 lp lr H1.
  destruct (H12 lp lr H1) as (H2 & Hv2 & He2).
  destruct (H23 lp lr H2) as (H3 & Hv3 & He3).
  split; [exact H3|]. split; congruence.
Qed.

Lemma kept_same (v v' : Viewer) :
  heap v' = heap v → previewRef v' = previewRef v → kept v v'.
Proof. intros Hh Hp lp lr H. unfold apart in *. by rewrite Hh, Hp. Qed.

Lemma kept_unmount (v v' : Viewer) :
  heap v' = heap v → previewRef v' = None → kept v v'.
Proof.
  intros Hh Hp lp lr (H1 & H2 & _). unfold apart. rewrite Hh, Hp.
  by repeat split.
Qed.

Lemma kept_write_preview (v v' : Viewer) (o : Object3D) (p : Vector3) (q : Orientation) :
  previewRef v = Some o → previewRef v' = Some o →
  heap v' = writeEuler (rotation o) q (writeVector (position o) p (heap v)) →
  kept v v'.
Proof.
  intros Ho Ho' Hh lp lr (H1 & H2 & H3).
  destruct (H3 o Ho) as [Hp Hr].
  unfold apart, readVector, readEuler. rewrite Hh, Ho'. simpl.
  rewrite !dom_insert_L, lookup_total_insert_ne, lookup_total_insert_ne by done.
  split; [|done].
  split; [apply elem_of_union; by right|].
  split; [apply elem_of_union; by right|].
  intros o' [= <-]. by split.
Qed.

Lemma kept_alloc (v v' : Viewer) (x : Vector3) (y : Orientation) :
  previewRef v' = previewRef v →
  heap v' = snd (allocEuler y (snd (allocVector x (heap v)))) →
  kept v v'.
Proof.
  intros Ho Hh lp lr (H1 & H2 & H3).
  unfold apart, readVector, readEuler. rewrite Hh, Ho. simpl.
  rewrite !dom_insert_L.
  rewrite lookup_total_insert_ne
    by (intros <-; by apply (is_fresh (dom (vectors (heap v))))).
  rewrite lookup_total_insert_ne
    by (intros <-; by apply (is_fresh (dom (eulers (heap v))))).
  split; [|done].
  split; [apply elem_of_union; by right|].
  split; [apply elem_of_union; by right|exact H3].
Qed.

Lemma kept_mount (v v' : Viewer) :
  previewRef v' = Some (fst (newGroup (heap v))) →
  heap v' = snd (newGroup (heap v)) →
  kept v v'.
Proof.
  intros Ho Hh lp lr (H1 & H2 & H3).
  unfold apart, readVector, readEuler. rewrite Hh, Ho. simpl.
  rewrite !dom_insert_L.
  assert (fresh (dom (vectors (heap v))) ≠ lp) as Hp
    by (intros <-; by apply (is_fresh (dom (vectors (heap v))))).
  assert (fresh (dom (eulers (heap v))) ≠ lr) as Hr
    by (intros <-; by apply (is_fresh (dom (eulers (heap v))))).
  rewrite !lookup_total_insert_ne by done.
  split; [|done].
  split; [apply elem_of_union; by right|].
  split; [apply elem_of_union; by right|].
  intros o' [= <-]. by split.
Qed.

Lemma store_change_kept (v v' : Viewer) : store_change v v' → kept v v'.
Proof.
  intros [Hh Hp|Hh Hp|o p q Ho Ho' Hh|x y Hp Hh|Hp Hh].
  - by apply kept_same.
  - by apply kept_unmount.
  - by apply (kept_write_preview v v' o p q).
  - by apply (kept_alloc v v' x y).
  - by apply kept_mount.
Qed.

Lemma store_change_preview_ok (v v' : Viewer) :
  store_change v v' → preview_ok v → preview_ok v'.
Proof.
  unfold preview_ok.
  intros [Hh Hp|Hh Hp|o p q Ho Ho' Hh|x y Hp Hh|Hp Hh] Hok o' Ho''.
  - rewrite Hh. apply Hok. by rewrite <- Hp.
  - by rewrite Hp in Ho''.
  - rewrite Ho' in Ho''. injection Ho'' as <-. rewrite Hh. simpl.
    rewrite !dom_insert_L. split; apply elem_of_union; left; by apply elem_of_singleton.
  - rewrite Hp in Ho''. destruct (Hok o' Ho'') as [H1 H2]. rewrite Hh. simpl.
    rewrite !dom_insert_L. split; apply elem_of_union; by right.
  - rewrite Hp in Ho''. injection Ho'' as <-. rewrite Hh. simpl.
    rewrite !dom_insert_L. split; apply elem_of_union; left; by apply elem_of_singleton.
Qed.

Lemma useFrame_store (t : Tick) (v : Viewer) : store_change v (fst (useFrame t v)).
Proof.
  destruct v as [m s ms pm sd lh rr pr hs ub ts er es fl nr h].
  unfold useFrame, isPresenting; simpl.
  destruct m as [[| |]|]; simpl; try (by apply sc_same).
  destruct (frame t) as [f|]; simpl; [|by apply sc_same].
  destruct rr as [r|]; unfold hideReticle; simpl;
    (destruct pm; simpl; [|by apply sc_same]);
    (match goal with |- context [poll ?x t f] => destruct (poll x t f) end);
    simpl; destruct sd, lh, pr; simpl;
    first [by apply sc_same | by eapply sc_write].
Qed.

Lemma placeModel_store (now : Time) (random36 : string) (v : Viewer) :
  store_change v (fst (placeModel now random36 v)).
Proof.
  destruct v as [m s ms pm sd lh rr pr hs ub ts er es fl nr h].
  unfold placeModel, isPresenting; simpl.
  destruct m as [[| |]|], pm, ub, sd, pr; simpl;
    first [by apply sc_same | by eapply sc_alloc].
Qed.

Lemma mountRefs_store (v : Viewer) : store_change v (mountRefs v).
Proof.
  destruct v as [m s ms pm sd lh rr pr hs ub ts er es fl nr h].
  unfold mountRefs, isPresenting; simpl.
  destruct m as [[| |]|], rr, pm, pr; simpl;
    first [by apply sc_same | by apply sc_unmount | by apply sc_mount].
Qed.

Lemma handle_store (now : Time) (e : Event) (v : Viewer) :
  store_change v (fst (handle now e v)).
Proof.
  destruct e as [m s| |run r|t|r|b|b]; simpl.
  - by apply sc_same.
  - by apply sc_same.
  - pose proof (initSettled_fields run r v) as H. simpl in H.
    destruct_and!. by apply sc_same.
  - apply useFrame_store.
  - destruct (session v); [apply placeModel_store|by apply sc_same].
  - destruct (isPresenting v); by apply sc_same.
  - destruct (isPresenting v); [|by apply sc_same].
    destruct b; by apply sc_same.
Qed.

(** One step of the application is a few such changes in a row. *)
Lemma step_viewer_store (now : Time) (e : Event) (v : Viewer) :
  rtc store_change v (fst (step_viewer now e v)).
Proof.
  rewrite step_viewer_eq. cbn [fst]. unfold commit.
  set (v0 := runTimers now v). set (v1 := fst (handle now e v0)).
  set (b := onLogChanges e (snd (handle now e v0))).
  apply (rtc_l _ _ v0).
  { pose proof (runTimers_fields now v) as H. simpl in H. fold v0 in H.
    destruct_and!. by apply sc_same. }
  apply (rtc_l _ _ v1); [apply handle_store|].
  apply (rtc_l _ _ (mountRefs v1)); [apply mountRefs_store|].
  apply (rtc_l _ _ (resetEffect v0 (mountRefs v1))).
  { pose proof (resetEffect_same_ui v0 (mountRefs v1)) as H.
    unfold same_ui in H. destruct_and!. by apply sc_same. }
  apply rtc_once.
  pose proof (hitTestEffect_same_ui v0 b (resetEffect v0 (mountRefs v1))) as H.
  unfold same_ui in H. destruct_and!. by apply sc_same.
Qed.

Lemma run_store (tes : list (Time * Event)) (s : System) :
  rtc store_change (viewer s) (viewer (fst (run tes s))).
Proof.
  revert s. induction tes as [|te tes IH]; intros s; simpl; [done|].
  pose proof (viewer_step te s) as Hv.
  destruct (step te s) as [s1 o1]. simpl in Hv.
  specialize (IH s1). destruct (run tes s1) as [s2 o2]. simpl in *.
  etrans; [|exact IH]. rewrite Hv. apply step_viewer_store.
Qed.

Lemma rtc_store_kept (v v' : Viewer) : rtc store_change v v' → kept v v'.
Proof.
  induction 1 as [|v1 v2 v3 H12 _ IH]; [apply kept_refl|].
  eapply kept_trans; [by apply store_change_kept|done].
Qed.

Lemma rtc_store_preview_ok (v v' : Viewer) :
  rtc store_change v v' → preview_ok v → preview_ok v'.
Proof.
  induction 1 as [|v1 v2 v3 H12 _ IH]; [done|].
  intros H. by apply IH, (store_change_preview_ok v1).
Qed.

Lemma reachable_preview_ok (s : System) : reachable s → preview_ok (viewer s).
Proof.
  intros [tes <-]. apply (rtc_store_preview_ok (viewer initial)).
  - apply run_store.
  - by intros o.
Qed.

Lemma placeModel_cases (now : Time) (random36 : string) (v : Viewer) :
  fst (placeModel now random36 v) = v
  ∨ ∃ o, isPresenting v = true ∧ isPlacementMode v = true
      ∧ isUiBlocked v = false ∧ isSurfaceDetected v = true
      ∧ previewRef v = Some o.
Proof.
  unfold placeModel.
  destruct (isPresenting v), (isPlacementMode v), (isUiBlocked v),
    (isSurfaceDetected v), (previewRef v) as [o|];
    first [by left | right; exists o; by repeat split].
Qed.

(** The entry made by a placement: its cells are new, apart from the
    preview's, and hold the preview's position and rotation. *)
Lemma placeModel_entry (now : Time) (random36 : string) (v : Viewer)
    (o : Object3D) (m : PlacedModel) :
  preview_ok v → previewRef v = Some o →
  isPresenting v = true → isPlacementMode v = true →
  isUiBlocked v = false → isSurfaceDetected v = true →
  models (fst (placeModel now random36 v)) = models v ++ [m] →
  apart (model_position m) (model_rotation m) (fst (placeModel now random36 v))
  ∧ readVector (heap (fst (placeModel now random36 v))) (model_position m)
    = readVector (heap v) (position o)
  ∧ readEuler (heap (fst (placeModel now random36 v))) (model_rotation m)
    = readEuler (heap v) (rotation o)
  ∧ model_id m = modelId now random36.
Proof.
  intros Hok Ho Hp Hm Hb Hd Hms.
  destruct (placeModel_places now random36 v o Hp Hm Hb Hd Ho)
    as (m' & v' & E & Hms' & Hid & Hmp & Hmr & Hh & Hpr).
  rewrite E in *. simpl in *. rewrite Hms' in Hms.
  apply app_inj_tail in Hms as [_ <-].
  destruct (Hok o Ho) as [Hop Hor].
  unfold apart, readVector, readEuler. rewrite Hh, Hpr. simpl.
  rewrite !dom_insert_L, !lookup_total_insert_eq.
  split; [|done].
  split; [apply elem_of_union; left; by apply elem_of_singleton|].
  split; [apply elem_of_union; left; by apply elem_of_singleton|].
  intros o' Ho'. rewrite Ho in Ho'. injection Ho' as <-.
  rewrite Hmp, Hmr. split; intros E'; rewrite E' in *.
  - by apply (is_fresh (dom (vectors (heap v)))).
  - by apply (is_fresh (dom (eulers (heap v)))).
Qed.

Lemma registry_apart_kept (v v' : Viewer) :
  kept v v' → models v' = models v → registry_apart v → registry_apart v'.
Proof.
  intros Hk Hms Hr m Hm. rewrite Hms in Hm. by apply Hk, Hr.
Qed.

Lemma handle_models (now : Time) (e : Event) (v : Viewer) :
  models (fst (handle now e v)) = models v
  ∨ models (fst (handle now e v)) = []
  ∨ ∃ random36 m, handle now e v = placeModel now random36 v
      ∧ models (fst (placeModel now random36 v)) = models v ++ [m].
Proof.
  destruct e as [m s| |run r|t|r|b|b]; simpl.
  - by left.
  - by left.
  - pose proof (initSettled_fields run r v) as H. simpl in H.
    destruct_and!. by left.
  - pose proof (useFrame_fields t v) as H. simpl in H.
    destruct_and!. by left.
  - destruct (session v); [|by left].
    destruct (placeModel_cases now r v) as [->|(o & Hp & Hm & Hb & Hd & Ho)];
      [by left|].
    destruct (placeModel_places now r v o Hp Hm Hb Hd Ho)
      as (m' & v' & E & Hms' & _).
    right; right. exists r, m'. by rewrite E.
  - destruct (isPresenting v); by left.
  - destruct (isPresenting v); [|by left].
    destruct b; simpl; [right|]; by left.
Qed.

Lemma handle_registry (now : Time) (e : Event) (v : Viewer) :
  preview_ok v → registry_apart v → registry_apart (fst (handle now e v)).
Proof.
  intros Hok Hr.
  pose proof (store_change_kept _ _ (handle_store now e v)) as Hk.
  destruct (handle_models now e v) as [Hms|[Hms|(r & m & E & Hms)]].
  - by apply (registry_apart_kept v).
  - intros m. rewrite Hms. by intros ?%elem_of_nil.
  - rewrite E in *. intros m'. rewrite Hms. intros [Hm'|Hm']%elem_of_app.
    + by apply Hk, Hr.
    + apply list_elem_of_singleton in Hm' as ->.
      destruct (placeModel_cases now r v) as [Hv|(o & Hp & Hm & Hb & Hd & Ho)].
      { rewrite Hv in Hms. apply (f_equal length) in Hms.
        rewrite length_app in Hms. simpl in Hms. lia. }
      by apply (placeModel_entry now r v o m Hok Ho Hp Hm Hb Hd Hms).
Qed.

Lemma commit_store (before : Viewer) (b : bool) (v : Viewer) :
  rtc store_change v (fst (commit before b v)).
Proof.
  unfold commit.
  apply (rtc_l _ _ (mountRefs v)); [apply mountRefs_store|].
  apply (rtc_l _ _ (resetEffect before (mountRefs v))).
  { pose proof (resetEffect_same_ui before (mountRefs v)) as H.
    unfold same_ui in H. destruct_and!. by apply sc_same. }
  apply rtc_once.
  pose proof (hitTestEffect_same_ui before b (resetEffect before (mountRefs v))) as H.
  unfold same_ui in H. destruct_and!. by apply sc_same.
Qed.

Lemma runTimers_store (now : Time) (v : Viewer) : store_change v (runTimers now v).
Proof.
  pose proof (runTimers_fields now v) as H. simpl in H.
  destruct_and!. by apply sc_same.
Qed.

Lemma step_viewer_registry (now : Time) (e : Event) (v : Viewer) :
  preview_ok v → registry_apart v →
  registry_apart (fst (step_viewer now e v)).
Proof.
  intros Hok Hr. rewrite step_viewer_eq. cbn [fst].
  pose proof (runTimers_store now v) as H0.
  pose proof (runTimers_fields now v) as Hf. simpl in Hf.
  apply (registry_apart_kept (fst (handle now e (runTimers now v)))).
  - apply rtc_store_kept, commit_store.
  - by pose proof (commit_fields (runTimers now v)
      (onLogChanges e (snd (handle now e (runTimers now v))))
      (fst (handle now e (runTimers now v)))) as (_ & _ & -> & _).
  - apply handle_registry.
    + by apply (store_change_preview_ok v).
    + apply (registry_apart_kept v); [by apply store_change_kept| |done].
      by destruct Hf as (_ & _ & -> & _).
Qed.

Lemma reachable_registry_apart (s : System) :
  reachable s → registry_apart (viewer s).
Proof.
  intros Hr. cut (preview_ok (viewer s) ∧ registry_apart (viewer s)); [by intros []|].
  revert s Hr. apply reachable_ind.
  - split; [by intros o|]. intros m. simpl. by intros ?%elem_of_nil.
  - intros [now e] s [Hok Hreg]. rewrite viewer_step. split.
    + apply (rtc_store_preview_ok (viewer s)); [apply step_viewer_store|done].
    + by apply step_viewer_registry.
Qed.

(** C6. A tap that places: on a state of the running application with a
    session presented in AR, placement mode on, a surface detected and the
    gate open at the time of the tap, the select event adds one entry at the
    end of the registry.  The entry's position and rotation are objects of
    their own, not the preview's, and hold what the preview held at the
    tap.  And whatever events follow, the position and rotation of every
    entry then in the registry read as they did after the tap: the preview
    moves, the entries do not. *)
Theorem registry_entries_are_copies (s : System) (now : Time) (random36 : string) :
  reachable s →
  is_Some (session (viewer s)) →
  isPresenting (viewer s) = true →
  isPlacementMode (viewer s) = true →
  isSurfaceDetected (viewer s) = true →
  isUiBlocked (runTimers now (viewer s)) = false →
  let s1 := fst (step (now, Select random36) s) in
  ∃ o m,
    previewRef (viewer s) = Some o
    ∧ models (viewer s1) = models (viewer s) ++ [m]
    ∧ last (models (viewer s1)) = Some m
    ∧ model_position m ≠ position o
    ∧ model_rotation m ≠ rotation o
    ∧ readVector (heap (viewer s1)) (model_position m)
      = readVector (heap (viewer s)) (position o)
    ∧ readEuler (heap (viewer s1)) (model_rotation m)
      = readEuler (heap (viewer s)) (rotation o)
    ∧ ∀ tes m', m' ∈ models (viewer s1) →
        let s2 := fst (run tes s1) in
        readVector (heap (viewer s2)) (model_position m')
        = readVector (heap (viewer s1)) (model_position m')
        ∧ readEuler (heap (viewer s2)) (model_rotation m')
          = readEuler (heap (viewer s1)) (model_rotation m').
Proof.
  intros Hr [sess Hsess] Hp Hm Hd Hb s1.
  pose proof (runTimers_fields now (viewer s))
    as (Hmode0 & Hs0 & Hm0 & Hpm0 & Hd0 & _ & Hp0 & _ & Hh0).
  set (v0 := runTimers now (viewer s)) in *. simpl in Hmode0, Hs0, Hm0, Hpm0, Hd0, Hp0, Hh0.
  assert (isPresenting v0 = true) as Hp' by (unfold isPresenting in *; by rewrite Hmode0).
  assert (isPlacementMode v0 = true) as Hm' by congruence.
  assert (isSurfaceDetected v0 = true) as Hd' by congruence.
  assert (preview_ok v0) as Hok.
  { apply (store_change_preview_ok (viewer s)); [apply runTimers_store|].
    by apply reachable_preview_ok. }
  destruct (reachable_preview_mounted s Hr) as [_ [o Ho]]; [by rewrite Hp, Hm|].
  assert (previewRef v0 = Some o) as Ho' by congruence.
  destruct (placeModel_places now random36 v0 o Hp' Hm' Hb Hd' Ho')
    as (m & v' & E & Hms & _ & Hmp & Hmr & _).
  assert (handle now (Select random36) v0 = (v', [Log "Model placed"])) as Hh.
  { simpl. by rewrite Hs0, Hsess. }
  assert (models (viewer s1) = models (viewer s) ++ [m]) as Hms1.
  { unfold s1. rewrite viewer_step, step_viewer_eq. cbn [fst snd]. fold v0.
    rewrite Hh. cbn [fst snd].
    pose proof (commit_fields v0
      (onLogChanges (Select random36) [Log "Model placed"]) v') as (_ & _ & -> & _).
    by rewrite Hms, Hm0. }
  assert (models (fst (placeModel now random36 v0)) = models v0 ++ [m]) as Hms0
    by by rewrite E.
  destruct (placeModel_entry now random36 v0 o m Hok Ho' Hp' Hm' Hb Hd' Hms0)
    as (Ha & Hv & He & _).
  pose proof (rtc_store_kept _ _ (commit_store v0
    (onLogChanges (Select random36) [Log "Model placed"]) v')) as Hk.
  rewrite E in Ha, Hv, He. cbn [fst] in Ha, Hv, He.
  destruct (Hk _ _ Ha) as (_ & Hv' & He').
  destruct (Hok o Ho') as [Hop Hor].
  exists o, m. split; [exact Ho|]. split; [exact Hms1|].
  split; [rewrite Hms1; apply last_snoc|].
  split.
  { rewrite Hmp. intros E'. rewrite <- E' in Hop.
    by apply (is_fresh (dom (vectors (heap v0)))). }
  split.
  { rewrite Hmr. intros E'. rewrite <- E' in Hor.
    by apply (is_fresh (dom (eulers (heap v0)))). }
  assert (viewer s1 = fst (commit v0
    (onLogChanges (Select random36) [Log "Model placed"]) v')) as Hs1.
  { unfold s1. rewrite viewer_step, step_viewer_eq. cbn [fst snd]. fold v0.
    by rewrite Hh. }
  split; [rewrite Hs1, Hv', Hv; congruence|].
  split; [rewrite Hs1, He', He; congruence|].
  intros tes m' Hm'' s2.
  assert (reachable s1) as Hr1 by by apply reachable_step.
  pose proof (reachable_registry_apart s1 Hr1 m' Hm'') as Ha'.
  pose proof (rtc_store_kept _ _ (run_store tes s1)) as Hk'.
  by destruct (Hk' _ _ Ha') as (_ & ? & ?).
Qed.

Example tap_then_move :
  let s1 := fst (step (700%N, Select "0.4fzyo82mvyr") readyToPlace) in
  let s2 := fst (run afterTap s1) in
  (readVector (heap (viewer s1)) <$> (position <$> previewRef (viewer s1)),
   readVector (heap (viewer s2)) <$> (position <$> previewRef (viewer s2)),
   readVector (heap (viewer s1)) ∘ model_position <$> models (viewer s1),
   readVector (heap (viewer s2)) ∘ model_position <$> models (viewer s2))
  = (Some (mkVector3 1 2 3), Some (mkVector3 (0 # 32) (0 # 32) (-30 # 32)),
     [mkVector3 1 2 3], [mkVector3 1 2 3]).
Proof. vm_compute. reflexivity. Qed.

Lemma registry_entries_are_copies_witness :
  let s1 := fst (step (700%N, Select "0.4fzyo82mvyr") readyToPlace) in
  ∃ o m,
    previewRef (viewer readyToPlace) = Some o
    ∧ models (viewer s1) = models (viewer readyToPlace) ++ [m]
    ∧ last (models (viewer s1)) = Some m
    ∧ model_position m ≠ position o
    ∧ model_rotation m ≠ rotation o
    ∧ readVector (heap (viewer s1)) (model_position m)
      = readVector (heap (viewer readyToPlace)) (position o)
    ∧ readEuler (heap (viewer s1)) (model_rotation m)
      = readEuler (heap (viewer readyToPlace)) (rotation o)
    ∧ ∀ tes m', m' ∈ models (viewer s1) →
        let s2 := fst (run tes s1) in
        readVector (heap (viewer s2)) (model_position m')
        = readVector (heap (viewer s1)) (model_position m')
        ∧ readEuler (heap (viewer s2)) (model_rotation m')
          = readEuler (heap (viewer s1)) (model_rotation m').
Proof.
  refine (registry_entries_are_copies readyToPlace 700%N "0.4fzyo82mvyr"
            _ _ _ _ _ _).
  - unfold readyToPlace, sessionWithSurface.
    apply reachable_run, reachable_run, reachable_initial.
  - exists 7%nat. vm_compute. reflexivity.
  - vm_compute. reflexivity.
  - vm_compute. reflexivity.
  - vm_compute. reflexivity.
  - vm_compute. reflexivity.
Defined.

(** ** Identifiers of registry entries *)

Lemma string_of_uint_no_dash (d : Decimal.uint) :
  no_dash (NilEmpty.string_of_uint d).
Proof. induction d; simpl; (split; [discriminate|done]) || done. Qed.

Lemma string_of_uint_inj (d d' : Decimal.uint) :
  NilEmpty.string_of_uint d = NilEmpty.string_of_uint d' → d = d'.
Proof.
  intros H. apply (f_equal NilEmpty.uint_of_string) in H.
  rewrite !NilEmpty.usu in H. by injection H.
Qed.

(** Two strings split at their first dash. *)
Lemma split_at_dash (d1 d2 s1 s2 : string) :
  no_dash d1 → no_dash d2 →
  d1 +:+ "-" +:+ s1 = d2 +:+ "-" +:+ s2 → d1 = d2 ∧ s1 = s2.
Proof.
  revert d2. induction d1 as [|c d1 IH]; intros [|c' d2] H1 H2 E; simpl in *.
  - by injection E.
  - injection E as E _. by destruct H2 as [[] _].
  - injection E as E _. by destruct H1 as [[] _].
  - injection E as -> E. destruct H1 as [_ H1], H2 as [_ H2].
    by destruct (IH d2 H1 H2 E) as [-> ->].
Qed.

(** The id determines the timestamp and the nine characters kept from the
    random number, and nothing more. *)
Lemma modelId_inj (t1 t2 : Time) (r1 r2 : string) :
  modelId t1 r1 = modelId t2 r2
  ↔ t1 = t2 ∧ String.substring 2 9 r1 = String.substring 2 9 r2.
Proof.
  split; [|by intros [-> E]; unfold modelId; rewrite E].
  unfold modelId. intros E. simpl in E. injection E as E.
  apply split_at_dash in E as [E1 E2]; try apply string_of_uint_no_dash.
  split; [|done].
  by apply DecimalN.Unsigned.to_uint_inj, string_of_uint_inj.
Qed.

Example modelId_700 : modelId 700 "0.4fzyo82mvyr" = "model-700-4fzyo82mv".
Proof. reflexivity. Qed.

(** The entry that a tap adds carries the id made from the time of the tap
    and its random number. *)
Lemma step_select_id (s : System) (now : Time) (random36 : string) (m : PlacedModel) :
  models (viewer (fst (step (now, Select random36) s))) = models (viewer s) ++ [m] →
  model_id m = modelId now random36.
Proof.
  rewrite viewer_step, step_viewer_eq. cbn [fst snd].
  set (v0 := runTimers now (viewer s)).
  pose proof (runTimers_fields now (viewer s)) as (_ & _ & Hm0 & _).
  simpl in Hm0. fold v0 in Hm0.
  pose proof (commit_fields v0
    (onLogChanges (Select random36) (snd (handle now (Select random36) v0)))
    (fst (handle now (Select random36) v0))) as (_ & _ & -> & _).
  rewrite <- Hm0. simpl. intros Hms.
  assert (fst (placeModel now random36 v0) ≠ v0) as Hne.
  { intros E. destruct (session v0); simpl in Hms; rewrite ?E in Hms;
      apply (f_equal length) in Hms; rewrite length_app in Hms;
      simpl in Hms; lia. }
  destruct (session v0); simpl in Hms.
  - destruct (placeModel_cases now random36 v0)
      as [Hv|(o & Hp & Hm & Hb & Hd & Ho)]; [done|].
    destruct (placeModel_places now random36 v0 o Hp Hm Hb Hd Ho)
      as (m' & v' & E & Hms' & Hid & _).
    rewrite E in Hms. simpl in Hms. rewrite Hms' in Hms.
    by apply app_inj_tail in Hms as [_ <-].
  - apply (f_equal length) in Hms. rewrite length_app in Hms.
    simpl in Hms. lia.
Qed.

(** C7 as stated fails.  A model is placed at 50 ms, the scene is cleared at
    100 ms and the registry is empty; then two taps arrive in the same
    millisecond, 700, with random numbers that agree on the nine characters
    kept: the second entry gets the id of the first. *)
Lemma same_millisecond_same_id :
  let s0 := fst (step (50%N, Select "0.9x3k2l1m0n8") readyToPlace) in
  let s1 := fst (step (100%N, HudClick ClearSceneButton) s0) in
  let s2 := fst (run twoTaps s1) in
  model_id <$> models (viewer s0) = ["model-50-9x3k2l1m0"]
  ∧ models (viewer s1) = []
  ∧ model_id <$> models (viewer s2)
    = ["model-700-4fzyo82mv"; "model-700-4fzyo82mv"].
Proof. vm_compute. by repeat split. Qed.

(** C7, amended.  [clearScene] empties the registry, and the ids of two
    entries added by taps, anywhere in a session, are equal exactly when the
    taps have the same millisecond timestamp and random numbers with the
    same nine characters after "0."; otherwise they differ. *)
Theorem ids_distinct_unless_same_stamp (v : Viewer) (s1 s2 : System)
    (t1 t2 : Time) (r1 r2 : string) (m1 m2 : PlacedModel) :
  models (viewer (fst (step (t1, Select r1) s1))) = models (viewer s1) ++ [m1] →
  models (viewer (fst (step (t2, Select r2) s2))) = models (viewer s2) ++ [m2] →
  models (fst (clearScene v)) = []
  ∧ (model_id m1 = model_id m2
     ↔ t1 = t2 ∧ String.substring 2 9 r1 = String.substring 2 9 r2).
Proof.
  intros H1%step_select_id H2%step_select_id. split; [done|].
  rewrite H1, H2. apply modelId_inj.
Qed.

Lemma ids_distinct_unless_same_stamp_witness :
  models (fst (clearScene (viewer readyToPlace))) = []
  ∧ (model_id (mkPlaced 1 1 "model-700-4fzyo82mv")
     = model_id (mkPlaced 1 1 "model-701-4fzyo82mv")
     ↔ 700%N = 701%N
       ∧ String.substring 2 9 "0.4fzyo82mvyr" = String.substring 2 9 "0.4fzyo82mvyr").
Proof.
  refine (ids_distinct_unless_same_stamp (viewer readyToPlace)
            readyToPlace readyToPlace 700 701 "0.4fzyo82mvyr" "0.4fzyo82mvyr"
            (mkPlaced 1 1 "model-700-4fzyo82mv")
            (mkPlaced 1 1 "model-701-4fzyo82mv") _ _).
  - vm_compute. reflexivity.
  - vm_compute. reflexivity.
Defined.

(** ** The floating preview *)

(** C8 as stated fails.  From the same state (preview at the origin, camera
    fixed, target (0, 0, -1.5)) one tick of 1/8 s and two ticks of 1/16 s
    cover the same time and leave the preview at different places:
    z = -15/16 and z = -405/512. *)
Lemma follow_depends_on_partition :
  (1 # 8 == (1 # 16) + (1 # 16))%Q
  ∧ previewPosition trackingSession = Some (mkVector3 0 0 0)
  ∧ ∃ a b,
      previewPosition (fst (run (frames oneLongTick) trackingSession)) = Some a
      ∧ previewPosition (fst (run (frames twoShortTicks) trackingSession)) = Some b
      ∧ (vz a == -15 # 16)%Q ∧ (vz b == -405 # 512)%Q ∧ ¬ (vz a == vz b)%Q.
Proof.
  split; [reflexivity|]. split; [vm_compute; reflexivity|].
  eexists _, _. split; [vm_compute; reflexivity|].
  split; [vm_compute; reflexivity|]. simpl.
  split; [reflexivity|]. split; [reflexivity|]. discriminate.
Qed.

Lemma lerp_scaled (p target : Vector3) (alpha : Q) :
  scaled (lerp p target alpha) p target (1 - alpha).
Proof. unfold scaled, lerp; simpl. repeat split; ring. Qed.

Lemma scaled_trans (p0 p1 p2 target : Vector3) (k1 k2 : Q) :
  scaled p1 p0 target k1 → scaled p2 p1 target k2 →
  scaled p2 p0 target (k1 * k2).
Proof.
  unfold scaled. intros (Hx & Hy & Hz) (Hx' & Hy' & Hz').
  rewrite Hx', Hy', Hz', Hx, Hy, Hz. repeat split; ring.
Qed.

Lemma mountRefs_mounted (v : Viewer) (o : Object3D) :
  isPresenting v = true → isPlacementMode v = true → previewRef v = Some o →
  previewRef (mountRefs v) = Some o ∧ heap (mountRefs v) = heap v.
Proof.
  destruct v as [m s ms pm sd lh rr pr hs ub ts er es fl nr h].
  unfold mountRefs, isPresenting; simpl. intros Hp -> ->.
  destruct m as [[| |]|]; try discriminate Hp. by destruct rr.
Qed.

Lemma hitTestEffect_idle (before v : Viewer) :
  session before = session v → isPresenting before = isPresenting v →
  hitTestEffect before false v = (v, []).
Proof.
  intros Hs Hp. unfold hitTestEffect.
  by rewrite !bool_decide_eq_true_2 by done.
Qed.

Lemma useFrame_follow (t : Tick) (f : XRFrame) (v : Viewer) (o : Object3D) :
  isPresenting v = true → isPlacementMode v = true → previewRef v = Some o →
  frame t = Some f → poll v t f = None →
  readVector (heap (fst (useFrame t v))) (position o)
  = lerp (readVector (heap v) (position o)) (followTarget (camera t)) (delta t * 5)
  ∧ snd (useFrame t v) = [].
Proof.
  destruct v as [m s ms pm sd lh rr pr hs ub ts er es fl nr h].
  unfold useFrame, isPresenting; simpl. intros Hp -> -> -> Hpoll.
  destruct m as [[| |]|]; try discriminate Hp.
  unfold poll in *. simpl in *.
  destruct rr as [r|]; unfold hideReticle; simpl; rewrite Hpoll; simpl;
    destruct sd; simpl; unfold readVector; simpl;
    by rewrite lookup_total_insert_eq.
Qed.

(** One tick that polls no pose, seen from outside. *)
Lemma step_follow (now : Time) (t : Tick) (v : Viewer) (o : Object3D) :
  isPresenting v = true → isPlacementMode v = true → previewRef v = Some o →
  follows v (camera t) t →
  let v' := fst (step_viewer now (Frame t) v) in
  isPresenting v' = true ∧ isPlacementMode v' = true ∧ previewRef v' = Some o
  ∧ hitTestSource v' = hitTestSource v
  ∧ readVector (heap v') (position o)
    = lerp (readVector (heap v) (position o)) (followTarget (camera t))
           (delta t * 5).
Proof.
  intros Hp Hm Ho (_ & f & Hf & Hpoll).
  rewrite step_viewer_eq. cbn [fst snd handle].
  set (v0 := runTimers now v).
  pose proof (runTimers_fields now v)
    as (Hm0 & _ & _ & Hpm0 & _ & _ & Hpr0 & Hh0 & Hheap0).
  simpl in *. fold v0 in Hm0, Hpm0, Hpr0, Hh0, Hheap0.
  assert (isPresenting v0 = true) as Hp0
    by (unfold isPresenting in *; by rewrite Hm0).
  assert (poll v0 t f = None) as Hpoll0
    by by rewrite (poll_hitTestSource v v0 t f Hh0).
  destruct (useFrame_follow t f v0 o Hp0 ltac:(congruence) ltac:(congruence)
              Hf Hpoll0) as [Hread Hout].
  pose proof (useFrame_fields t v0)
    as (Hm1 & Hs1 & _ & Hpm1 & _ & _ & Hpr1 & Hh1).
  simpl in *. set (v1 := fst (useFrame t v0)) in *.
  assert (isPresenting v1 = true) as Hp1
    by (unfold isPresenting in *; by rewrite Hm1).
  rewrite Hout. unfold onLogChanges, commit. simpl.
  destruct (mountRefs_mounted v1 o Hp1 ltac:(congruence) ltac:(congruence))
    as [Hpr2 Hheap2].
  pose proof (mountRefs_fields v1)
    as (Hm2 & Hs2 & _ & Hpm2 & _ & _ & _ & _ & Hh2). simpl in *.
  assert (isPresenting (mountRefs v1) = true) as Hp2
    by (unfold isPresenting in *; by rewrite Hm2).
  assert (resetEffect v0 (mountRefs v1) = mountRefs v1) as ->.
  { unfold resetEffect. rewrite bool_decide_eq_true_2; [done|congruence]. }
  rewrite hitTestEffect_idle by congruence. simpl.
  rewrite Hheap2, Hread, Hheap0.
  repeat split; congruence.
Qed.

(** C8, amended.  Ticks in AR with placement mode on that poll no pose,
    with the camera fixed: each tick moves the preview by the linear
    interpolation of factor [5 * delta] towards the point in front of the
    camera, so after the ticks the preview is as far from that point as it
    was at the start, times the product of the [1 - 5 * delta] of the
    ticks, on every axis. *)
Theorem follow_is_lerp_per_tick (ticks : list (Time * Tick)) (s : System)
    (o : Object3D) (cam : Camera) :
  isPresenting (viewer s) = true →
  isPlacementMode (viewer s) = true →
  previewRef (viewer s) = Some o →
  Forall (λ nt, follows (viewer s) cam (snd nt)) ticks →
  let s' := fst (run (frames ticks) s) in
  previewRef (viewer s') = Some o
  ∧ scaled (readVector (heap (viewer s')) (position o))
           (readVector (heap (viewer s)) (position o))
           (followTarget cam)
           (remaining (delta ∘ snd <$> ticks)).
Proof.
  revert s. induction ticks as [|[now t] ticks IH]; intros s Hp Hm Ho Hall; simpl.
  - split; [done|]. unfold scaled. repeat split; ring.
  - apply Forall_cons in Hall as [Ht Hall]. simpl in Ht.
    pose proof (viewer_step (now, Frame t) s) as Hv.
    destruct (step (now, Frame t) s) as [s1 o1]. simpl in Hv.
    specialize (IH s1).
    destruct (run (frames ticks) s1) as [s2 o2]. simpl in *.
    assert (camera t = cam) as Hcam by apply Ht.
    assert (follows (viewer s) (camera t) t) as Ht' by (by rewrite Hcam).
    destruct (step_follow now t (viewer s) o Hp Hm Ho Ht')
      as (Hp1 & Hm1 & Ho1 & Hh1 & Hread).
    rewrite <- Hv in Hp1, Hm1, Ho1, Hh1, Hread.
    destruct IH as [Ho2 Hsc]; [done..| |].
    { eapply Forall_impl; [exact Hall|]. intros nt (Hc & f & Hf & Hpoll).
      split; [done|]. exists f. split; [done|].
      by rewrite (poll_hitTestSource (viewer s) (viewer s1) _ f Hh1). }
    split; [done|].
    eapply scaled_trans; [|exact Hsc].
    rewrite Hread, Hcam. apply lerp_scaled.
Qed.

Lemma follow_is_lerp_per_tick_witness :
  let s' := fst (run (frames twoShortTicks) trackingSession) in
  previewRef (viewer s') = Some (mkObject3D 0 0)
  ∧ scaled (readVector (heap (viewer s')) (position (mkObject3D 0 0)))
           (readVector (heap (viewer trackingSession)) (position (mkObject3D 0 0)))
           (followTarget cam0)
           (remaining (delta ∘ snd <$> twoShortTicks)).
Proof.
  refine (follow_is_lerp_per_tick twoShortTicks trackingSession
            (mkObject3D 0 0) cam0 _ _ _ _).
  - vm_compute. reflexivity.
  - vm_compute. reflexivity.
  - vm_compute. reflexivity.
  - repeat constructor;
      (eexists; split; [reflexivity|vm_compute; reflexivity]).
Defined.

(** ** A failing hit-test request *)

Lemma runTimers_is_set_gate (now : Time) (v : Viewer) :
  ∃ b ts, runTimers now v = set_gate b ts v.
Proof.
  unfold runTimers. case_decide; [by eexists _, _|].
  exists (isUiBlocked v), (timers v). by destruct v.
Qed.

Lemma mountRefs_effect (v : Viewer) :
  effectRun (mountRefs v) = effectRun v
  ∧ effectSource (mountRefs v) = effectSource v
  ∧ inflight (mountRefs v) = inflight v ∧ nextRun (mountRefs v) = nextRun v.
Proof.
  destruct v as [m s ms pm sd lh rr pr hs ub ts er es fl nr h].
  unfold mountRefs, isPresenting; simpl.
  by destruct m as [[| |]|], rr, pm, pr.
Qed.

Lemma resetEffect_effect (before v : Viewer) :
  effectRun (resetEffect before v) = effectRun v
  ∧ effectSource (resetEffect before v) = effectSource v
  ∧ inflight (resetEffect before v) = inflight v
  ∧ nextRun (resetEffect before v) = nextRun v.
Proof.
  unfold resetEffect. case_bool_decide; [done|]. by destruct (isPresenting v).
Qed.

(** The effect when [onLog] changed during a presented session: the
    previous run is cleaned up and [initHitTest] is called again. *)
Lemma hitTestEffect_again (before v : Viewer) (k : nat) (sess : Session) :
  effectRun v = Some k → session v = Some sess → isPresenting v = true →
  hitTestEffect before true v
  = (set_effect (Some (nextRun v)) None (inflight v ++ [nextRun v])
       (S (nextRun v)) (set_hitTestSource None v),
     match effectSource v with
     | Some src => [CancelHitTestSource src]
     | None => []
     end ++ [RequestHitTestSource sess (nextRun v)]).
Proof.
  intros Hk Hs Hp. unfold hitTestEffect. rewrite andb_false_r, Hk. simpl.
  rewrite Hs. unfold isPresenting in *. simpl.
  by destruct (mode v) as [[| |]|].
Qed.

(** A request of the current run that fails while an AR session is
    presented: the error is logged and the session stays as it is; the log
    makes [App] render, the effect sees a new [onLog], and [initHitTest] is
    called again. *)
Lemma rejected_init_is_retried (now : Time) (run : nat) (message : string)
    (sess : Session) (v : Viewer) :
  run ∈ inflight v → effectRun v = Some run →
  session v = Some sess → isPresenting v = true →
  let v' := fst (step_viewer now (InitSettled run (Rejected message)) v) in
  let out := snd (step_viewer now (InitSettled run (Rejected message)) v) in
  logs out = ["Hit Test Error: " +:+ message]
  ∧ mode v' = mode v ∧ session v' = session v
  ∧ hitTestSource v' = None
  ∧ RequestHitTestSource sess (nextRun v) ∈ out
  ∧ nextRun v ∈ inflight v'.
Proof.
  intros Hin Her Hs Hp. rewrite step_viewer_eq. cbn [fst snd handle].
  destruct (runTimers_is_set_gate now v) as (b & ts' & ->).
  set (v0 := set_gate b ts' v).
  assert (initSettled run (Rejected message) v0
          = (set_effect (effectRun v) (effectSource v)
               (filter (λ k, k ≠ run) (inflight v)) (nextRun v) v0,
             [Log ("Hit Test Error: " +:+ message)])) as ->.
  { unfold initSettled. by rewrite bool_decide_eq_true_2 by done. }
  cbn [fst snd]. unfold onLogChanges, commit.
  rewrite bool_decide_eq_true_2 by done.
  set (v1 := set_effect _ _ _ _ v0).
  pose proof (mountRefs_fields v1) as (Hm2 & Hs2 & _). simpl in Hm2, Hs2.
  pose proof (mountRefs_effect v1) as (He2 & _ & Hi2 & Hn2). simpl in He2, Hi2, Hn2.
  pose proof (resetEffect_same_ui v0 (mountRefs v1)) as (Hm3 & Hs3 & _).
  pose proof (resetEffect_effect v0 (mountRefs v1)) as (He3 & _ & Hi3 & Hn3).
  set (v3 := resetEffect v0 (mountRefs v1)) in *.
  assert (isPresenting v3 = true) as Hp3.
  { unfold isPresenting in *. by rewrite Hm3, Hm2. }
  rewrite (hitTestEffect_again v0 v3 run sess)
    by (try done; congruence).
  cbn [fst snd]. rewrite Hn3, Hn2, Hi3, Hi2. simpl.
  split. { unfold logs. rewrite omap_app. simpl. by destruct (effectSource v3). }
  split; [congruence|]. split; [congruence|]. split; [done|].
  split.
  - apply elem_of_cons. right. apply elem_of_app. right.
    by apply list_elem_of_singleton.
  - apply elem_of_app. right. by apply list_elem_of_singleton.
Qed.

(** C9, as the code runs it.  The request made at session start fails; the
    error is logged and the session goes on, but a second request is made at
    once.  When that one succeeds, the next frame polls a pose and the
    surface is detected. *)
Theorem failed_request_is_retried :
  snd (run (take 2 failedStart) initial)
  = [RequestHitTestSource 7 0;
     Log "Hit Test Error: hit-test not supported";
     RequestHitTestSource 7 1]
  ∧ isPresenting (viewer (fst (run (take 2 failedStart) initial))) = true
  ∧ hitTestSource (viewer (fst (run (take 3 failedStart) initial))) = Some 1
  ∧ isSurfaceDetected (viewer (fst (run failedStart initial))) = true
  ∧ logs (snd (run failedStart initial))
    = ["Hit Test Error: hit-test not supported"; "Surface detected!"].
Proof. vm_compute. by repeat split. Qed.

(** * Further properties of the controller *)

(** ** The registry keeps its order *)

Lemma step_viewer_models (now : Time) (e : Event) (v : Viewer) :
  models (fst (step_viewer now e v))
  = models (fst (handle now e (runTimers now v))).
Proof.
  rewrite step_viewer_eq. cbn [fst].
  by pose proof (commit_fields (runTimers now v)
    (onLogChanges e (snd (handle now e (runTimers now v))))
    (fst (handle now e (runTimers now v)))) as (_ & _ & -> & _).
Qed.

Lemma runTimers_models (now : Time) (v : Viewer) :
  models (runTimers now v) = models v.
Proof. by pose proof (runTimers_fields now v) as (_ & _ & -> & _). Qed.

Lemma step_viewer_appends (now : Time) (e : Event) (v : Viewer) :
  is_clear e = false →
  ∃ added, models (fst (step_viewer now e v)) = models v ++ added
    ∧ (length added ≤ (if is_select e then 1 else 0))%nat.
Proof.
  intros He. rewrite step_viewer_models, <- (runTimers_models now v).
  set (v0 := runTimers now v).
  assert (∀ v1 : Viewer, models v1 = models v0 →
            ∃ added, models v1 = models v0 ++ added
              ∧ (length added ≤ (if is_select e then 1 else 0))%nat) as Hsame.
  { intros v1 ->. exists []. rewrite app_nil_r. split; [done|simpl; lia]. }
  destruct e as [m s| |k r|t|r|b|b]; cbn [handle].
  - by apply Hsame.
  - by apply Hsame.
  - apply Hsame. by pose proof (initSettled_fields k r v0) as (_ & _ & Hms & _).
  - apply Hsame. by pose proof (useFrame_fields t v0) as (_ & _ & Hms & _).
  - destruct (session v0); [|by apply Hsame].
    destruct (placeModel_cases now r v0) as [Hv|(o & Hp & Hm & Hb & Hd & Ho)];
      [apply Hsame; by rewrite Hv|].
    destruct (placeModel_places now r v0 o Hp Hm Hb Hd Ho)
      as (m' & v' & -> & Hms' & _).
    exists [m']. simpl. split; [done|lia].
  - destruct (isPresenting v0); by apply Hsame.
  - destruct b; [discriminate He|].
    destruct (isPresenting v0); by apply Hsame.
Qed.

(** X1. Over any events without a Clear Scene click the registry is only
    extended at its end: what it held stays, in the same order, and it gains
    at most one entry per tap. *)
Theorem registry_extends_in_order (tes : list (Time * Event)) (s : System) :
  Forall (λ te, is_clear (snd te) = false) tes →
  models (viewer s) `prefix_of` models (viewer (fst (run tes s)))
  ∧ (length (models (viewer (fst (run tes s))))
     ≤ length (models (viewer s))
       + length (filter (λ te, is_select (snd te) = true) tes))%nat.
Proof.
  revert s. induction tes as [|[now e] tes IH]; intros s Hall; simpl.
  - split; [done|lia].
  - apply Forall_cons in Hall as [He Hall]. simpl in He.
    pose proof (viewer_step (now, e) s) as Hv.
    destruct (step (now, e) s) as [s1 o1]. simpl in Hv.
    specialize (IH s1 Hall). destruct (run tes s1) as [s2 o2]. simpl in *.
    destruct (step_viewer_appends now e (viewer s) He) as (added & Hms & Hlen).
    rewrite <- Hv in Hms. destruct IH as [Hpre Hle]. split.
    + etrans; [|exact Hpre]. rewrite Hms. by apply prefix_app_r.
    + rewrite Hms, length_app in Hle.
      rewrite filter_cons. simpl.
      case_decide as Hs; simpl; rewrite ?Hs in Hlen; [lia|].
      destruct (is_select e); [done|lia].
Qed.

Lemma registry_extends_in_order_witness :
  models (viewer readyToPlace)
    `prefix_of` models (viewer (fst (run oneSession readyToPlace)))
  ∧ (length (models (viewer (fst (run oneSession readyToPlace))))
     ≤ length (models (viewer readyToPlace))
       + length (filter (λ te, is_select (snd te) = true) oneSession))%nat.
Proof.
  refine (registry_extends_in_order oneSession readyToPlace _).
  repeat constructor.
Defined.

(** ** The gate opens again *)

Lemma runTimers_gate_can_open (now : Time) (v : Viewer) :
  gate_can_open v → gate_can_open (runTimers now v).
Proof. unfold gate_can_open, runTimers. by case_decide. Qed.

Lemma handle_hud_outside (now : Time) (e : Event) (v : Viewer) :
  is_block e = true → isPresenting v = false → handle now e v = (v, []).
Proof. intros He Hp. destruct e; try discriminate He; simpl; by rewrite Hp. Qed.

Lemma step_viewer_gate_can_open (now : Time) (e : Event) (v : Viewer) :
  gate_can_open v → gate_can_open (fst (step_viewer now e v)).
Proof.
  intros Hg. pose proof (runTimers_gate_can_open now v Hg) as Hg0.
  destruct (is_block e) eqn:He.
  - destruct (isPresenting v) eqn:Hp.
    + destruct (step_viewer_block now e v He Hp) as [_ Hts].
      intros _. rewrite Hts. by intros [? ?]%app_eq_nil.
    + rewrite step_viewer_eq. cbn [fst].
      assert (isPresenting (runTimers now v) = false) as Hp0.
      { pose proof (runTimers_fields now v) as [Hm _]. simpl in Hm.
        unfold isPresenting in *. by rewrite Hm. }
      rewrite (handle_hud_outside now e _ He Hp0). cbn [fst snd].
      pose proof (commit_fields (runTimers now v) (onLogChanges e [])
                    (runTimers now v)) as (_ & _ & _ & _ & Hb & Ht & _).
      unfold gate_can_open. by rewrite Hb, Ht.
  - destruct (step_viewer_gate now e v He) as [Hb Ht].
    unfold gate_can_open. by rewrite Hb, Ht.
Qed.

Lemma reachable_gate_can_open (s : System) :
  reachable s → gate_can_open (viewer s).
Proof.
  revert s. apply reachable_ind; [done|].
  intros [now e] s Hg. rewrite viewer_step. by apply step_viewer_gate_can_open.
Qed.

(** X2. The gate never stays closed: in every state of the running
    application, at any time at which all pending timeouts are due, the
    check finds the gate open. *)
Theorem gate_opens_when_timers_due (s : System) (now : Time) :
  reachable s →
  Forall (λ due, (due ≤ now)%N) (timers (viewer s)) →
  isUiBlocked (runTimers now (viewer s)) = false.
Proof.
  intros Hr Hdue. pose proof (reachable_gate_can_open s Hr) as Hg.
  unfold runTimers. case_decide as HE; [done|].
  destruct (timers (viewer s)) as [|due ts] eqn:Hts.
  - destruct (isUiBlocked (viewer s)) eqn:Hb; [|done].
    by destruct (Hg Hb).
  - exfalso. apply HE. left. by apply Forall_cons in Hdue as [? _].
Qed.

Lemma gate_opens_when_timers_due_witness :
  isUiBlocked
    (runTimers 1600 (viewer (fst (run pressThenClick sessionWithSurface))))
  = false.
Proof.
  refine (gate_opens_when_timers_due
            (fst (run pressThenClick sessionWithSurface)) 1600 _ _).
  - unfold sessionWithSurface. apply reachable_run, reachable_run, reachable_initial.
  - vm_compute. repeat constructor; discriminate.
Defined.

(** ** Refs and the effect run in reachable states *)

Lemma mountRefs_reticleRef_eq (v : Viewer) :
  reticleRef (mountRefs v)
  = if isPresenting v
    then Some (default (mkReticle false identity4) (reticleRef v))
    else None.
Proof.
  destruct v as [m s ms pm sd lh rr pr hs ub ts er es fl nr h].
  unfold mountRefs, isPresenting; simpl.
  destruct m as [[| |]|], rr, pm, pr; reflexivity.
Qed.

Lemma resetEffect_refs (before v : Viewer) :
  reticleRef (resetEffect before v) = reticleRef v
  ∧ hitTestSource (resetEffect before v) = hitTestSource v.
Proof.
  unfold resetEffect. case_bool_decide; [done|]. by destruct (isPresenting v).
Qed.

Lemma hitTestEffect_reticleRef (before : Viewer) (b : bool) (v : Viewer) :
  reticleRef (fst (hitTestEffect before b v)) = reticleRef v.
Proof.
  unfold hitTestEffect.
  destruct (_ && _ && _); [done|].
  destruct (effectRun v); simpl;
    (destruct (session v) eqn:Hs; simpl; [|done]);
    unfold isPresenting; simpl;
    by destruct (mode v) as [[| |]|].
Qed.

Lemma commit_reticleRef (before : Viewer) (b : bool) (v : Viewer) :
  reticleRef (fst (commit before b v)) = reticleRef (mountRefs v).
Proof.
  unfold commit. rewrite hitTestEffect_reticleRef.
  by pose proof (resetEffect_refs before (mountRefs v)) as [-> _].
Qed.

Lemma step_viewer_reticle_mounted (now : Time) (e : Event) (v : Viewer) :
  reticle_mounted (fst (step_viewer now e v)).
Proof.
  rewrite step_viewer_eq. cbn [fst]. unfold reticle_mounted.
  rewrite commit_reticleRef, mountRefs_reticleRef_eq.
  pose proof (commit_fields (runTimers now v)
    (onLogChanges e (snd (handle now e (runTimers now v))))
    (fst (handle now e (runTimers now v)))) as (Hm & _).
  unfold isPresenting at 2. rewrite Hm.
  fold (isPresenting (fst (handle now e (runTimers now v)))).
  destruct (isPresenting _).
  - split; [done|]. intros _. by eexists.
  - split; [by intros [? ?]|done].
Qed.

Lemma reachable_reticle_mounted (s : System) :
  reachable s → reticle_mounted (viewer s).
Proof.
  revert s. apply reachable_ind.
  - split; [by intros [? ?]|done].
  - intros [now e] s _. rewrite viewer_step. apply step_viewer_reticle_mounted.
Qed.

Ltac solve_live :=
  unfold effect_live, isPresenting; simpl;
  split; [split|]; intros;
  repeat match goal with
         | H : is_Some None |- _ => destruct H as [? H]; discriminate H
         | H : _ ∧ _ |- _ => destruct H
         end;
  try discriminate; try done; try (split; by eauto); by eauto.

Lemma hitTestEffect_effect_live (before : Viewer) (b : bool) (v : Viewer) :
  (hitTestEffect before b v = (v, [])
   ∧ session before = session v ∧ isPresenting before = isPresenting v)
  ∨ effect_live (fst (hitTestEffect before b v)).
Proof.
  unfold hitTestEffect.
  destruct (bool_decide (session before = session v)
            && bool_decide (isPresenting before = isPresenting v)
            && negb b) eqn:Hc.
  - left. apply andb_true_iff in Hc as [Hc _].
    apply andb_true_iff in Hc as [H1 H2].
    apply bool_decide_eq_true in H1, H2. done.
  - right. clear Hc.
    destruct v as [m s ms pm sd lh rr pr hs ub ts er es fl nr h].
    unfold isPresenting; simpl.
    destruct er, s, m as [[| |]|]; simpl; solve_live.
Qed.

Lemma useFrame_effect (t : Tick) (v : Viewer) :
  effectRun (fst (useFrame t v)) = effectRun v
  ∧ effectSource (fst (useFrame t v)) = effectSource v
  ∧ inflight (fst (useFrame t v)) = inflight v
  ∧ nextRun (fst (useFrame t v)) = nextRun v.
Proof.
  destruct v as [m s ms pm sd lh rr pr hs ub ts er es fl nr h].
  unfold useFrame, isPresenting; simpl.
  destruct m as [[| |]|]; simpl; try done.
  destruct (frame t) as [f|]; simpl; [|done].
  destruct rr as [r|]; unfold hideReticle; simpl;
    (destruct pm; simpl; [|done]);
    (match goal with |- context [poll ?x t f] => destruct (poll x t f) end);
    simpl; destruct sd, lh, pr; simpl; done.
Qed.

Lemma placeModel_effect (now : Time) (random36 : string) (v : Viewer) :
  effectRun (fst (placeModel now random36 v)) = effectRun v
  ∧ effectSource (fst (placeModel now random36 v)) = effectSource v
  ∧ inflight (fst (placeModel now random36 v)) = inflight v
  ∧ nextRun (fst (placeModel now random36 v)) = nextRun v.
Proof.
  destruct v as [m s ms pm sd lh rr pr hs ub ts er es fl nr h].
  unfold placeModel, isPresenting; simpl.
  destruct m as [[| |]|], pm, ub, sd, pr; simpl; done.
Qed.

(** A callback never changes which run is current, and gives a source only
    to the current run. *)
Lemma handle_effect (now : Time) (e : Event) (v : Viewer) :
  effectRun (fst (handle now e v)) = effectRun v
  ∧ (effectSource (fst (handle now e v)) = effectSource v
     ∨ ∃ k src, e = InitSettled k (Resolved src) ∧ effectRun v = Some k
         ∧ effectSource (fst (handle now e v)) = Some src).
Proof.
  destruct e as [m s| |k r|t|r|b|b]; cbn [handle].
  - split; [done|by left].
  - split; [done|by left].
  - unfold initSettled. case_bool_decide; [|split; [done|by left]].
    destruct r as [src|msg]; simpl; [|split; [done|by left]].
    split; [done|]. case_bool_decide; [right|by left]. by exists k, src.
  - pose proof (useFrame_effect t v) as (-> & -> & _). split; [done|by left].
  - destruct (session v); [|split; [done|by left]].
    pose proof (placeModel_effect now r v) as (-> & -> & _).
    split; [done|by left].
  - destruct (isPresenting v); split; done || by left.
  - destruct (isPresenting v); [|split; [done|by left]].
    destruct b; split; done || by left.
Qed.

Lemma handle_session (now : Time) (e : Event) (v : Viewer) :
  is_xr_change e = false → session (fst (handle now e v)) = session v.
Proof.
  intros He. destruct e as [| |run r|t|r|b|b]; try discriminate He; simpl.
  - done.
  - by pose proof (initSettled_fields run r v) as (_ & -> & _).
  - by pose proof (useFrame_fields t v) as (_ & -> & _).
  - destruct (session v) eqn:Hs; [|done].
    pose proof (placeModel_fields now r v) as (_ & Hs' & _).
    simpl in Hs'. by rewrite Hs'.
  - by destruct (isPresenting v).
  - destruct (isPresenting v); [|done]. by destruct b.
Qed.

Lemma step_viewer_effect_live (now : Time) (e : Event) (v : Viewer) :
  effect_live v → effect_live (fst (step_viewer now e v)).
Proof.
  intros Hl. rewrite step_viewer_eq. cbn [fst]. unfold commit.
  destruct (runTimers_is_set_gate now v) as (ub' & ts' & ->).
  set (v0 := set_gate ub' ts' v).
  assert (effect_live v0) as Hl0 by exact Hl.
  set (v1 := fst (handle now e v0)).
  set (b := onLogChanges e (snd (handle now e v0))).
  pose proof (handle_effect now e v0) as [Her Hes]. fold v1 in Her, Hes.
  pose proof (mountRefs_fields v1) as (Hm2 & Hs2 & _). simpl in Hm2, Hs2.
  pose proof (mountRefs_effect v1) as (He2 & Hes2 & _).
  pose proof (resetEffect_same_ui v0 (mountRefs v1)) as (Hm3 & Hs3 & _).
  pose proof (resetEffect_effect v0 (mountRefs v1)) as (He3 & Hes3 & _).
  set (w := resetEffect v0 (mountRefs v1)) in *.
  destruct (hitTestEffect_effect_live v0 b w) as [(-> & Hs & Hp)|H]; [|done].
  cbn [fst]. destruct Hl0 as [Hl1 Hl2]. unfold effect_live.
  rewrite He3, He2, Her, <- Hs, <- Hp. split; [done|].
  intros Hn. rewrite Hes3, Hes2.
  destruct Hes as [->|(k & src & _ & Hk & _)]; [by apply Hl2|congruence].
Qed.

Lemma reachable_effect_live (s : System) :
  reachable s → effect_live (viewer s).
Proof.
  revert s. apply reachable_ind.
  - split; [|done]. split; [by intros [? ?]|by intros [[? ?] _]].
  - intros [now e] s Hl. rewrite viewer_step. by apply step_viewer_effect_live.
Qed.

(** ** Leaving AR *)

Lemma hitTestEffect_stop (before v : Viewer) :
  isPresenting before = true → isPresenting v = false →
  hitTestSource (fst (hitTestEffect before false v)) = None
  ∧ effectRun (fst (hitTestEffect before false v)) = None
  ∧ logs (snd (hitTestEffect before false v)) = []
  ∧ (is_Some (effectRun v) → ∀ src, effectSource v = Some src →
       CancelHitTestSource src ∈ snd (hitTestEffect before false v)).
Proof.
  intros Hb Hv. unfold hitTestEffect. rewrite Hb, Hv.
  rewrite (bool_decide_eq_false_2 (true = false)) by done.
  rewrite andb_false_r. cbn [andb].
  assert (∀ w, mode w = mode v → isPresenting w = false) as Hw
    by (intros w Hw; unfold isPresenting in *; by rewrite Hw).
  destruct (effectRun v) as [k|]; cbn [fst snd].
  - rewrite (Hw (set_hitTestSource None v)) by done.
    destruct (effectSource v) as [src|];
      destruct (session (set_hitTestSource None v)); simpl;
      (repeat split; try done); intros _ src' [= <-];
      by apply list_elem_of_singleton.
  - rewrite Hv. destruct (session v); simpl;
      (repeat split; try done); by intros [? ?].
Qed.

(** X3. Leaving AR (the XR store takes a mode other than immersive AR while
    the viewer was presenting): the registry is left as it is, the preview
    and the reticle are gone, [hitTestSource.current] is null, nothing is
    logged, and the source held by the effect, if any, is cancelled. *)
Theorem leaving_ar_keeps_registry (s : System) (now : Time)
    (m : option XRMode) (sess : option Session) :
  reachable s → isPresenting (viewer s) = true → m ≠ Some ImmersiveAR →
  let s1 := fst (step (now, XRStore m sess) s) in
  let out := snd (step (now, XRStore m sess) s) in
  models (viewer s1) = models (viewer s)
  ∧ previewRef (viewer s1) = None ∧ reticleRef (viewer s1) = None
  ∧ hitTestSource (viewer s1) = None
  ∧ logs out = []
  ∧ ∀ src, effectSource (viewer s) = Some src → CancelHitTestSource src ∈ out.
Proof.
  intros Hr Hp Hm s1 out. subst s1 out.
  rewrite viewer_step, snd_step, step_viewer_eq. cbn [fst snd handle].
  pose proof (reachable_effect_live s Hr) as [Hl1 Hl2].
  destruct (runTimers_is_set_gate now (viewer s)) as (ub' & ts' & ->).
  set (v0 := set_gate ub' ts' (viewer s)).
  set (v1 := set_xr m sess v0).
  assert (isPresenting v1 = false) as Hp1.
  { unfold isPresenting. simpl. by destruct m as [[| |]|]. }
  pose proof (commit_fields v0 (onLogChanges (XRStore m sess) []) v1)
    as (_ & _ & Hms & _ & _ & _ & Hpr & _).
  rewrite Hms, Hpr, commit_reticleRef, mountRefs_previewRef_eq,
    mountRefs_reticleRef_eq, Hp1. simpl.
  unfold commit, onLogChanges. simpl.
  pose proof (mountRefs_fields v1) as (Hm2 & _). simpl in Hm2.
  pose proof (mountRefs_effect v1) as (He2 & Hes2 & _).
  assert (isPresenting (mountRefs v1) = false) as Hp2
    by (unfold isPresenting in *; by rewrite Hm2).
  assert (resetEffect v0 (mountRefs v1) = mountRefs v1) as ->.
  { unfold resetEffect. rewrite Hp2. by case_bool_decide. }
  destruct (hitTestEffect_stop v0 (mountRefs v1) Hp Hp2) as (-> & _ & -> & Hc).
  repeat split; try done.
  intros src Hsrc. apply Hc.
  - rewrite He2. simpl. destruct (effectRun (viewer s)) eqn:Her; [by eexists|].
    rewrite (Hl2 eq_refl) in Hsrc. done.
  - by rewrite Hes2.
Qed.

Lemma leaving_ar_keeps_registry_witness :
  let s1 := fst (step (900%N, XRStore None None) placedOnce) in
  let out := snd (step (900%N, XRStore None None) placedOnce) in
  models (viewer s1) = models (viewer placedOnce)
  ∧ previewRef (viewer s1) = None ∧ reticleRef (viewer s1) = None
  ∧ hitTestSource (viewer s1) = None
  ∧ logs out = []
  ∧ ∀ src, effectSource (viewer placedOnce) = Some src →
      CancelHitTestSource src ∈ out.
Proof.
  refine (leaving_ar_keeps_registry placedOnce 900%N None None _ _ _).
  - unfold placedOnce, readyToPlace, sessionWithSurface.
    apply reachable_run, reachable_run, reachable_run, reachable_initial.
  - vm_compute. reflexivity.
  - discriminate.
Defined.

Example leaving_ar_placedOnce :
  snd (step (900%N, XRStore None None) placedOnce) = [CancelHitTestSource 3]
  ∧ length (models (viewer (fst (step (900%N, XRStore None None) placedOnce)))) = 1.
Proof. vm_compute. by split. Qed.

(** ** Sources that are never cancelled *)

Lemma useFrame_out (t : Tick) (v : Viewer) :
  snd (useFrame t v) = [] ∨ snd (useFrame t v) = [Log "Surface detected!"].
Proof.
  destruct v as [m s ms pm sd lh rr pr hs ub ts er es fl nr h].
  unfold useFrame, isPresenting; simpl.
  destruct m as [[| |]|]; simpl; try (by left).
  destruct (frame t) as [f|]; simpl; [|by left].
  destruct rr as [r|]; unfold hideReticle; simpl;
    (destruct pm; simpl; [|by left]);
    (match goal with |- context [poll ?x t f] => destruct (poll x t f) end);
    simpl; destruct sd, lh, pr; simpl; (by left) || by right.
Qed.

(** Callbacks only log; requests and cancellations come from the effect. *)
Lemma handle_only_logs (now : Time) (e : Event) (v : Viewer) :
  Forall (λ a, is_Some (logged a)) (snd (handle now e v)).
Proof.
  destruct e as [m s| |k r|t|r|b|b]; cbn [handle snd].
  - done.
  - done.
  - unfold initSettled. case_bool_decide; [|done].
    destruct r; simpl; [done|]. by repeat constructor.
  - destruct (useFrame_out t v) as [->| ->]; by repeat constructor.
  - destruct (session v); [|done]. unfold placeModel.
    destruct (isPresenting v), (isPlacementMode v), (isUiBlocked v),
      (isSurfaceDetected v), (previewRef v); simpl; by repeat constructor.
  - by destruct (isPresenting v).
  - destruct (isPresenting v); [|done].
    destruct b; simpl; by repeat constructor.
Qed.

Lemma hitTestEffect_cancels (before : Viewer) (b : bool) (v : Viewer)
    (src : HitTestSource) :
  effectSource v ≠ Some src →
  (CancelHitTestSource src ∉ snd (hitTestEffect before b v))
  ∧ effectSource (fst (hitTestEffect before b v)) ≠ Some src.
Proof.
  intros Hne. unfold hitTestEffect.
  destruct (_ && _ && _); [split; [by intros ?%elem_of_nil|done]|].
  destruct (effectRun v) as [k|]; cbn [fst snd].
  - destruct (effectSource v) as [src'|] eqn:Hes;
      destruct (session (set_hitTestSource None v)),
        (isPresenting (set_hitTestSource None v)); simpl;
      (split; [|done]);
      rewrite ?elem_of_cons, ?elem_of_nil; intros H;
      destruct_or?; try done; congruence.
  - destruct (session v), (isPresenting v); simpl;
      (split; [|done]);
      rewrite ?elem_of_cons, ?elem_of_nil; intros H;
      destruct_or?; try done; congruence.
Qed.

Lemma step_viewer_no_cancel (now : Time) (e : Event) (v : Viewer)
    (src : HitTestSource) :
  effectSource v ≠ Some src → (∀ k, e ≠ InitSettled k (Resolved src)) →
  (CancelHitTestSource src ∉ snd (step_viewer now e v))
  ∧ effectSource (fst (step_viewer now e v)) ≠ Some src.
Proof.
  intros Hne He. rewrite step_viewer_eq. cbn [fst snd]. unfold commit.
  destruct (runTimers_is_set_gate now v) as (ub' & ts' & ->).
  set (v0 := set_gate ub' ts' v).
  set (v1 := fst (handle now e v0)).
  pose proof (handle_effect now e v0) as [_ Hes]. fold v1 in Hes.
  pose proof (mountRefs_effect v1) as (_ & Hes2 & _).
  pose proof (resetEffect_effect v0 (mountRefs v1)) as (_ & Hes3 & _).
  set (w := resetEffect v0 (mountRefs v1)) in *.
  assert (effectSource w ≠ Some src) as Hw.
  { rewrite Hes3, Hes2. destruct Hes as [->|(k & src' & -> & _ & ->)]; [done|].
    intros [= ->]. by apply (He k). }
  destruct (hitTestEffect_cancels v0
              (onLogChanges e (snd (handle now e v0))) w src Hw) as [Hc Hs].
  split; [|done]. intros [Hin|Hin]%elem_of_app; [|done].
  pose proof (handle_only_logs now e v0) as Hl.
  rewrite Forall_forall in Hl. by destruct (Hl _ Hin) as [? ?].
Qed.

Lemma run_no_cancel (tes : list (Time * Event)) (s : System) (src : HitTestSource) :
  effectSource (viewer s) ≠ Some src → never_resolves src tes →
  CancelHitTestSource src ∉ snd (run tes s).
Proof.
  revert s. induction tes as [|[now e] tes IH]; intros s Hne Hnr; simpl.
  - by intros ?%elem_of_nil.
  - apply Forall_cons in Hnr as [He Hnr]. simpl in He.
    pose proof (viewer_step (now, e) s) as Hv.
    pose proof (snd_step (now, e) s) as Ho.
    destruct (step (now, e) s) as [s1 o1]. simpl in Hv, Ho.
    specialize (IH s1). destruct (run tes s1) as [s2 o2]. simpl in *.
    destruct (step_viewer_no_cancel now e (viewer s) src Hne He) as [Hc Hs].
    intros [Hin|Hin]%elem_of_app.
    + apply Hc. by rewrite <- Ho.
    + apply IH; [by rewrite Hv|done|done].
Qed.

(** X5. A request that ends after its run of the effect has been replaced
    (the effect ran again in between) still stores its source in
    [hitTestSource.current], and that source is not cancelled then or by
    anything that follows, unless a later request hands out the same
    source again. *)
Theorem late_source_is_kept_and_never_cancelled (s : System) (now : Time)
    (k : nat) (src : HitTestSource) (tes : list (Time * Event)) :
  k ∈ inflight (viewer s) → effectRun (viewer s) ≠ Some k →
  effectSource (viewer s) ≠ Some src → never_resolves src tes →
  let s1 := fst (step (now, InitSettled k (Resolved src)) s) in
  hitTestSource (viewer s1) = Some src
  ∧ (CancelHitTestSource src ∉ snd (step (now, InitSettled k (Resolved src)) s))
  ∧ (CancelHitTestSource src ∉ snd (run tes s1)).
Proof.
  intros Hin Hk Hne Hnr s1.
  assert (effectSource (viewer s1) ≠ Some src
          ∧ hitTestSource (viewer s1) = Some src
          ∧ snd (step (now, InitSettled k (Resolved src)) s) = []) as (H1 & H2 & H3).
  { subst s1. rewrite viewer_step, snd_step, step_viewer_eq. cbn [fst snd handle].
    destruct (runTimers_is_set_gate now (viewer s)) as (ub' & ts' & ->).
    set (v0 := set_gate ub' ts' (viewer s)).
    assert (initSettled k (Resolved src) v0
            = (set_hitTestSource (Some src)
                 (set_effect (effectRun v0) (effectSource v0)
                    (filter (λ j, j ≠ k) (inflight v0)) (nextRun v0) v0), [])) as ->.
    { unfold initSettled. rewrite bool_decide_eq_true_2 by done.
      by rewrite bool_decide_eq_false_2 by done. }
    cbn [fst snd]. set (v1 := set_hitTestSource _ _).
    unfold onLogChanges, commit. simpl.
    pose proof (mountRefs_fields v1) as (Hm2 & Hs2 & _ & _ & _ & _ & _ & _ & Hh2).
    pose proof (mountRefs_effect v1) as (_ & Hes2 & _).
    simpl in Hm2, Hs2, Hh2.
    assert (resetEffect v0 (mountRefs v1) = mountRefs v1) as ->.
    { unfold resetEffect. rewrite bool_decide_eq_true_2; [done|].
      unfold isPresenting. by rewrite Hm2. }
    rewrite hitTestEffect_idle
      by (try done; unfold isPresenting; by rewrite Hm2).
    simpl. by rewrite Hes2, Hh2. }
  split; [done|]. split; [rewrite H3; by intros ?%elem_of_nil|].
  by apply run_no_cancel.
Qed.

Lemma late_source_is_kept_and_never_cancelled_witness :
  let s1 := fst (step (5%N, InitSettled 0 (Resolved 5)) overtaken) in
  hitTestSource (viewer s1) = Some 5
  ∧ (CancelHitTestSource 5 ∉ snd (step (5%N, InitSettled 0 (Resolved 5)) overtaken))
  ∧ (CancelHitTestSource 5 ∉ snd (run afterOvertaken s1)).
Proof.
  refine (late_source_is_kept_and_never_cancelled overtaken 5%N 0 5
            afterOvertaken _ _ _ _).
  - vm_compute. apply list_elem_of_In. simpl. tauto.
  - vm_compute. discriminate.
  - vm_compute. discriminate.
  - repeat constructor; intros k'; discriminate.
Defined.

Example late_source_actions :
  snd (run afterOvertaken
         (fst (step (5%N, InitSettled 0 (Resolved 5)) overtaken)))
  = [Log "Surface detected!"; CancelHitTestSource 6;
     RequestHitTestSource 7 2; CancelHitTestSource 8].
Proof. vm_compute. reflexivity. Qed.

(** ** Every message restarts hit testing *)

Lemma step_viewer_logs (now : Time) (e : Event) (v : Viewer) :
  logs (snd (step_viewer now e v)) = logs (snd (handle now e (runTimers now v))).
Proof.
  rewrite step_viewer_eq. cbn [snd]. unfold logs.
  rewrite omap_app. fold (logs (snd (commit (runTimers now v)
    (onLogChanges e (snd (handle now e (runTimers now v))))
    (fst (handle now e (runTimers now v)))))).
  by rewrite commit_logs, app_nil_r.
Qed.

Lemma handle_source_none (now : Time) (e : Event) (v : Viewer) :
  is_resolution e = false → hitTestSource v = None →
  hitTestSource (fst (handle now e v)) = None.
Proof.
  intros He Hv. destruct e as [m s| |k r|t|r|b|b]; cbn [handle].
  - exact Hv.
  - exact Hv.
  - destruct r as [src|message]; [discriminate He|].
    unfold initSettled. by case_bool_decide.
  - pose proof (useFrame_fields t v) as H. simpl in H. destruct_and!. congruence.
  - destruct (session v); [|exact Hv].
    pose proof (placeModel_fields now r v) as H. simpl in H.
    destruct_and!. congruence.
  - by destruct (isPresenting v).
  - destruct (isPresenting v); [|exact Hv]. by destruct b.
Qed.

Lemma hitTestEffect_source_none (before : Viewer) (b : bool) (v : Viewer) :
  hitTestSource v = None → hitTestSource (fst (hitTestEffect before b v)) = None.
Proof.
  intros Hv. unfold hitTestEffect.
  destruct (_ && _ && _); [exact Hv|].
  destruct (effectRun v); cbn [fst snd].
  - by destruct (session (set_hitTestSource None v)),
      (isPresenting (set_hitTestSource None v)).
  - by destruct (session v), (isPresenting v).
Qed.

Lemma resetEffect_source (before v : Viewer) :
  hitTestSource (resetEffect before v) = hitTestSource v.
Proof.
  unfold resetEffect. case_bool_decide; [done|]. by destruct (isPresenting v).
Qed.

(** Only a request that resolves writes a source into
    [hitTestSource.current]. *)
Lemma step_viewer_source_none (now : Time) (e : Event) (v : Viewer) :
  is_resolution e = false → hitTestSource v = None →
  hitTestSource (fst (step_viewer now e v)) = None.
Proof.
  intros He Hv. rewrite step_viewer_eq. cbn [fst]. unfold commit.
  apply hitTestEffect_source_none. rewrite resetEffect_source.
  pose proof (mountRefs_fields (fst (handle now e (runTimers now v)))) as H.
  simpl in H. destruct_and!.
  match goal with H : hitTestSource (mountRefs _) = _ |- _ => rewrite H end.
  apply handle_source_none; [exact He|].
  pose proof (runTimers_fields now v) as H'. simpl in H'. destruct_and!.
  congruence.
Qed.

Lemma run_source_none (tes : list (Time * Event)) (s : System) :
  Forall (λ te, is_resolution (snd te) = false) tes →
  hitTestSource (viewer s) = None →
  hitTestSource (viewer (fst (run tes s))) = None.
Proof.
  revert s. induction tes as [|te tes IH]; intros s Hres Hs; [exact Hs|].
  apply Forall_cons in Hres as [He Hres].
  pose proof (viewer_step te s) as Hv.
  cbn [run]. destruct (step te s) as [s1 o1]. cbn [fst] in Hv.
  specialize (IH s1 Hres). destruct (run tes s1) as [s2 o2]. cbn [fst] in *.
  apply IH. rewrite Hv. by apply step_viewer_source_none.
Qed.

(** X6. While a session is presented, an event whose callback logs
    anything ("Surface detected!", "Model placed", "Find a surface first",
    the HUD messages, a hit-test error) makes the hit-test effect run again:
    [hitTestSource.current] is null afterwards and a new request is issued.
    From then on, as long as no request resolves (the new one or an earlier
    one still under way), [hitTestSource.current] stays null and no frame
    polls a pose: this holds after every initial part of any events that
    follow without a resolution. *)
Theorem any_log_restarts_hit_test (s : System) (now : Time) (e : Event)
    (sess : Session) (tes : list (Time * Event)) :
  reachable s → session (viewer s) = Some sess →
  isPresenting (viewer s) = true → is_xr_change e = false →
  logs (snd (step (now, e) s)) ≠ [] →
  Forall (λ te, is_resolution (snd te) = false) tes →
  let s1 := fst (step (now, e) s) in
  hitTestSource (viewer s1) = None
  ∧ RequestHitTestSource sess (nextRun (viewer s)) ∈ snd (step (now, e) s)
  ∧ ∀ pre, pre `prefix_of` tes →
      hitTestSource (viewer (fst (run pre s1))) = None
      ∧ ∀ t f, poll (viewer (fst (run pre s1))) t f = None.
Proof.
  intros Hr Hs Hp He Hlog Hres s1.
  cut (hitTestSource (viewer s1) = None
       ∧ RequestHitTestSource sess (nextRun (viewer s)) ∈ snd (step (now, e) s)).
  { intros [H1 H2]. split; [done|]. split; [done|].
    intros pre [rest ->].
    apply Forall_app in Hres as [Hpre _].
    pose proof (run_source_none pre s1 Hpre H1) as Hnone.
    split; [exact Hnone|]. intros t f. unfold poll. by rewrite Hnone. }
  subst s1. rewrite snd_step, step_viewer_logs in Hlog.
  rewrite viewer_step, snd_step, step_viewer_eq. cbn [fst snd] in *.
  pose proof (reachable_effect_live s Hr) as [Hl1 _].
  destruct (runTimers_is_set_gate now (viewer s)) as (ub' & ts' & Hrt).
  rewrite Hrt in *.
  set (v0 := set_gate ub' ts' (viewer s)) in *.
  set (v1 := fst (handle now e v0)).
  assert (onLogChanges e (snd (handle now e v0)) = true) as ->.
  { unfold onLogChanges. destruct e; try done; by apply bool_decide_eq_true. }
  pose proof (handle_effect now e v0) as [Her _]. fold v1 in Her.
  pose proof (handle_mode now e v0 He) as Hm1. fold v1 in Hm1.
  pose proof (handle_session now e v0 He) as Hs1. fold v1 in Hs1.
  unfold commit.
  pose proof (mountRefs_fields v1) as (Hm2 & Hs2 & _). simpl in Hm2, Hs2.
  pose proof (mountRefs_effect v1) as (He2 & _ & _ & Hn2).
  pose proof (resetEffect_same_ui v0 (mountRefs v1)) as (Hm3 & Hs3 & _).
  pose proof (resetEffect_effect v0 (mountRefs v1)) as (He3 & _ & _ & Hn3).
  set (w := resetEffect v0 (mountRefs v1)) in *.
  destruct Hl1 as [_ [k Hk]]; [split; [by eexists|done]|].
  assert (isPresenting w = true) as Hpw.
  { unfold isPresenting in *. by rewrite Hm3, Hm2, Hm1. }
  assert (effectRun v0 = Some k) as Hk0 by exact Hk.
  assert (session v0 = Some sess) as Hs0 by exact Hs.
  rewrite (hitTestEffect_again v0 w k sess) by (try done; congruence).
  cbn [fst snd]. split; [done|].
  apply elem_of_app. right. apply elem_of_app. right.
  apply list_elem_of_singleton. f_equal. rewrite Hn3, Hn2.
  destruct e as [| |k' r|t|r|b|b]; try discriminate He; cbn [handle] in *;
    subst v1; try done.
  - unfold initSettled. case_bool_decide; [|done]. by destruct r.
  - by pose proof (useFrame_effect t v0) as (_ & _ & _ & ->).
  - destruct (session v0); [|done].
    by pose proof (placeModel_effect now r v0) as (_ & _ & _ & ->).
  - by destruct (isPresenting v0).
  - destruct (isPresenting v0); [|done]. by destruct b.
Qed.

Lemma any_log_restarts_hit_test_witness :
  let s1 := fst (step (700%N, Select "0.4fzyo82mvyr") readyToPlace) in
  hitTestSource (viewer s1) = None
  ∧ RequestHitTestSource 7 (nextRun (viewer readyToPlace))
    ∈ snd (step (700%N, Select "0.4fzyo82mvyr") readyToPlace)
  ∧ ∀ pre, pre `prefix_of` framesWhileWaiting →
      hitTestSource (viewer (fst (run pre s1))) = None
      ∧ ∀ t f, poll (viewer (fst (run pre s1))) t f = None.
Proof.
  refine (any_log_restarts_hit_test readyToPlace 700%N
            (Select "0.4fzyo82mvyr") 7 framesWhileWaiting _ _ _ _ _ _).
  - unfold readyToPlace, sessionWithSurface.
    apply reachable_run, reachable_run, reachable_initial.
  - vm_compute. reflexivity.
  - vm_compute. reflexivity.
  - reflexivity.
  - vm_compute. discriminate.
  - unfold framesWhileWaiting. by repeat constructor.
Defined.

(** The frames that follow the tap see hits but detect no surface. *)
Example waiting_frames_detect_nothing :
  let s1 := fst (step (700%N, Select "0.4fzyo82mvyr") readyToPlace) in
  isSurfaceDetected (viewer s1) = true
  ∧ isSurfaceDetected (viewer (fst (run framesWhileWaiting s1))) = false
  ∧ logs (snd (run framesWhileWaiting s1)) = ["Hit Test Error: busy"].
Proof. vm_compute. by repeat split. Qed.

(** ** Placement mode off *)

Lemma runTimers_presenting (now : Time) (v : Viewer) :
  isPresenting (runTimers now v) = isPresenting v
  ∧ isPlacementMode (runTimers now v) = isPlacementMode v
  ∧ session (runTimers now v) = session v.
Proof.
  pose proof (runTimers_fields now v) as (Hm & Hs & _ & Hpm & _).
  simpl in *. unfold isPresenting. by rewrite Hm.
Qed.

Lemma commit_quiet (v0 v1 : Viewer) :
  mode v1 = mode v0 → session v1 = session v0 →
  snd (commit v0 false v1) = []
  ∧ hitTestSource (fst (commit v0 false v1)) = hitTestSource v1.
Proof.
  intros Hm Hs. unfold commit.
  pose proof (mountRefs_fields v1) as (Hm2 & Hs2 & _ & _ & _ & _ & _ & _ & Hh2).
  simpl in Hm2, Hs2, Hh2.
  assert (resetEffect v0 (mountRefs v1) = mountRefs v1) as ->.
  { unfold resetEffect. rewrite bool_decide_eq_true_2; [done|].
    unfold isPresenting. by rewrite Hm2, Hm. }
  rewrite hitTestEffect_idle; [done|congruence|].
  unfold isPresenting. by rewrite Hm2, Hm.
Qed.

Lemma useFrame_off_reticle (t : Tick) (f : XRFrame) (v : Viewer) :
  isPresenting v = true → isPlacementMode v = false → frame t = Some f →
  ∀ r, reticleRef (fst (useFrame t v)) = Some r → visible r = false.
Proof.
  intros Hp Hm Hf r. unfold useFrame. rewrite Hp, Hf. simpl.
  pose proof (hideReticle_fields v) as (_ & Hm' & _). simpl in Hm'.
  rewrite Hm', Hm. simpl. unfold hideReticle.
  destruct (reticleRef v) eqn:Hr; simpl; [by intros [= <-]|].
  by rewrite Hr.
Qed.

(** X7. With placement mode off while presenting, a frame tick
    logs nothing, leaves the registry and the surface-detected flag as they
    are, shows no preview and, when it carries an XR frame, leaves the
    reticle hidden; a tap logs nothing and places nothing. *)
Theorem placement_off_is_inert (s : System) (now : Time) :
  isPresenting (viewer s) = true →
  isPlacementMode (viewer s) = false →
  (∀ t, let r := step (now, Frame t) s in
        snd r = [] ∧ models (viewer (fst r)) = models (viewer s)
        ∧ isSurfaceDetected (viewer (fst r)) = isSurfaceDetected (viewer s)
        ∧ previewRef (viewer (fst r)) = None
        ∧ (is_Some (frame t) →
           ∀ ret, reticleRef (viewer (fst r)) = Some ret → visible ret = false))
  ∧ (∀ random36, let r := step (now, Select random36) s in
        snd r = [] ∧ models (viewer (fst r)) = models (viewer s)).
Proof.
  intros Hp Hm.
  destruct (runTimers_presenting now (viewer s)) as (Hp0 & Hm0 & Hs0).
  rewrite Hp in Hp0. rewrite Hm in Hm0.
  pose proof (runTimers_fields now (viewer s))
    as (_ & _ & Hms0 & _ & Hd0 & _). simpl in Hms0, Hd0.
  split.
  - intros t r. subst r.
    rewrite viewer_step, snd_step, step_viewer_eq. cbn [fst snd handle].
    set (v0 := runTimers now (viewer s)) in *.
    assert (isPresenting v0 && isPlacementMode v0
            && bool_decide (is_Some (frame t)) = false) as Hidle
      by (by rewrite Hp0, Hm0).
    destruct (useFrame_idle t v0 Hidle) as (Hd & _ & Hout).
    pose proof (useFrame_fields t v0) as (Hm1 & Hs1 & Hms1 & Hpm1 & _).
    simpl in Hm1, Hs1, Hms1, Hpm1.
    rewrite Hout. unfold onLogChanges. simpl.
    destruct (commit_quiet v0 (fst (useFrame t v0)) Hm1 Hs1) as [-> _].
    pose proof (commit_fields v0 false (fst (useFrame t v0)))
      as (_ & _ & -> & _ & _ & _ & -> & _).
    assert (isPresenting v0 = isPresenting (fst (useFrame t v0))) as Hpe
      by (unfold isPresenting; by rewrite Hm1).
    rewrite (proj1 (commit_surface _ _ _ Hpe)).
    rewrite commit_reticleRef, mountRefs_previewRef_eq, mountRefs_reticleRef_eq.
    rewrite <- Hpe, Hp0, Hpm1, Hm0. simpl.
    repeat split; try congruence.
    intros [f Hf] ret.
    destruct (reticleRef (fst (useFrame t v0))) as [r0|] eqn:Hr0; simpl.
    + intros [= <-]. by apply (useFrame_off_reticle t f v0 Hp0 Hm0 Hf).
    + by intros [= <-].
  - intros random36 r. subst r.
    rewrite viewer_step, snd_step, step_viewer_eq. cbn [fst snd handle].
    set (v0 := runTimers now (viewer s)) in *.
    assert (placeModel now random36 v0 = (v0, [])) as Hpl
      by (unfold placeModel; by rewrite Hp0, Hm0).
    assert (match session v0 with
            | Some _ => placeModel now random36 v0
            | None => (v0, [])
            end = (v0, [])) as -> by (by destruct (session v0)).
    cbn [fst snd]. unfold onLogChanges. simpl.
    destruct (commit_quiet v0 v0 eq_refl eq_refl) as [-> _].
    by pose proof (commit_fields v0 false v0) as (_ & _ & -> & _).
Qed.

Lemma placement_off_is_inert_witness :
  (∀ t, let r := step (1500%N, Frame t) placementOff in
        snd r = [] ∧ models (viewer (fst r)) = models (viewer placementOff)
        ∧ isSurfaceDetected (viewer (fst r))
          = isSurfaceDetected (viewer placementOff)
        ∧ previewRef (viewer (fst r)) = None
        ∧ (is_Some (frame t) →
           ∀ ret, reticleRef (viewer (fst r)) = Some ret → visible ret = false))
  ∧ (∀ random36, let r := step (1500%N, Select random36) placementOff in
        snd r = [] ∧ models (viewer (fst r)) = models (viewer placementOff)).
Proof.
  refine (placement_off_is_inert placementOff 1500%N _ _).
  - vm_compute. reflexivity.
  - vm_compute. reflexivity.
Defined.

(** ** Locking on a surface *)

Lemma useFrame_lock (t : Tick) (f : XRFrame) (pose : XRPose) (v : Viewer)
    (r0 : Reticle) (o : Object3D) :
  isPresenting v = true → isPlacementMode v = true →
  reticleRef v = Some r0 → previewRef v = Some o →
  frame t = Some f → poll v t f = Some pose →
  let hitMatrix := fromArray (transform_matrix pose) in
  reticleRef (fst (useFrame t v)) = Some (mkReticle true hitMatrix)
  ∧ readVector (heap (fst (useFrame t v))) (position o)
    = decomposePosition hitMatrix
  ∧ readEuler (heap (fst (useFrame t v))) (rotation o) = OfMatrix hitMatrix.
Proof.
  destruct v as [m s ms pm sd lh rr pr hs ub ts er es fl nr h].
  unfold useFrame, isPresenting; simpl. intros Hp -> -> -> -> Hpoll.
  destruct m as [[| |]|]; try discriminate Hp.
  unfold poll in *. simpl in *. unfold hideReticle. simpl. rewrite Hpoll. simpl.
  destruct sd, lh; simpl; unfold readVector, readEuler; simpl;
    by rewrite !lookup_total_insert_eq.
Qed.

Lemma useFrame_miss_reticle (t : Tick) (f : XRFrame) (v : Viewer) :
  isPresenting v = true → frame t = Some f → poll v t f = None →
  ∀ r, reticleRef (fst (useFrame t v)) = Some r → visible r = false.
Proof.
  destruct v as [m s ms pm sd lh rr pr hs ub ts er es fl nr h].
  unfold useFrame, isPresenting; simpl. intros Hp -> Hpoll.
  destruct m as [[| |]|]; try discriminate Hp.
  unfold poll in *. simpl in *. unfold hideReticle.
  destruct rr as [r0|]; simpl; (destruct pm; simpl; [rewrite Hpoll; simpl|]);
    try destruct sd; try destruct pr; simpl; intros r [= <-]; done.
Qed.

(** X8. A frame tick of the running application, in AR with placement mode
    on and an XR frame.  When its poll returns a pose, the reticle is shown
    with the matrix of that pose and the preview sits exactly at the pose:
    its position is the translation of the matrix and its orientation the
    rotation of the matrix, with no smoothing.  When the poll returns
    nothing, the reticle is hidden. *)
Theorem preview_and_reticle_lock_to_hit (s : System) (now : Time) (t : Tick)
    (f : XRFrame) :
  reachable s → isPresenting (viewer s) = true →
  isPlacementMode (viewer s) = true → frame t = Some f →
  let s1 := fst (step (now, Frame t) s) in
  match poll (viewer s) t f with
  | Some pose =>
      let hitMatrix := fromArray (transform_matrix pose) in
      reticleRef (viewer s1) = Some (mkReticle true hitMatrix)
      ∧ ∃ o, previewRef (viewer s1) = Some o
          ∧ readVector (heap (viewer s1)) (position o)
            = decomposePosition hitMatrix
          ∧ readEuler (heap (viewer s1)) (rotation o) = OfMatrix hitMatrix
  | None => ∀ r, reticleRef (viewer s1) = Some r → visible r = false
  end.
Proof.
  intros Hr Hp Hm Hf s1. subst s1.
  rewrite viewer_step, step_viewer_eq. cbn [fst snd handle].
  destruct (runTimers_presenting now (viewer s)) as (Hp0 & Hm0 & _).
  rewrite Hp in Hp0. rewrite Hm in Hm0.
  pose proof (runTimers_fields now (viewer s))
    as (_ & _ & _ & _ & _ & _ & Hpr0 & Hh0 & _). simpl in Hpr0, Hh0.
  pose proof (runTimers_preview_mounted now _ (reachable_preview_mounted s Hr))
    as Hpm.
  pose proof (reachable_reticle_mounted s Hr) as Hrm.
  set (v0 := runTimers now (viewer s)) in *.
  rewrite <- (poll_hitTestSource (viewer s) v0 t f Hh0).
  pose proof (useFrame_fields t v0) as (Hm1 & _ & _ & Hpm1 & _ & _ & Hpr1 & _).
  simpl in Hm1, Hpm1, Hpr1.
  set (v1 := fst (useFrame t v0)) in *.
  assert (isPresenting v1 = true) as Hp1
    by (unfold isPresenting in *; by rewrite Hm1).
  rewrite commit_reticleRef, mountRefs_reticleRef_eq, Hp1.
  destruct (poll v0 t f) as [pose|] eqn:Hpoll.
  - destruct Hpm as [_ [o Ho]]; [by rewrite Hp0, Hm0|].
    assert (is_Some (reticleRef v0)) as [r0 Hr0].
    { destruct (runTimers_is_set_gate now (viewer s)) as (ub' & ts' & E).
      subst v0. rewrite E. simpl. by apply Hrm. }
    destruct (useFrame_lock t f pose v0 r0 o Hp0 Hm0 Hr0 Ho Hf Hpoll)
      as (Hret & Hv & He). fold v1 in Hret, Hv, He.
    pose proof (commit_fields v0
      (onLogChanges (Frame t) (snd (useFrame t v0))) v1)
      as (_ & _ & _ & _ & _ & _ & Hcp & Hch).
    destruct (mountRefs_mounted v1 o Hp1 ltac:(congruence) ltac:(congruence))
      as [Hmp Hmh].
    split; [by rewrite Hret|]. exists o.
    by rewrite Hcp, Hch, Hmp, Hmh.
  - intros r.
    destruct (reticleRef v1) as [r1|] eqn:Hr1; simpl; intros [= <-]; [|done].
    by apply (useFrame_miss_reticle t f v0 Hp0 Hf Hpoll).
Qed.

Lemma preview_and_reticle_lock_to_hit_witness :
  let s1 := fst (step (40%N, Frame (tickHit (hitAt 4 5 6))) readyToPlace) in
  match poll (viewer readyToPlace) (tickHit (hitAt 4 5 6))
          (mkXRFrame (λ _, [Some (hitAt 4 5 6)])) with
  | Some pose =>
      let hitMatrix := fromArray (transform_matrix pose) in
      reticleRef (viewer s1) = Some (mkReticle true hitMatrix)
      ∧ ∃ o, previewRef (viewer s1) = Some o
          ∧ readVector (heap (viewer s1)) (position o)
            = decomposePosition hitMatrix
          ∧ readEuler (heap (viewer s1)) (rotation o) = OfMatrix hitMatrix
  | None => ∀ r, reticleRef (viewer s1) = Some r → visible r = false
  end.
Proof.
  refine (preview_and_reticle_lock_to_hit readyToPlace 40%N
            (tickHit (hitAt 4 5 6))
            (mkXRFrame (λ _, [Some (hitAt 4 5 6)])) _ _ _ _).
  - unfold readyToPlace, sessionWithSurface.
    apply reachable_run, reachable_run, reachable_initial.
  - vm_compute. reflexivity.
  - vm_compute. reflexivity.
  - reflexivity.
Defined.

Example lock_at_4_5_6 :
  previewPosition (fst (step (40%N, Frame (tickHit (hitAt 4 5 6))) readyToPlace))
  = Some (mkVector3 4 5 6).
Proof. vm_compute. reflexivity. Qed.

(** ** The placement toggle *)

Lemma mountRefs_mount (v : Viewer) :
  isPresenting v = true → isPlacementMode v = true → previewRef v = None →
  previewRef (mountRefs v) = Some (fst (newGroup (heap v)))
  ∧ heap (mountRefs v) = snd (newGroup (heap v)).
Proof.
  destruct v as [m s ms pm sd lh rr pr hs ub ts er es fl nr h].
  unfold mountRefs, isPresenting; simpl. intros Hp -> ->.
  destruct m as [[| |]|]; try discriminate Hp. by destruct rr.
Qed.

Lemma newGroup_at_origin (h : Heap) :
  readVector (snd (newGroup h)) (position (fst (newGroup h))) = mkVector3 0 0 0
  ∧ readEuler (snd (newGroup h)) (rotation (fst (newGroup h))) = Identity.
Proof.
  unfold newGroup, allocVector, allocEuler, readVector, readEuler. simpl.
  by rewrite !lookup_total_insert_eq.
Qed.

(** X9. A click on the placement toggle of the HUD in the running
    application: placement mode flips, the message names the new mode, the
    registry is untouched and the gate is closed.  Turning the mode off
    removes the preview; turning it on creates a new preview at the origin
    with the identity orientation, wherever the old one was. *)
Theorem toggle_placement_mode (s : System) (now : Time) :
  reachable s → isPresenting (viewer s) = true →
  let r := step (now, HudClick PlaceToggleButton) s in
  let s1 := fst r in
  isPlacementMode (viewer s1) = negb (isPlacementMode (viewer s))
  ∧ logs (snd r) = [if isPlacementMode (viewer s)
                    then "Placement Disabled" else "Placement Enabled"]
  ∧ models (viewer s1) = models (viewer s)
  ∧ isUiBlocked (viewer s1) = true
  ∧ if isPlacementMode (viewer s)
    then previewRef (viewer s1) = None
    else ∃ o, previewRef (viewer s1) = Some o
           ∧ readVector (heap (viewer s1)) (position o) = mkVector3 0 0 0
           ∧ readEuler (heap (viewer s1)) (rotation o) = Identity.
Proof.
  intros Hr Hp r s1. subst s1 r.
  rewrite viewer_step, snd_step, step_viewer_logs, step_viewer_eq.
  cbn [fst snd handle].
  destruct (runTimers_presenting now (viewer s)) as (Hp0 & Hm0 & _).
  rewrite Hp in Hp0.
  pose proof (runTimers_fields now (viewer s))
    as (Hmo0 & _ & Hms0 & _ & _ & _ & Hpr0 & _ & Hh0).
  simpl in Hmo0, Hms0, Hpr0, Hh0.
  pose proof (runTimers_preview_mounted now _ (reachable_preview_mounted s Hr))
    as Hpm.
  set (v0 := runTimers now (viewer s)) in *.
  rewrite Hp0. unfold handleInteraction. cbn [onClick fst snd].
  set (v1 := setIsPlacementMode negb (setUiBlocked now true v0)).
  pose proof (commit_fields v0
    (onLogChanges (HudClick PlaceToggleButton)
       [Log (if isPlacementMode (setUiBlocked now true v0)
             then "Placement Disabled" else "Placement Enabled")]) v1)
    as (_ & _ & Hcm & Hcpm & Hcb & _ & Hcp & Hch).
  rewrite Hcm, Hcpm, Hcb, Hcp, Hch. simpl. rewrite Hm0, Hms0.
  repeat split.
  assert (isPresenting v1 = true) as Hp1
    by (unfold isPresenting in *; simpl; by rewrite Hmo0).
  destruct (isPlacementMode (viewer s)) eqn:Hm.
  - rewrite mountRefs_previewRef_eq, Hp1. simpl. by rewrite Hm0.
  - assert (previewRef v1 = None) as Hn.
    { simpl. destruct (previewRef v0) eqn:E; [|done].
      destruct Hpm as [Hpm _]. rewrite Hp0, Hm0 in Hpm.
      by specialize (Hpm ltac:(by eexists)). }
    destruct (mountRefs_mount v1 Hp1) as [-> ->]; [simpl; by rewrite Hm0|done|].
    eexists. split; [done|]. apply newGroup_at_origin.
Qed.

Lemma toggle_placement_mode_witness :
  let r := step (1400%N, HudClick PlaceToggleButton) placementOff in
  let s1 := fst r in
  isPlacementMode (viewer s1) = negb (isPlacementMode (viewer placementOff))
  ∧ logs (snd r) = [if isPlacementMode (viewer placementOff)
                    then "Placement Disabled" else "Placement Enabled"]
  ∧ models (viewer s1) = models (viewer placementOff)
  ∧ isUiBlocked (viewer s1) = true
  ∧ if isPlacementMode (viewer placementOff)
    then previewRef (viewer s1) = None
    else ∃ o, previewRef (viewer s1) = Some o
           ∧ readVector (heap (viewer s1)) (position o) = mkVector3 0 0 0
           ∧ readEuler (heap (viewer s1)) (rotation o) = Identity.
Proof.
  refine (toggle_placement_mode placementOff 1400%N _ _).
  - unfold placementOff, placedOnce, readyToPlace, sessionWithSurface.
    apply reachable_step.
    apply reachable_run, reachable_run, reachable_run, reachable_initial.
  - vm_compute. reflexivity.
Defined.

(** ** Slow frames *)

Lemma scaled_dist2 (p' p target : Vector3) (k : Q) :
  scaled p' p target k → (dist2 p' target == k * k * dist2 p target)%Q.
Proof.
  unfold scaled, dist2. intros (Hx & Hy & Hz). rewrite Hx, Hy, Hz. ring.
Qed.

Lemma dist2_nonneg (a b : Vector3) : (0 <= dist2 a b)%Q.
Proof.
  unfold dist2.
  generalize (vx a - vx b)%Q (vy a - vy b)%Q (vz a - vz b)%Q.
  intros x y z. nra.
Qed.

(** X10. One frame tick that polls no pose scales the distance between the
    preview and the point in front of the camera by [|1 - 5 * delta|]: the
    preview does not move away while [0 <= delta <= 2/5], lands on the point
    when [delta = 1/5], and ends farther away than it started for any frame
    longer than 2/5 s (the interpolation factor is not clamped). *)
Theorem follow_tick_distance (s : System) (now : Time) (t : Tick) (o : Object3D) :
  isPresenting (viewer s) = true → isPlacementMode (viewer s) = true →
  previewRef (viewer s) = Some o → follows (viewer s) (camera t) t →
  let p := readVector (heap (viewer s)) (position o) in
  let p' := readVector (heap (viewer (fst (step (now, Frame t) s)))) (position o) in
  let target := followTarget (camera t) in
  (dist2 p' target
   == (1 - delta t * 5) * (1 - delta t * 5) * dist2 p target)%Q
  ∧ ((0 <= delta t)%Q → (delta t <= 2 # 5)%Q →
     (dist2 p' target <= dist2 p target)%Q)
  ∧ ((delta t == 1 # 5)%Q → (dist2 p' target == 0)%Q)
  ∧ ((2 # 5 <= delta t)%Q → (dist2 p target <= dist2 p' target)%Q).
Proof.
  intros Hp Hm Ho Hf p p' target.
  destruct (step_follow now t (viewer s) o Hp Hm Ho Hf) as (_ & _ & _ & _ & Hread).
  pose proof (viewer_step (now, Frame t) s) as Hv. simpl in Hv.
  rewrite <- Hv in Hread. fold p p' target in Hread.
  assert (dist2 p' target
          == (1 - delta t * 5) * (1 - delta t * 5) * dist2 p target)%Q as Hd'.
  { apply scaled_dist2. rewrite Hread. apply lerp_scaled. }
  pose proof (dist2_nonneg p target) as Hn.
  split; [exact Hd'|]. rewrite Hd'. clear Hd' Hread Hv Hf.
  generalize dependent (dist2 p target). generalize (delta t).
  intros d D HD. split; [|split].
  - intros H0 H1.
    assert ((1 - d * 5) * (1 - d * 5) <= 1)%Q as Hk by nra. nra.
  - intros H1. rewrite H1. ring.
  - intros H1.
    assert (1 <= (1 - d * 5) * (1 - d * 5))%Q as Hk by nra. nra.
Qed.

Lemma follow_tick_distance_witness :
  let p := readVector (heap (viewer trackingSession)) (position (mkObject3D 0 0)) in
  let p' := readVector (heap (viewer (fst (step (500%N, Frame (tickNoHit (1 # 2)))
                                             trackingSession))))
              (position (mkObject3D 0 0)) in
  let target := followTarget (camera (tickNoHit (1 # 2))) in
  (dist2 p' target
   == (1 - delta (tickNoHit (1 # 2)) * 5) * (1 - delta (tickNoHit (1 # 2)) * 5)
      * dist2 p target)%Q
  ∧ ((0 <= delta (tickNoHit (1 # 2)))%Q → (delta (tickNoHit (1 # 2)) <= 2 # 5)%Q →
     (dist2 p' target <= dist2 p target)%Q)
  ∧ ((delta (tickNoHit (1 # 2)) == 1 # 5)%Q → (dist2 p' target == 0)%Q)
  ∧ ((2 # 5 <= delta (tickNoHit (1 # 2)))%Q → (dist2 p target <= dist2 p' target)%Q).
Proof.
  refine (follow_tick_distance trackingSession 500%N (tickNoHit (1 # 2))
            (mkObject3D 0 0) _ _ _ _).
  - vm_compute. reflexivity.
  - vm_compute. reflexivity.
  - vm_compute. reflexivity.
  - split; [reflexivity|]. eexists. split; [reflexivity|vm_compute; reflexivity].
Defined.

Example half_second_frame_overshoots :
  previewPosition (fst (step (500%N, Frame (tickNoHit (1 # 2))) trackingSession))
  = Some (mkVector3 (0 # 8) (0 # 8) (-30 # 8)).
Proof. vm_compute. reflexivity. Qed.

(** * The models *)

Lemma strip_slashes (n : nat) (url : string) :
  String.prefix "/" url = false →
  Models.stripLeadingSlashes (slashes n +:+ url) = url.
Proof.
  intros Hurl. induction n as [|n IH]; simpl.
  - destruct url as [|c rest]; [done|].
    simpl in Hurl. destruct (Ascii.ascii_dec "/" c) as [<-|Hc]; simpl.
    + by destruct rest.
    + destruct c as [[] [] [] [] [] [] [] []]; try done.
  - exact IH.
Qed.

Lemma slashes_relative (n : nat) (url : string) :
  Models.isAbsolute url = false →
  Models.isAbsolute (slashes n +:+ url) = false.
Proof.
  intros Hurl. destruct n as [|n]; [exact Hurl|]. reflexivity.
Qed.

(** X11.  A relative URL is resolved under the base path whatever the
    number of slashes it starts with: for a URL that is neither http, blob
    nor data and does not start with a slash, the URL with [n] slashes
    before it resolves to the base followed by the URL itself. *)
Theorem resolvedUrl_ignores_leading_slashes (base url : string) (n : nat) :
  Models.isAbsolute url = false →
  String.prefix "/" url = false →
  Models.resolvedUrl base (slashes n +:+ url) = base +:+ url.
Proof.
  intros Habs Hurl. unfold Models.resolvedUrl.
  rewrite slashes_relative by exact Habs.
  by rewrite strip_slashes.
Qed.

Lemma resolvedUrl_ignores_leading_slashes_witness :
  Models.resolvedUrl "/depthai-arviewer/" (slashes 2 +:+ "assets/Duck.glb")
  = "/depthai-arviewer/" +:+ "assets/Duck.glb".
Proof.
  refine (resolvedUrl_ignores_leading_slashes _ _ 2 _ _); reflexivity.
Defined.

(** A relative path whose first letters are [http] is taken for an
    absolute URL and left as it is. *)
Example relative_path_named_http :
  Models.resolvedUrl "/depthai-arviewer/" "httpd/model.glb" = "httpd/model.glb".
Proof. reflexivity. Qed.

Lemma rotateFrames_unmounted (settings : SceneSettings) (deltas : list Q) :
  Models.rotateFrames settings deltas None = None.
Proof. induction deltas as [|d ds IH]; [done|exact IH]. Qed.

Lemma rotateFrames_mounted (settings : SceneSettings) (deltas : list Q) (y : Q) :
  ∃ y', Models.rotateFrames settings deltas (Some y) = Some y'
        ∧ (y' == y + (if autoRotate settings
                      then elapsed deltas * rotationSpeed settings
                      else 0))%Q.
Proof.
  revert y. induction deltas as [|d ds IH]; intros y.
  - exists y. split; [done|]. destruct (autoRotate settings); unfold elapsed; simpl; ring.
  - unfold Models.rotateFrames. simpl.
    destruct (autoRotate settings) eqn:Hauto.
    + destruct (IH (y + d * rotationSpeed settings)%Q) as (y' & Hrun & Hy').
      exists y'. split; [exact Hrun|]. rewrite Hy'. ring.
    + destruct (IH y) as (y' & Hrun & Hy').
      exists y'. split; [exact Hrun|]. rewrite Hy'. ring.
Qed.

(** X12.  The angle that a mounted model turns over a run of frames is
    the rotation speed times the time the frames take, whatever the number
    and the lengths of the frames; with auto-rotation off it does not
    turn. *)
Theorem rotation_is_speed_times_elapsed
    (settings : SceneSettings) (deltas : list Q) (y : Q) :
  ∃ y', Models.rotateFrames settings deltas (Some y) = Some y'
        ∧ (y' == y + (if autoRotate settings
                      then elapsed deltas * rotationSpeed settings
                      else 0))%Q.
Proof. apply rotateFrames_mounted. Qed.

(** Two ways to cut the same stretch of time into frames turn the model
    by the same angle. *)
Lemma rotation_same_for_partitions
    (settings : SceneSettings) (deltas deltas' : list Q) (y y1 y2 : Q) :
  (elapsed deltas == elapsed deltas')%Q →
  Models.rotateFrames settings deltas (Some y) = Some y1 →
  Models.rotateFrames settings deltas' (Some y) = Some y2 →
  (y1 == y2)%Q.
Proof.
  intros Hsame H1 H2.
  destruct (rotateFrames_mounted settings deltas y) as (z1 & Hz1 & E1).
  destruct (rotateFrames_mounted settings deltas' y) as (z2 & Hz2 & E2).
  assert (z1 = y1) as -> by congruence.
  assert (z2 = y2) as -> by congruence.
  rewrite E1, E2. destruct (autoRotate settings); [|reflexivity].
  rewrite Hsame. reflexivity.
Qed.

Lemma action_head {A : Type} (key : string) (a : option A)
    (rest : list (string * option A)) :
  Models.action ((key, a) :: rest) key = a.
Proof. simpl. by rewrite String.eqb_refl. Qed.

(** X13.  The placeholder plays at most one clip: the one named Survey
    when the model has it, otherwise the one under the first key of the
    actions; a later clip is never played. *)
Theorem only_survey_or_first_clip_plays {A : Type}
    (actions : list (string * option A)) (name : string) (a : A) :
  Models.startAnimation actions = Some (name, a) →
  (name = "Survey" ∧ Models.action actions "Survey" = Some a)
  ∨ (Models.action actions "Survey" = None
     ∧ ∃ rest, actions = (name, Some a) :: rest).
Proof.
  unfold Models.startAnimation. intros Hplay.
  destruct (Models.action actions "Survey") as [s|] eqn:Hsurvey.
  - left. simpl in Hplay. rewrite Hsurvey in Hplay. by simplify_eq.
  - right. split; [done|].
    destruct actions as [|[key b] rest]; [done|].
    simpl fmap in Hplay. cbv iota beta in Hplay.
    destruct (String.eqb key "") eqn:Hkey; [done|].
    rewrite action_head in Hplay.
    destruct b as [b|]; [|done]. simplify_eq. by exists rest.
Qed.

Lemma only_survey_or_first_clip_plays_witness :
  ("Walk" = "Survey"
   ∧ Models.action [("Walk", Some 1%nat); ("Run", Some 2%nat)] "Survey" = Some 1%nat)
  ∨ (Models.action [("Walk", Some 1%nat); ("Run", Some 2%nat)] "Survey" = None
     ∧ ∃ rest, [("Walk", Some 1%nat); ("Run", Some 2%nat)]
               = ("Walk", Some 1%nat) :: rest).
Proof.
  refine (only_survey_or_first_clip_plays _ "Walk" 1%nat _). reflexivity.
Defined.

(** A model whose first clip is missing plays nothing, though it has
    another clip. *)
Example first_clip_missing :
  Models.startAnimation [("Walk", None); ("Run", Some 2%nat)] = None.
Proof. reflexivity. Qed.

(** * The application state *)

Lemma app_run_cons (e : App.Event) (es : list App.Event) (st : App.State) :
  App.run (e :: es) st
  = ((App.run es (App.step e st).1).1,
     (App.step e st).2 ++ (App.run es (App.step e st).1).2).
Proof.
  cbn [App.run]. destruct (App.step e st) as [st1 out]. cbn [fst snd].
  by destruct (App.run es st1) as [st2 out'].
Qed.

Lemma revoked_app (out out' : list App.Request) :
  App.revoked (out ++ out') = App.revoked out ++ App.revoked out'.
Proof. apply omap_app. Qed.

(** The URL that a state holds and would revoke at the next upload. *)
Lemma upload_step (e : App.Event) (st : App.State) :
  App.modelUrl st ≠ Some "" →
  (∀ url, url ∈ App.uploaded [e] → url ≠ "") →
  App.modelUrl (App.step e st).1 ≠ Some ""
  ∧ held (App.modelUrl st) ++ App.uploaded [e]
    = App.revoked (App.step e st).2 ++ held (App.modelUrl (App.step e st).1).
Proof.
  intros Hst He.
  destruct e as [xr|session|root|msg|[[|file files]|] url|u]; simpl;
    try (split; [exact Hst | by rewrite app_nil_r]).
  - unfold App.handleEnterAR.
    destruct (negb (App.arSupported st)); simpl;
      (split; [exact Hst | by rewrite app_nil_r]).
  - assert (url ≠ "") as Hurl by (apply He; simpl; set_solver).
    split; [congruence|].
    destruct (App.modelUrl st) as [old|]; [|done].
    destruct (String.eqb_spec old ""); [congruence|done].
Qed.

Lemma uploaded_cons (e : App.Event) (es : list App.Event) :
  App.uploaded (e :: es) = App.uploaded [e] ++ App.uploaded es.
Proof. apply (omap_app _ [e] es). Qed.

Lemma upload_run (es : list App.Event) (st : App.State) :
  App.modelUrl st ≠ Some "" →
  (∀ url, url ∈ App.uploaded es → url ≠ "") →
  held (App.modelUrl st) ++ App.uploaded es
  = App.revoked (App.run es st).2 ++ held (App.modelUrl (App.run es st).1).
Proof.
  revert st. induction es as [|e es IH]; intros st Hst Hes.
  - simpl. by rewrite app_nil_r.
  - rewrite uploaded_cons in Hes.
    destruct (upload_step e st Hst) as [Hst1 Hstep].
    { intros url Hin. apply Hes. set_solver. }
    rewrite app_run_cons, uploaded_cons. cbn [fst snd].
    rewrite revoked_app, app_assoc, Hstep, <- !app_assoc. f_equal.
    apply IH; [exact Hst1|]. intros url Hin. apply Hes. set_solver.
Qed.

(** X14.  Every object URL made for an upload is revoked, once and in the
    order of the uploads, except the one of the last upload, which is the
    model shown: the revoked URLs followed by the current model URL are the
    URLs of the uploads. *)
Theorem uploads_revoke_all_but_current (es : list App.Event) :
  (∀ url, url ∈ App.uploaded es → url ≠ "") →
  App.revoked (App.run es App.initial).2
    ++ held (App.modelUrl (App.run es App.initial).1)
  = App.uploaded es.
Proof.
  intros Hes. by rewrite <- (upload_run es App.initial).
Qed.

Lemma uploads_revoke_all_but_current_witness :
  let es := [App.FileChanged (Some [1%nat]) "blob:a";
             App.FileChanged None "blob:b";
             App.SettingChanged Controls.ToggleAutoRotate;
             App.FileChanged (Some [2%nat; 3%nat]) "blob:c";
             App.FileChanged (Some [4%nat]) "blob:d"] in
  App.revoked (App.run es App.initial).2
    ++ held (App.modelUrl (App.run es App.initial).1)
  = App.uploaded es.
Proof.
  refine (uploads_revoke_all_but_current _ _).
  intros url Hin. vm_compute in Hin.
  repeat (apply elem_of_cons in Hin as [->|Hin]; [done|]).
  by apply elem_of_nil in Hin.
Defined.

Example two_uploads :
  App.run [App.FileChanged (Some [1%nat]) "blob:a";
           App.FileChanged (Some [2%nat]) "blob:b"] App.initial
  = ({| App.modelUrl := Some "blob:b"; App.isAR := false;
        App.arSupported := false; App.debugLog := [];
        App.settings := App.settings App.initial |},
     [App.CreateObjectURL 1; App.RevokeObjectURL "blob:a";
      App.CreateObjectURL 2]).
Proof. reflexivity. Qed.

Lemma upload_keeps_or_sets (e : App.Event) (st : App.State) :
  App.modelUrl (App.step e st).1
  = match App.uploaded [e] with
    | url :: _ => Some url
    | [] => App.modelUrl st
    end.
Proof.
  destruct e as [xr|session|root|msg|[[|file files]|] url|u]; try done.
  simpl. unfold App.handleEnterAR. by destruct (negb (App.arSupported st)).
Qed.

Lemma modelUrl_run (es : list App.Event) (st : App.State) :
  App.modelUrl (App.run es st).1
  = match last (App.uploaded es) with
    | Some url => Some url
    | None => App.modelUrl st
    end.
Proof.
  revert st. induction es as [|e es IH]; intros st; [done|].
  rewrite app_run_cons, uploaded_cons. cbn [fst]. rewrite IH, upload_keeps_or_sets.
  destruct (App.uploaded [e]) as [|url [|url' rest]] eqn:He.
  - done.
  - simpl. destruct (App.uploaded es) as [|u us] eqn:Hes; [done|].
    change (last (url :: u :: us)) with (last (u :: us)).
    destruct (last (u :: us)) eqn:Hl; [done|]. by apply last_None in Hl.
  - exfalso. destruct e as [xr|session|root|msg|[[|file files]|] u0|u0]; done.
Qed.

(** X15.  The model given to the loader is the object URL of the last
    upload, unchanged, when the browser's object URLs start with [blob:];
    before any upload it is the duck under the base path. *)
Theorem uploaded_model_is_loaded_as_is (base : string) (es : list App.Event) :
  (∀ url, url ∈ App.uploaded es → String.prefix "blob:" url = true) →
  Models.gltfUrl base (App.modelUrl (App.run es App.initial).1)
  = default (base +:+ "assets/Duck.glb") (last (App.uploaded es)).
Proof.
  intros Hblob. rewrite modelUrl_run.
  destruct (last (App.uploaded es)) as [url|] eqn:Hlast; [|done].
  assert (String.prefix "blob:" url = true) as Hurl.
  { apply Hblob. apply last_Some in Hlast as [l' ->]. set_solver. }
  simpl. unfold Models.resolvedUrl, Models.isAbsolute. rewrite Hurl.
  destruct url as [|c rest]; [done|]. simpl String.eqb.
  by rewrite orb_true_r.
Qed.

Lemma uploaded_model_is_loaded_as_is_witness :
  let es := [App.FileChanged (Some [1%nat]) "blob:a";
             App.SupportChecked None;
             App.FileChanged (Some [2%nat]) "blob:https://host/7f1c"] in
  Models.gltfUrl "/depthai-arviewer/" (App.modelUrl (App.run es App.initial).1)
  = default ("/depthai-arviewer/" +:+ "assets/Duck.glb") (last (App.uploaded es)).
Proof.
  refine (uploaded_model_is_loaded_as_is _ _ _).
  intros url Hin. vm_compute in Hin.
  repeat (apply elem_of_cons in Hin as [->|Hin]; [done|]).
  by apply elem_of_nil in Hin.
Defined.

Lemma step_supported (e : App.Event) (st : App.State) :
  App.arSupported (App.step e st).1
  = match e with
    | App.SupportChecked xr => App.is_supported e
    | _ => App.arSupported st
    end.
Proof.
  destruct e as [[[[|]|]|]|session|root|msg|[[|file files]|] url|u]; try done.
  simpl. unfold App.handleEnterAR. by destruct (negb (App.arSupported st)).
Qed.

Lemma step_enterAR (e : App.Event) (st : App.State) :
  existsb App.is_enterAR (App.step e st).2 = true → App.arSupported st = true.
Proof.
  destruct e as [xr|session|root|msg|[[|file files]|] url|u]; simpl; try done.
  - unfold App.handleEnterAR. by destruct (App.arSupported st).
  - destruct (App.modelUrl st) as [old|]; [|done].
    by destruct (String.eqb old "").
Qed.

Lemma run_enterAR (es : list App.Event) (st : App.State) :
  existsb App.is_enterAR (App.run es st).2 = true →
  App.arSupported st = true ∨ existsb App.is_supported es = true.
Proof.
  revert st. induction es as [|e es IH]; intros st; [done|].
  rewrite app_run_cons. cbn [fst snd]. rewrite existsb_app.
  intros [Hnow|Hlater]%orb_true_iff.
  - left. by apply (step_enterAR e).
  - destruct (IH _ Hlater) as [Hsup|Hex].
    + rewrite step_supported in Hsup.
      destruct e; try (by left); right; cbn [existsb]; by rewrite Hsup.
    + right. simpl. rewrite Hex. apply orb_true_r.
Qed.

(** X16.  An AR session is requested only on a device whose support check
    resolved to true: a run of events from the first render that requests a
    session contains such a check. *)
Theorem session_requested_only_if_supported (es : list App.Event) :
  existsb App.is_enterAR (App.run es App.initial).2 = true →
  existsb App.is_supported es = true.
Proof.
  intros Hreq. by destruct (run_enterAR es App.initial Hreq).
Qed.

Lemma session_requested_only_if_supported_witness :
  existsb App.is_supported
    [App.SupportChecked (Some (Some true)); App.EnterPressed true] = true.
Proof.
  refine (session_requested_only_if_supported _ _). reflexivity.
Defined.

(** Without a successful check the button only raises the alert. *)
Example enter_without_support :
  App.run [App.SupportChecked (Some None); App.EnterPressed true] App.initial
  = (App.initial, [App.Alert "AR not supported on this device."]).
Proof. reflexivity. Qed.

Lemma step_autoRotate (e : App.Event) (st : App.State) :
  App.is_toggle e = false →
  autoRotate (App.settings st) = false →
  autoRotate (App.settings (App.step e st).1) = false.
Proof.
  intros He Hst.
  destruct e as [xr|session|root|msg|[[|file files]|] url|[v|v|]]; try done.
  simpl. unfold App.handleEnterAR. by destruct (negb (App.arSupported st)).
Qed.

Lemma run_autoRotate (es : list App.Event) (st : App.State) :
  existsb App.is_toggle es = false →
  autoRotate (App.settings st) = false →
  autoRotate (App.settings (App.run es st).1) = false.
Proof.
  revert st. induction es as [|e es IH]; intros st Hes Hst; [done|].
  simpl in Hes. apply orb_false_iff in Hes as [He Hes].
  rewrite app_run_cons. cbn [fst]. apply IH; [exact Hes|].
  by apply step_autoRotate.
Qed.

(** X17.  Entering AR on a supported device turns auto-rotation off for
    good: whatever follows (a failed start, the end of the session, uploads,
    changes of scale or light), as long as the auto-rotate button is not
    pressed the setting stays off and the frames leave the model's angle as
    it is. *)
Theorem auto_rotation_stays_off_after_enter_ar
    (st : App.State) (overlayRoot : bool) (es : list App.Event)
    (deltas : list Q) (y : Q) :
  App.arSupported st = true →
  existsb App.is_toggle es = false →
  let st' := (App.run (App.EnterPressed overlayRoot :: es) st).1 in
  autoRotate (App.settings st') = false
  ∧ Models.rotateFrames (App.settings st') deltas (Some y) = Some y.
Proof.
  intros Hsup Hes st'.
  assert (autoRotate (App.settings st') = false) as Hoff.
  { unfold st'. rewrite app_run_cons. cbn [fst]. apply run_autoRotate; [exact Hes|].
    simpl. unfold App.handleEnterAR. by rewrite Hsup. }
  split; [exact Hoff|].
  induction deltas as [|d ds IH]; [done|].
  unfold Models.rotateFrames in *. simpl. by rewrite Hoff.
Qed.

Lemma auto_rotation_stays_off_after_enter_ar_witness :
  let st := (App.run [App.SupportChecked (Some (Some true))] App.initial).1 in
  let es := [App.EnterFailed "denied"; App.StoreChanged None;
             App.SettingChanged (Controls.SetScale 2)] in
  let st' := (App.run (App.EnterPressed true :: es) st).1 in
  autoRotate (App.settings st') = false
  ∧ Models.rotateFrames (App.settings st') [1 # 60; 1 # 30]%Q (Some 0%Q)
    = Some 0%Q.
Proof.
  refine (auto_rotation_stays_off_after_enter_ar _ true _ _ _ _ _); reflexivity.
Defined.

Lemma step_fixed_settings (e : App.Event) (st : App.State) :
  ambientIntensity (App.settings (App.step e st).1)
    = ambientIntensity (App.settings st)
  ∧ rotationSpeed (App.settings (App.step e st).1)
    = rotationSpeed (App.settings st).
Proof.
  destruct e as [xr|session|root|msg|[[|file files]|] url|[v|v|]]; try done.
  simpl. unfold App.handleEnterAR. by destruct (negb (App.arSupported st)).
Qed.

Lemma run_fixed_settings (es : list App.Event) (st : App.State) :
  ambientIntensity (App.settings (App.run es st).1)
    = ambientIntensity (App.settings st)
  ∧ rotationSpeed (App.settings (App.run es st).1)
    = rotationSpeed (App.settings st).
Proof.
  revert st. induction es as [|e es IH]; intros st; [done|].
  rewrite app_run_cons. cbn [fst].
  destruct (IH (App.step e st).1) as [-> ->]. apply step_fixed_settings.
Qed.

(** X18.  No event changes the ambient light or the rotation speed: after
    any run from the first render they are 0.8 and 0.5, so a mounted model
    that turns does so by half the elapsed time. *)
Theorem ambient_and_speed_are_fixed (es : list App.Event) (deltas : list Q) (y : Q) :
  let settings := App.settings (App.run es App.initial).1 in
  ambientIntensity settings = (4 # 5)%Q
  ∧ rotationSpeed settings = (1 # 2)%Q
  ∧ ∃ y', Models.rotateFrames settings deltas (Some y) = Some y'
          ∧ (y' == y + (if autoRotate settings
                        then elapsed deltas * (1 # 2) else 0))%Q.
Proof.
  intros settings.
  destruct (run_fixed_settings es App.initial) as [Hamb Hspeed].
  split; [exact Hamb|]. split; [exact Hspeed|].
  destruct (rotateFrames_mounted settings deltas y) as (y' & Hrun & Hy').
  exists y'. split; [exact Hrun|].
  unfold settings in Hy'. rewrite Hspeed in Hy'. exact Hy'.
Qed.

(** * The history shown by [App] *)

Lemma addLog_length (msg : string) (prev : list string) :
  (length (addLog msg prev) ≤ 5)%nat.
Proof. unfold addLog. rewrite length_take. lia. Qed.

Lemma app_step_history (e : App.Event) (st : App.State) :
  (length (App.debugLog st) ≤ 5)%nat →
  (length (App.debugLog (App.step e st).1) ≤ 5)%nat.
Proof.
  intros Hst.
  destruct e as [xr|session|root|msg|[[|file files]|] url|u]; try exact Hst.
  - simpl. unfold App.handleEnterAR.
    destruct (negb (App.arSupported st)); [exact Hst|apply addLog_length].
  - apply addLog_length.
Qed.

(** Every history that [App]'s own handlers leave has at most five lines. *)
Lemma app_run_history (es : list App.Event) (st : App.State) :
  (length (App.debugLog st) ≤ 5)%nat →
  (length (App.debugLog (App.run es st).1) ≤ 5)%nat.
Proof.
  revert st. induction es as [|e es IH]; intros st Hst; [exact Hst|].
  rewrite app_run_cons. cbn [fst]. by apply IH, app_step_history.
Qed.

(** X4. [App] and the controller write the same history.  Take any
    history of at most five lines, as [App]'s own handlers and earlier runs
    leave it (it may hold "Initializing AR..." or a start error), and let the
    controller run from any state over any events: the history is then the
    five newest of the controller's messages of the run, newest first,
    followed by the history from before the run. *)
Theorem history_is_last_five_logged
    (before : list string) (v : Viewer) (tes : list (Time * Event)) :
  (length before ≤ 5)%nat →
  let s := {| debugLog := before; viewer := v |} in
  debugLog (fst (run tes s))
  = take 5 (reverse (logs (snd (run tes s))) ++ before).
Proof.
  intros Hbefore s. rewrite debugLog_run.
  change (debugLog s) with before.
  rewrite <- (take_ge before 5) at 1 by exact Hbefore.
  apply foldl_addLog.
Qed.

(** A session entered from the button: the controller's messages come on
    top of [App]'s own. *)
Lemma history_is_last_five_logged_witness :
  let before :=
    App.debugLog (App.run [App.SupportChecked (Some (Some true));
                           App.EnterPressed true] App.initial).1 in
  let tes := enterAR ++ [(10%N, Frame (tickHit (hitAt 1 2 3)))] in
  let s := {| debugLog := before; viewer := initialViewer |} in
  debugLog (fst (run tes s))
  = take 5 (reverse (logs (snd (run tes s))) ++ before).
Proof.
  refine (history_is_last_five_logged _ initialViewer _ _).
  vm_compute. lia.
Defined.

Example history_of_a_session :
  let before :=
    App.debugLog (App.run [App.SupportChecked (Some (Some true));
                           App.EnterPressed true] App.initial).1 in
  debugLog (fst (run (enterAR ++ [(10%N, Frame (tickHit (hitAt 1 2 3)))])
                  {| debugLog := before; viewer := initialViewer |}))
  = ["Surface detected!"; "Initializing AR..."].
Proof. vm_compute. reflexivity. Qed.
